(** * clore-scraper: the scrape -> map -> sync pipeline

    A shallow embedding of the TypeScript sources of the Shopify scraper
    (domain normalizer, validators, retry helper, store detector, paginated
    scraper, data mapper, GraphQL sync client) and the properties proved
    about them.

    Conventions of the embedding.
    - A JavaScript string is a [string] of 8-bit characters; the case and
      white-space tables are the ASCII ones.
    - A JavaScript number that the code does arithmetic on (weights,
      inventory, position) is a binary64 [float]; identifiers, which the
      code only tests and prints, are integers of [Z]; counters are [nat].
    - A field that the source tests for presence is an [option].
    - Asynchronous code is sequential: [await] is function application, and
      the network calls, sleeps and retry diagnostics are recorded in a
      trace of events. *)

From Stdlib Require Import ZArith List String Ascii Bool Lia Floats DecimalString.
Import ListNotations.

Set Warnings "-inexact-float".

Open Scope string_scope.

(* ================================================================== *)
(** ** JavaScript primitives used by the sources *)
(* ================================================================== *)

Module JS.

(** [all_chars P s]: every character of [s] satisfies [P]. *)
Fixpoint all_chars (P : ascii -> bool) (s : string) : bool :=
match s with
| EmptyString => true
| String c s' => P c && all_chars P s'
end.

Definition first_char (s : string) : option ascii :=
match s with
| EmptyString => None
| String c _ => Some c
end.

Fixpoint last_char (s : string) : option ascii :=
match s with
| EmptyString => None
| String c EmptyString => Some c
| String _ s' => last_char s'
end.

Definition code (c : ascii) : nat := nat_of_ascii c.

Definition is_upper (c : ascii) : bool := (65 <=? code c)%nat && (code c <=? 90)%nat.
Definition is_lower (c : ascii) : bool := (97 <=? code c)%nat && (code c <=? 122)%nat.
Definition is_digit (c : ascii) : bool := (48 <=? code c)%nat && (code c <=? 57)%nat.


(** The ASCII white space and line terminators removed by
    [String.prototype.trim] (tab, line feed, vertical tab, form feed,
    carriage return, space).  Outside ASCII [trim] removes more (U+00A0,
    U+FEFF, the Unicode space separators, U+2028, U+2029), which this table
    does not have. *)
Definition is_whitespace (c : ascii) : bool :=
((9 <=? code c)%nat && (code c <=? 13)%nat) || (code c =? 32)%nat.

Definition lower_char (c : ascii) : ascii :=
if is_upper c then ascii_of_nat (code c + 32) else c.

(** [s.toLowerCase()] *)
Fixpoint toLowerCase (s : string) : string :=
match s with
| EmptyString => EmptyString
| String c s' => String (lower_char c) (toLowerCase s')
end.

Fixpoint trimStart (s : string) : string :=
match s with
| EmptyString => EmptyString
| String c s' => if is_whitespace c then trimStart s' else s
end.

Fixpoint trimEnd (s : string) : string :=
match s with
| EmptyString => EmptyString
| String c s' =>
    match trimEnd s' with
    | EmptyString => if is_whitespace c then EmptyString else String c EmptyString
    | r => String c r
    end
end.

(** [s.trim()] *)
Definition trim (s : string) : string := trimEnd (trimStart s).

(** [s.split(sep)] for a one-character separator: never the empty list. *)
Fixpoint split (sep : ascii) (s : string) : list string :=
match s with
| EmptyString => [EmptyString]
| String c s' =>
    if Ascii.eqb c sep then EmptyString :: split sep s'
    else match split sep s' with
         | [] => [String c EmptyString]
         | p :: ps => String c p :: ps
         end
end.

(** [l.join(sep)] *)
Definition join (sep : string) (l : list string) : string := String.concat sep l.

(** [s] without its first [n] characters. *)
Fixpoint skip (n : nat) (s : string) : string :=
match n, s with
| O, _ => s
| S _, EmptyString => EmptyString
| S n', String _ s' => skip n' s'
end.

(** [s.startsWith(p)] *)
Fixpoint starts_with (p s : string) : bool :=
match p, s with
| EmptyString, _ => true
| String _ _, EmptyString => false
| String a p', String b s' => Ascii.eqb a b && starts_with p' s'
end.

(** [s.replace(/^p/, '')] for a literal [p]. *)
Definition strip_prefix (p s : string) : string :=
if starts_with p s then skip (String.length p) s else s.

(** Truthiness of an optional string: present and not empty. *)
Definition truthy (o : option string) : bool :=
match o with
| Some (String _ _) => true
| _ => false
end.

(** [o || null] on an optional string. *)
Definition or_null (o : option string) : option string :=
if truthy o then o else None.

(** [o || d] on an optional string. *)
Definition or_default (o : option string) (d : string) : string :=
match o with
| Some (String c s) => String c s
| _ => d
end.

(** Truthiness of an optional integer: present and not zero. *)
Definition truthyZ (o : option Z) : bool :=
match o with
| Some z => negb (z =? 0)%Z
| None => false
end.

(** [Number.isSafeInteger(n)]: an integer of magnitude below [2 ^ 53]. *)
Definition isSafeInteger (z : Z) : bool := (Z.abs z <=? 9007199254740991)%Z.

(** [String(n)] for an integer: its decimal digits.  The code's number is a
    binary64, whose [String] is this text when the integer is a safe one
    (beyond [2 ^ 53] the digits can differ, and from [10 ^ 21] on the text is
    in exponent form); properties that pin the text of an identifier assume
    [isSafeInteger]. *)
Definition string_of_Z (z : Z) : string := NilZero.string_of_int (Z.to_int z).

Definition string_of_nat (n : nat) : string := NilZero.string_of_uint (Nat.to_uint n).

(** What a [catch] clause receives: an [Error] object, or some other value
    of which only [String(value)] is observed. *)
Inductive Thrown : Type :=
| ThrownError (message : string)
| ThrownOther (repr : string).

(** [error instanceof Error ? error.message : String(error)] *)
Definition message_of (t : Thrown) : string :=
match t with
| ThrownError m => m
| ThrownOther r => r
end.

End JS.

(* ================================================================== *)
(** ** utils/validators.ts *)
(* ================================================================== *)

Module Validators.
Import JS.

(** The character classes of [domainRegex], read with its [i] flag. *)
Definition is_alpha (c : ascii) : bool := is_lower c || is_upper c.
Definition is_alnum (c : ascii) : bool := is_alpha c || is_digit c.
Definition is_label_char (c : ascii) : bool := is_alnum c || Ascii.eqb c "-".

(** [[a-z0-9]([a-z0-9-]*[a-z0-9])?] against a whole dot-free string. *)
Definition is_label (l : string) : bool :=
match l with
| EmptyString => false
| String c EmptyString => is_alnum c
| String c rest =>
    is_alnum c && all_chars is_label_char rest
    && match last_char rest with Some d => is_alnum d | None => false end
end.

(** [[a-z]{2,}] against a whole string. *)
Definition is_tld (t : string) : bool :=
(2 <=? String.length t)%nat && all_chars is_alpha t.

(** [/^([a-z0-9]([a-z0-9-]*[a-z0-9])?\.)+[a-z]{2,}$/i.test(domain)]: neither a
    label nor the last part contains a dot, so the match is decided on the
    dot-separated parts: one label or more, then the last part. *)
Definition isValidDomain (domain : string) : bool :=
let parts := split "." domain in
(2 <=? List.length parts)%nat
&& forallb is_label (removelast parts)
&& is_tld (last parts EmptyString).

(** The characters a valid domain is made of. *)
Definition host_char (c : ascii) : bool := is_label_char c || Ascii.eqb c ".".

End Validators.

(* ================================================================== *)
(** ** services/domainNormalizer.ts *)
(* ================================================================== *)

Module DomainNormalizer.
Import JS Validators.

(** [input.replace(/^(https?:\/\/)/, '')] *)
Definition strip_protocol (s : string) : string :=
if starts_with "https://" s then skip 8 s
else if starts_with "http://" s then skip 7 s
else s.

(** [s.replace(/^\/+/, '')] *)
Fixpoint strip_leading_slashes (s : string) : string :=
match s with
| String "/" s' => strip_leading_slashes s'
| _ => s
end.

(** [s.split(c)[0]] *)
Definition before_first (c : ascii) (s : string) : string :=
hd EmptyString (split c s).

(** [normalizeDomain]: the normalized host name, or the [Error] thrown. *)
Definition normalizeDomain (input : string) : Thrown + string :=
let normalized := strip_protocol input in
let normalized := strip_leading_slashes normalized in
let normalized := before_first "/" normalized in
let normalized := before_first ":" normalized in
let normalized := strip_prefix "www." normalized in
let normalized := toLowerCase normalized in
let normalized := trim normalized in
if negb (isValidDomain normalized)
then inl (ThrownError ("Invalid domain format: " ++ normalized))
else inr normalized.

(** The decorations the normalizer removes around a host name:
    [n] slashes, and a suffix that starts a path or a port. *)
Fixpoint slashes (n : nat) : string :=
match n with
| O => EmptyString
| S n' => String "/" (slashes n')
end.

Definition is_path_or_port (suffix : string) : bool :=
match suffix with
| EmptyString => true
| String c _ => Ascii.eqb c "/" || Ascii.eqb c ":"
end.

End DomainNormalizer.

(* ================================================================== *)
(** ** types: the Shopify feed and the Clore schema *)
(* ================================================================== *)

(** The records carry the fields the sources read.  A field the code tests
    before use is optional, whatever the interface declares. *)

Module ShopifyImage.
Record t : Type := mk { src : string }.
End ShopifyImage.

Module ShopifySeo.
Record t : Type := mk { title : option string; description : option string }.
End ShopifySeo.

Module ShopifyVariant.
Record t : Type := mk {
  id : option Z;
  product_id : option Z;
  title : option string;
  price : option string;
  sku : option string;
  position : option float;
  inventory_policy : option string;
  compare_at_price : option string;
  option1 : option string;
  option2 : option string;
  option3 : option string;
  weight : option float;
  weight_unit : option string;
  inventory_item_id : option Z;
  inventory_quantity : option float;
  requires_shipping : option bool;
  tracked : option bool;
  available : option bool
}.
End ShopifyVariant.

Module ShopifyProduct.
Record t : Type := mk {
  id : option Z;
  title : option string;
  handle : option string;
  body_html : option string;
  vendor : option string;
  product_type : option string;
  tags : option string;
  status : option string;
  images : option (list ShopifyImage.t);
  variants : option (list ShopifyVariant.t);
  seo : option ShopifySeo.t
}.
End ShopifyProduct.

Module CloreProduct.
Record t : Type := mk {
  shopify_id : string;
  title : string;
  handle : option string;
  description : option string;
  product_type : option string;
  vendor : option string;
  images : list string;
  tags : option (list string);
  status : string;
  seo_title : option string;
  seo_description : option string;
  category : option string;   (* [{ name }] or null *)
  gender : option string
}.
End CloreProduct.

Module CloreProductVariant.
Record t : Type := mk {
  shopify_variant_id : string;
  shopify_product_id : string;
  shopify_inventory_item_id : option string;
  title : string;
  sku : option string;
  position : float;
  price : string;
  compare_at_price : option string;
  cost_price : option string;
  inventory_quantity : float;
  inventory_tracked : bool;
  inventory_policy : string;
  weight : option float;
  weight_unit : string;
  requires_shipping : bool;
  option1 : option string;
  option2 : option string;
  option3 : option string;
  available : bool;
  currency : string
}.
End CloreProductVariant.

(** [ScrapedStoreInput] *)
Module ScrapedStoreInput.
Record t : Type := mk {
  display_name : string;
  store_handle : string;
  store_url : string;
  shopify_store_url : string;
  shopify_connected : bool;
  shopify_connection_status : string;
  default_currency : string;
  supported_currencies : list string;
  logo_url : option string;
  description : option string
}.
End ScrapedStoreInput.

Module ScrapedStoreData.
Record t : Type := mk {
  store : ScrapedStoreInput.t;
  products : list CloreProduct.t;
  product_variants : list CloreProductVariant.t
}.
End ScrapedStoreData.

(* ================================================================== *)
(** ** utils/validators.ts: prices and inventory *)
(* ================================================================== *)

Module NumberParsing.
Import JS.

(** What [parseFloat] reads off a string, kept as the exact decimal
    [mantissa * 10 ^ exp10] it denotes, before rounding to a binary64. *)
Inductive Parsed : Type :=
| PNaN
| PInfinity (negative : bool)
| PDecimal (negative : bool) (mantissa : N) (exp10 : Z).

Definition digit_value (c : ascii) : N := N.of_nat (code c - 48).

(** The longest run of decimal digits at the start of [s]: the number read
    so far, how many digits, and the rest. *)
Fixpoint digits (acc : N) (count : nat) (s : string) : N * nat * string :=
match s with
| String c s' =>
    if is_digit c then digits (acc * 10 + digit_value c)%N (S count) s'
    else (acc, count, s)
| EmptyString => (acc, count, s)
end.

(** An exponent part [e], [e+] or [e-] followed by one digit or more; it is
    not part of the number otherwise. *)
Definition exponent (s : string) : Z :=
match s with
| String c s' =>
    if Ascii.eqb c "e" || Ascii.eqb c "E" then
      let '(neg, s'') :=
        match s' with
        | String "-" t => (true, t)
        | String "+" t => (false, t)
        | _ => (false, s')
        end in
      let '(e, n, _) := digits 0 0 s'' in
      match n with
      | O => 0%Z
      | _ => if neg then (- Z.of_N e)%Z else Z.of_N e
      end
    else 0%Z
| EmptyString => 0%Z
end.

(** [parseFloat(s)]: leading white space, a sign, then the longest prefix
    that is [Infinity] or a decimal literal. *)
Definition parseFloat (s : string) : Parsed :=
let s := trimStart s in
let '(neg, s) :=
  match s with
  | String "-" t => (true, t)
  | String "+" t => (false, t)
  | _ => (false, s)
  end in
if starts_with "Infinity" s then PInfinity neg
else
  let '(int_part, int_digits, rest) := digits 0 0 s in
  match rest with
  | String "." rest' =>
      let '(m, frac_digits, rest'') := digits int_part 0 rest' in
      match int_digits, frac_digits with
      | O, O => PNaN
      | _, _ => PDecimal neg m (exponent rest'' - Z.of_nat frac_digits)
      end
  | _ =>
      match int_digits with
      | O => PNaN
      | _ => PDecimal neg int_part (exponent rest)
      end
  end.

Definition isNaN (p : Parsed) : bool :=
match p with
| PNaN => true
| _ => false
end.

(** The decimal rounds to zero as a binary64: it is zero, or at most half
    the least positive binary64, [2 ^ -1075]. *)
Definition rounds_to_zero (m : N) (e : Z) : bool :=
(m =? 0)%N
|| ((e <? 0)%Z && (Z.of_N m * 2 ^ 1075 <=? 10 ^ (- e))%Z).

(** [num >= 0]; a negative zero is not below zero. *)
Definition ge_zero (p : Parsed) : bool :=
match p with
| PNaN => false
| PInfinity neg => negb neg
| PDecimal neg m e => negb neg || rounds_to_zero m e
end.

End NumberParsing.

Module PriceValidators.
Import JS NumberParsing.

(** [isValidPrice(price)] on a price that is a string or missing; on a
    string, [String(price)] is the string itself. *)
Definition isValidPrice (price : option string) : bool :=
match price with
| Some s =>
    let num := parseFloat s in
    negb (isNaN num) && ge_zero num
| None => false
end.

(** [Number.isInteger(x)]: finite, and unchanged by rounding to a multiple
    of one (adding and removing [2 ^ 52]) when below [2 ^ 52]. *)
Definition Number_isInteger (x : float) : bool :=
let a := PrimFloat.abs x in
(a <? infinity)%float
&& (if (a <? 4503599627370496)%float
    then (a + 4503599627370496 - 4503599627370496 =? a)%float
    else true).

(** [isValidInventory(quantity)] on a quantity that is a number, as
    [ShopifyVariant] declares it, or missing; the branch for a quantity given
    as a string is not part of the model. *)
Definition isValidInventory (quantity : option float) : bool :=
match quantity with
| Some q => Number_isInteger q && (0 <=? q)%float
| None => false
end.

End PriceValidators.

(* ================================================================== *)
(** ** services/dataMapper.ts *)
(* ================================================================== *)

Module DataMapper.
Import JS PriceValidators.

(** [errors.push(msg)] when [cond] holds. *)
Definition push_if (cond : bool) (msg : string) (errors : list string) : list string :=
if cond then errors ++ [msg] else errors.

(** [product.tags.split(',').map(trim).filter(nonempty)], then [null]
    for an empty result; [null] as well when the source has no tag string. *)
Definition parse_tags (tags : option string) : option (list string) :=
if truthy tags then
  match tags with
  | Some s =>
      let tagsArray :=
        filter (fun tag => (0 <? String.length tag)%nat) (map trim (split "," s)) in
      if (0 <? List.length tagsArray)%nat then Some tagsArray else None
  | None => None
  end
else None.

(** [String(x)] of an optional integer and of an optional string.  An absent
    value is [undefined]; a JSON [null], which [String] prints as "null", is
    not told apart from it, so properties that pin such a text assume the
    value present. *)
Definition String_of (x : option Z) : string :=
match x with
| Some z => string_of_Z z
| None => "undefined"
end.

Definition String_of_string (x : option string) : string :=
match x with
| Some s => s
| None => "undefined"
end.

(** The units the weight conversion tells apart. *)
Inductive WeightUnit : Type := Grams | Kilograms | Pounds | Ounces | Unrecognized.

Definition unit_of (weight_unit : option string) : WeightUnit :=
match weight_unit with
| Some u =>
    if (u =? "g") || (u =? "grams") then Grams
    else if u =? "kg" then Kilograms
    else if u =? "lb" then Pounds
    else if u =? "oz" then Ounces
    else Unrecognized
| None => Unrecognized
end.

(** The conversion table of the specification. *)
Definition kilograms (u : WeightUnit) (w : float) : float :=
match u with
| Grams => (w / 1000)%float
| Kilograms => w
| Pounds => (w * 0.453592)%float
| Ounces => (w * 0.0283495)%float
| Unrecognized => (w / 1000)%float
end.

Definition mapShopifyProductToClore (product : ShopifyProduct.t)
  : Thrown + CloreProduct.t :=
let errors := [] in
let errors := push_if (negb (truthy (ShopifyProduct.title product))) "Missing title" errors in
let errors := push_if (negb (truthyZ (ShopifyProduct.id product))) "Missing product ID" errors in
if (0 <? List.length errors)%nat then
  inl (ThrownError ("Invalid product: " ++ join ", " errors))
else
  let tags := parse_tags (ShopifyProduct.tags product) in
  let category := or_null (ShopifyProduct.product_type product) in
  inr {|
    CloreProduct.shopify_id := String_of (ShopifyProduct.id product);
    CloreProduct.title := or_default (ShopifyProduct.title product) "";
    CloreProduct.handle := or_null (ShopifyProduct.handle product);
    CloreProduct.description := or_null (ShopifyProduct.body_html product);
    CloreProduct.product_type := or_null (ShopifyProduct.product_type product);
    CloreProduct.vendor := or_null (ShopifyProduct.vendor product);
    CloreProduct.images :=
      match ShopifyProduct.images product with
      | Some imgs => map ShopifyImage.src imgs
      | None => []
      end;
    CloreProduct.tags := tags;
    CloreProduct.status := or_default (ShopifyProduct.status product) "active";
    CloreProduct.seo_title :=
      match ShopifyProduct.seo product with
      | Some seo => or_null (ShopifySeo.title seo)
      | None => None
      end;
    CloreProduct.seo_description :=
      match ShopifyProduct.seo product with
      | Some seo => or_null (ShopifySeo.description seo)
      | None => None
      end;
    CloreProduct.category := category;
    CloreProduct.gender := None
  |}.

(** Truthiness of a number: neither zero nor NaN. *)
Definition truthy_number (x : float) : bool :=
negb (x =? 0)%float && negb (PrimFloat.is_nan x).

(** The weight rule as the specification words it: null for a weight that
    is absent or zero, the table otherwise. *)
Definition claimed_weight (w : option float) (weight_unit : option string)
  : option float :=
match w with
| Some w => if (w =? 0)%float then None else Some (kilograms (unit_of weight_unit) w)
| None => None
end.


(** [weight_unit === lit] *)
Definition strict_eq (o : option string) (lit : string) : bool :=
match o with
| Some s => s =? lit
| None => false
end.

(** The weight in kilograms, from the weight and its unit. *)
Definition convert_weight (w : option float) (weight_unit : option string)
  : option float :=
match w with
| Some w =>
    if truthy_number w && (0 <? w)%float then
      if strict_eq weight_unit "g" || strict_eq weight_unit "grams"
      then Some (w / 1000)%float
      else if strict_eq weight_unit "kg" then Some w
      else if strict_eq weight_unit "lb" then Some (w * 0.453592)%float
      else if strict_eq weight_unit "oz" then Some (w * 0.0283495)%float
      else Some (w / 1000)%float
    else None
| None => None
end.

Definition mapShopifyVariantToClore (variant : ShopifyVariant.t)
    (shopifyProductId : option Z) : Thrown + CloreProductVariant.t :=
let errors := [] in
let errors := push_if (negb (truthyZ (ShopifyVariant.id variant))) "Missing variant ID" errors in
let errors := push_if (negb (truthy (ShopifyVariant.title variant))) "Missing variant title" errors in
let errors :=
  push_if (negb (isValidPrice (ShopifyVariant.price variant)))
    ("Invalid price: " ++ String_of_string (ShopifyVariant.price variant))
    errors in
if (0 <? List.length errors)%nat then
  inl (ThrownError ("Invalid variant: " ++ join ", " errors))
else
  let inventoryQuantity :=
    if isValidInventory (ShopifyVariant.inventory_quantity variant)
    then match ShopifyVariant.inventory_quantity variant with
         | Some q => q
         | None => 0%float
         end
    else 0%float in
  let price := String_of_string (ShopifyVariant.price variant) in
  let compareAtPrice := or_null (ShopifyVariant.compare_at_price variant) in
  let weight :=
    convert_weight (ShopifyVariant.weight variant) (ShopifyVariant.weight_unit variant) in
  inr {|
    CloreProductVariant.shopify_variant_id := String_of (ShopifyVariant.id variant);
    CloreProductVariant.shopify_product_id := String_of shopifyProductId;
    CloreProductVariant.shopify_inventory_item_id :=
      if truthyZ (ShopifyVariant.inventory_item_id variant)
      then Some (String_of (ShopifyVariant.inventory_item_id variant))
      else None;
    CloreProductVariant.title := or_default (ShopifyVariant.title variant) "";
    CloreProductVariant.sku := or_null (ShopifyVariant.sku variant);
    CloreProductVariant.position :=
      match ShopifyVariant.position variant with
      | Some p => if truthy_number p then p else 1%float
      | None => 1%float
      end;
    CloreProductVariant.price := price;
    CloreProductVariant.compare_at_price := compareAtPrice;
    CloreProductVariant.cost_price := None;
    CloreProductVariant.inventory_quantity := inventoryQuantity;
    CloreProductVariant.inventory_tracked :=
      match ShopifyVariant.tracked variant with Some false => false | _ => true end;
    CloreProductVariant.inventory_policy :=
      or_default (ShopifyVariant.inventory_policy variant) "deny";
    CloreProductVariant.weight := weight;
    CloreProductVariant.weight_unit := "kg";
    CloreProductVariant.requires_shipping :=
      match ShopifyVariant.requires_shipping variant with Some false => false | _ => true end;
    CloreProductVariant.option1 := or_null (ShopifyVariant.option1 variant);
    CloreProductVariant.option2 := or_null (ShopifyVariant.option2 variant);
    CloreProductVariant.option3 := or_null (ShopifyVariant.option3 variant);
    CloreProductVariant.available :=
      match ShopifyVariant.available variant with Some false => false | _ => true end;
    CloreProductVariant.currency := "USD"
  |}.

End DataMapper.

(* ================================================================== *)
(** ** Effects: requests, sleeps and diagnostics, in order *)
(* ================================================================== *)

Module Effects.

(** The network calls of the pipeline. *)
Inductive Request : Type :=
| GetProducts (domain : string) (page : nat)
| GetShop (domain : string)
| PostStorefront (domain : string)
| PostSync (token : string) (store : ScrapedStoreInput.t)
    (products : list CloreProduct.t) (variants : list CloreProductVariant.t).

Inductive Level : Type := LDebug | LWarn | LError.

Inductive Event : Type :=
| Invoke (name : string) (attempt : nat)   (* the retry helper calls [fn()] *)
| Http (request : Request)
| Sleep (ms : Z)
| Log (level : Level) (message detail : string).

(** A computation: the events it causes, and its value. *)
Definition Eff (A : Type) : Type := (list Event * A)%type.

Definition ret {A : Type} (a : A) : Eff A := ([], a).

Definition bind {A B : Type} (m : Eff A) (k : A -> Eff B) : Eff B :=
let '(t1, a) := m in
let '(t2, b) := k a in
((t1 ++ t2)%list, b).

Definition emit (e : Event) : Eff unit := ([e], tt).

Definition trace {A : Type} (m : Eff A) : list Event := fst m.
Definition value {A : Type} (m : Eff A) : A := snd m.

(** The attempts at which the helper called its operation, the sleeps and
    the requests of a trace, each in order. *)
Definition invocations (t : list Event) : list nat :=
flat_map (fun e => match e with Invoke _ k => [k] | _ => [] end) t.

Definition sleeps (t : list Event) : list Z :=
flat_map (fun e => match e with Sleep ms => [ms] | _ => [] end) t.

Definition requests (t : list Event) : list Request :=
flat_map (fun e => match e with Http r => [r] | _ => [] end) t.

End Effects.

Arguments Effects.bind {A B} m k : simpl never.
Arguments Effects.trace {A} m : simpl never.
Arguments Effects.value {A} m : simpl never.

Declare Scope eff_scope.
Delimit Scope eff_scope with eff.
Notation "x <- m ;; k" := (Effects.bind m (fun x => k))
  (at level 61, m at next level, right associativity) : eff_scope.
Notation "m ;; k" := (Effects.bind m (fun _ => k))
  (at level 61, right associativity) : eff_scope.

(* ================================================================== *)
(** ** utils/retry.ts *)
(* ================================================================== *)

Module Retry.
Import JS Effects.

(** [error instanceof Error ? error : new Error(String(error))]; an [Error]
    is observed through its message. *)
Definition as_error (error : Thrown) : Thrown := ThrownError (message_of error).

(** [Math.pow(2, attempt - 1) * 1000] *)
Definition backoff (attempt : nat) : Z := (2 ^ (Z.of_nat attempt - 1) * 1000)%Z.

Section RetryWithBackoff.
Context {T : Type}.

(** [fn]: the operation, given the number of the attempt that calls it so
    that each call may end differently. *)
Variable fn : nat -> Eff (Thrown + T).
Variable name : string.
Variable maxRetries : nat.

Definition on_failure (attempt : nat) (lastError : Thrown) : Eff unit :=
if (attempt <? maxRetries)%nat then
  let delay := backoff attempt in
  (emit (Log LWarn
           (name ++ " failed (attempt " ++ string_of_nat attempt ++ "/"
            ++ string_of_nat maxRetries ++ "), retrying in " ++ string_of_Z delay ++ "ms")
           (message_of lastError));;
   emit (Sleep delay))%eff
else
  emit (Log LError
          (name ++ " failed after " ++ string_of_nat maxRetries ++ " attempts")
          (message_of lastError)).

(** The [for] loop from [attempt], with [todo] iterations to go
    ([todo = maxRetries + 1 - attempt]); falling out of it throws
    [lastError]. *)
Fixpoint retry_loop (todo attempt : nat) (lastError : Thrown) : Eff (Thrown + T) :=
match todo with
| O => ret (inl lastError)
| S todo' =>
    (emit (Log LDebug
             ("Attempt " ++ string_of_nat attempt ++ "/" ++ string_of_nat maxRetries
              ++ " for " ++ name) "");;
     emit (Invoke name attempt);;
     r <- fn attempt;;
     match r with
     | inr result => ret (inr result)
     | inl error =>
         let lastError := as_error error in
         on_failure attempt lastError;;
         retry_loop todo' (S attempt) lastError
     end)%eff
end.

Definition retryWithBackoff : Eff (Thrown + T) :=
retry_loop maxRetries 1 (ThrownError "Unknown error").

End RetryWithBackoff.

(** An operation that neither sleeps nor goes through the helper itself. *)
Definition plain {T : Type} (fn : nat -> Eff (Thrown + T)) : Prop :=
forall k, invocations (trace (fn k)) = [] /\ sleeps (trace (fn k)) = [].

(** An operation that is one request: the answer to the request made at a
    given attempt is the world's. *)
Definition http_call {T : Type} (request : Request) (answer : nat -> Thrown + T)
  : nat -> Eff (Thrown + T) :=
fun attempt => (emit (Http request);; ret (answer attempt))%eff.

End Retry.

(* ================================================================== *)
(** ** services/shopifyScraper.ts *)
(* ================================================================== *)

Module ShopifyScraper.
Import JS Effects Retry.

(** [result.data] of a page of [/products.json]. *)
Record ShopifyProductsResponse : Type := mkResponse {
  response_products : option (list ShopifyProduct.t)
}.

Record Failure : Type := mkFailure { failure_title : string; failure_error : string }.

Record ScraperResult : Type := mkResult {
  products : list ShopifyProduct.t;
  variants : list ShopifyVariant.t;
  failedProducts : list Failure;
  totalPages : nat
}.

(** The three accumulators of the loop. *)
Record Acc : Type := mkAcc {
  allProducts : list ShopifyProduct.t;
  allVariants : list ShopifyVariant.t;
  failed : list Failure
}.

Definition valid_variant (variant : ShopifyVariant.t) : bool :=
negb (negb (truthyZ (ShopifyVariant.id variant))
      || negb (truthy (ShopifyVariant.title variant))).

(** The inner [for]: a variant without id or title is skipped. *)
Definition extract_variants (vs : list ShopifyVariant.t)
    (allVariants : list ShopifyVariant.t) : list ShopifyVariant.t :=
fold_left (fun acc variant => if valid_variant variant then (acc ++ [variant])%list else acc)
  vs allVariants.

(** One turn of the [for] over the products of a page.  A product without
    title throws before anything is pushed; the [catch] of that turn records
    the failure. *)
Definition process_product (acc : Acc) (product : ShopifyProduct.t) : Acc :=
if negb (truthy (ShopifyProduct.title product)) then
  {| allProducts := allProducts acc;
     allVariants := allVariants acc;
     failed := (failed acc
                ++ [{| failure_title := or_default (ShopifyProduct.title product) "Unknown";
                       failure_error := "Product missing title" |}])%list |}
else
  {| allProducts := (allProducts acc ++ [product])%list;
     allVariants :=
       match ShopifyProduct.variants product with
       | Some vs => extract_variants vs (allVariants acc)
       | None => allVariants acc
       end;
     failed := failed acc |}.

(** What a list of fetched products adds to the three accumulators. *)
Definition has_title (product : ShopifyProduct.t) : bool :=
truthy (ShopifyProduct.title product).

Definition accepted_variants (product : ShopifyProduct.t) : list ShopifyVariant.t :=
match ShopifyProduct.variants product with
| Some vs => filter valid_variant vs
| None => []
end.

Definition missing_title (product : ShopifyProduct.t) : Failure :=
{| failure_title := "Unknown"; failure_error := "Product missing title" |}.

Section Scrape.
Variable MAX_RETRIES : nat.
Variable RATE_LIMIT_DELAY : Z.
Variable domain : string.

(** The feed: what the request for a page answers at a given attempt. *)
Variable feed : nat -> nat -> Thrown + ShopifyProductsResponse.

(** [await retryWithBackoff(() => axios.get(baseUrl, { params: { page } }), ...)] *)
Definition fetch_page (page : nat) : Eff (Thrown + ShopifyProductsResponse) :=
retryWithBackoff (http_call (GetProducts domain page) (feed page))
  ("Page " ++ string_of_nat page ++ " of " ++ domain) MAX_RETRIES.

(** The [while (hasMore)] loop; [None] when [fuel] turns did not end it.
    It ends with the accumulators and the page it stopped at. *)
Fixpoint scrape_pages (fuel page : nat) (acc : Acc) : Eff (option (Acc * nat)) :=
match fuel with
| O => ret None
| S fuel' =>
    (r <- fetch_page page;;
     match r with
     | inl _ => ret (Some (acc, page))
     | inr result =>
         match response_products result with
         | None => ret (Some (acc, page))
         | Some [] => ret (Some (acc, page))
         | Some products =>
             let acc := fold_left process_product products acc in
             let page := S page in
             emit (Sleep RATE_LIMIT_DELAY);;
             scrape_pages fuel' page acc
         end
     end)%eff
end.

Definition scrapeShopifyProducts (fuel : nat) : Eff (option ScraperResult) :=
(r <- scrape_pages fuel 1 {| allProducts := []; allVariants := []; failed := [] |};;
 ret (option_map
        (fun '(acc, page) =>
           {| products := allProducts acc;
              variants := allVariants acc;
              failedProducts := failed acc;
              totalPages := page - 1 |})
        r))%eff.

(** The products of a page that continues the pagination: the page was
    fetched and holds one product or more. *)
Definition page_products (page : nat) : option (list ShopifyProduct.t) :=
match value (fetch_page page) with
| inr result =>
    match response_products result with
    | Some (p :: ps) => Some (p :: ps)
    | _ => None
    end
| inl _ => None
end.

Definition page_list (page : nat) : list ShopifyProduct.t :=
match page_products page with
| Some ps => ps
| None => []
end.

End Scrape.

End ShopifyScraper.

(* ================================================================== *)
(** ** services/shopifyDetector.ts: shop information *)
(* ================================================================== *)

Module ShopifyDetector.
Import JS Effects Retry.

(** [response.data] of [/shop.json]; [None] stands for a body that is null,
    on which reading [.shop] throws. *)
Record Shop : Type := mkShop {
  shop_currency : option string;
  shop_name : option string;
  shop_owner : option string
}.

Record ShopBody : Type := mkShopBody { shop : option Shop }.

Definition ShopResponse : Type := option ShopBody.

(** [response.data] of the storefront query, as far as it is read. *)
Record BrandImage : Type := mkImage { url : option string }.
Record BrandLogo : Type := mkLogo { image : option BrandImage }.
Record Brand : Type := mkBrand { logo : option BrandLogo; shortDescription : option string }.
Record StorefrontShop : Type := mkStorefrontShop {
  storefront_description : option string;
  brand : option Brand
}.

(** [None] for a null body, which throws; [data_shop] is
    [response.data.data?.shop]. *)
Record StorefrontBody : Type := mkStorefrontBody { data_shop : option StorefrontShop }.

Definition StorefrontResponse : Type := option StorefrontBody.

(** The result of [getShopBranding]; [{}] is [no_branding].  A field that
    is missing and a field that is null are both [None]: the caller only
    reads [field || null]. *)
Record Branding : Type := mkBranding {
  branding_logo_url : option string;
  branding_description : option string
}.

Definition no_branding : Branding :=
{| branding_logo_url := None; branding_description := None |}.

Record ShopInfo : Type := mkShopInfo {
  currency : string;
  name : option string;
  info_shop_owner : option string;
  logo_url : option string;
  description : option string
}.

(** [{ currency: 'USD' }] *)
Definition default_info : ShopInfo :=
{| currency := "USD"; name := None; info_shop_owner := None;
   logo_url := None; description := None |}.

(** [a || b] on optional strings. *)
Definition or_else (a b : option string) : option string :=
if truthy a then a else b.

(** What the branding block builds from the shop of the storefront answer. *)
Definition branding_of (data : StorefrontShop) : Branding :=
let logoUrl :=
  or_null
    match brand data with
    | Some b =>
        match logo b with
        | Some l => match image l with Some i => url i | None => None end
        | None => None
        end
    | None => None
    end in
let description :=
  or_null
    (or_else (match brand data with Some b => shortDescription b | None => None end)
             (storefront_description data)) in
{| branding_logo_url := logoUrl; branding_description := description |}.

Section ShopInfo.
Variable MAX_RETRIES : nat.
Variable domain : string.

(** The two endpoints: what each answers at a given attempt. *)
Variable shop_json : nat -> Thrown + ShopResponse.
Variable storefront : nat -> Thrown + StorefrontResponse.

Definition getShopBranding : Eff Branding :=
(r <- retryWithBackoff (http_call (PostStorefront domain) storefront)
       ("Storefront GraphQL fetch for " ++ domain) MAX_RETRIES;;
 match r with
 | inl _ => ret no_branding                       (* catch *)
 | inr None => ret no_branding                    (* reading the body throws *)
 | inr (Some body) =>
     match data_shop body with
     | None => ret no_branding
     | Some data => ret (branding_of data)
     end
 end)%eff.

Definition getShopInfo : Eff ShopInfo :=
(r <- retryWithBackoff (http_call (GetShop domain) shop_json)
       ("Shop info fetch for " ++ domain) MAX_RETRIES;;
 match r with
 | inl _ => ret default_info                      (* catch *)
 | inr None => ret default_info                   (* reading the body throws *)
 | inr (Some body) =>
     match shop body with
     | None => ret default_info
     | Some shop =>
         let currency := or_default (shop_currency shop) "USD" in
         branding <- getShopBranding;;
         ret {| currency := currency;
                name := shop_name shop;
                info_shop_owner := shop_owner shop;
                logo_url := or_null (branding_logo_url branding);
                description := or_null (branding_description branding) |}
     end
 end)%eff.

(** The shop of [/shop.json], when the fetch succeeds and the answer has
    one. *)
Definition fetched_shop : option Shop :=
match value (retryWithBackoff (http_call (GetShop domain) shop_json)
               ("Shop info fetch for " ++ domain) MAX_RETRIES) with
| inr (Some body) => shop body
| _ => None
end.

End ShopInfo.

End ShopifyDetector.

(* ================================================================== *)
(** ** services/graphqlClient.ts: the batched sync *)
(* ================================================================== *)

Module GraphqlClient.
Import JS Effects Retry.

Record SyncMutationResult : Type := mkMutation {
  success : bool;
  message : string;
  storeId : option string;
  productsCreated : Z;
  variantsCreated : Z;
  errors : option (list string)
}.

(** [result.data]: [response_errors] holds the messages of the GraphQL
    errors; [response_data] is [data?.syncScrapedStoreAndProducts]. *)
Record SyncResponse : Type := mkSyncResponse {
  response_data : option SyncMutationResult;
  response_errors : option (list string)
}.

(** What [syncScrapedStoreAndProducts] resolves to. *)
Record SyncOutcome : Type := mkOutcome {
  outcome_success : bool;
  outcome_message : string;
  outcome_result : option SyncMutationResult
}.

(** The variables of the loop. *)
Record SyncState : Type := mkState {
  totalProductsCreated : Z;
  totalVariantsCreated : Z;
  allErrors : list string;
  state_storeId : option string
}.

Definition BATCH_SIZE : nat := 20.

(** [l.slice(from, to)] for [from <= to]. *)
Definition slice {A : Type} (from to : nat) (l : list A) : list A :=
firstn (to - from) (skipn from l).

Definition push_error (st : SyncState) (e : string) : SyncState :=
{| totalProductsCreated := totalProductsCreated st;
   totalVariantsCreated := totalVariantsCreated st;
   allErrors := (allErrors st ++ [e])%list;
   state_storeId := state_storeId st |}.

(** The body of the loop after the request of batch [batchNum] returned. *)
Definition handle_response (batchNum : nat) (st : SyncState) (resp : SyncResponse)
  : SyncState :=
match response_errors resp with
| Some errs =>
    let errorMessages := join ", " errs in
    push_error st ("Batch " ++ string_of_nat batchNum ++ ": " ++ errorMessages)
| None =>
    match response_data resp with
    | None => push_error st ("Batch " ++ string_of_nat batchNum ++ ": No mutation result")
    | Some mutation =>
        if negb (success mutation) then
          push_error st ("Batch " ++ string_of_nat batchNum ++ ": " ++ message mutation)
        else
          {| totalProductsCreated := (totalProductsCreated st + productsCreated mutation)%Z;
             totalVariantsCreated := (totalVariantsCreated st + variantsCreated mutation)%Z;
             allErrors :=
               match errors mutation with
               | Some (e :: es) => (allErrors st ++ e :: es)%list
               | _ => allErrors st
               end;
             state_storeId :=
               if truthy (storeId mutation) && negb (truthy (state_storeId st))
               then storeId mutation
               else state_storeId st |}
    end
end.

Section Sync.
Variable MAX_RETRIES : nat.
Variable token : string.
Variable data : ScrapedStoreData.t.

(** The API: what the request of a batch answers at a given attempt. *)
Variable api : nat -> nat -> Thrown + SyncResponse.

Definition totalProducts : nat := List.length (ScrapedStoreData.products data).

(** [data.products.slice(i, Math.min(i + BATCH_SIZE, totalProducts))] *)
Definition productBatch (i : nat) : list CloreProduct.t :=
slice i (Nat.min (i + BATCH_SIZE) totalProducts) (ScrapedStoreData.products data).

(** [data.product_variants.filter(v => productBatch.some(p => ...))] *)
Definition variantBatch (batch : list CloreProduct.t) : list CloreProductVariant.t :=
filter
  (fun v =>
     existsb (fun p => CloreProduct.shopify_id p
                       =? CloreProductVariant.shopify_product_id v)
       batch)
  (ScrapedStoreData.product_variants data).

Definition batch_request (i : nat) : Request :=
PostSync token (ScrapedStoreData.store data) (productBatch i) (variantBatch (productBatch i)).

(** [Math.floor(i / BATCH_SIZE) + 1] *)
Definition batchNum (i : nat) : nat := (i / BATCH_SIZE + 1)%nat.

(** [await retryWithBackoff(() => axios.post(...), `GraphQL sync batch N`)] *)
Definition send_batch (i : nat) : Eff (Thrown + SyncResponse) :=
retryWithBackoff (http_call (batch_request i) (api (batchNum i)))
  ("GraphQL sync batch " ++ string_of_nat (batchNum i)) MAX_RETRIES.

(** The [for] loop from index [i]; a request that fails all its attempts
    throws out of the loop.  [fuel] bounds the turns; [totalProducts] is
    enough since every turn advances [i]. *)
Fixpoint sync_batches (fuel i : nat) (st : SyncState) : Eff (Thrown + SyncState) :=
match fuel with
| O => ret (inr st)
| S fuel' =>
    if (i <? totalProducts)%nat then
      (r <- send_batch i;;
       match r with
       | inl error => ret (inl error)
       | inr result =>
           sync_batches fuel' (i + BATCH_SIZE)%nat (handle_response (batchNum i) st result)
       end)%eff
    else ret (inr st)
end.

(** A reading of the loop without fuel, shown below to agree with it: a
    fold over the start indices, stopped by the first request that fails all
    its attempts. *)
Fixpoint run_batches (starts : list nat) (st : SyncState) : Thrown + SyncState :=
match starts with
| [] => inr st
| i :: rest =>
    match value (send_batch i) with
    | inl error => inl error
    | inr resp => run_batches rest (handle_response (batchNum i) st resp)
    end
end.

Definition initial_state : SyncState :=
{| totalProductsCreated := 0; totalVariantsCreated := 0;
   allErrors := []; state_storeId := None |}.

Definition summary (st : SyncState) : SyncOutcome :=
let overallSuccess := (List.length (allErrors st) =? 0)%nat in
{| outcome_success := overallSuccess;
   outcome_message :=
     if overallSuccess then "All batches synced successfully"
     else "Sync completed with " ++ string_of_nat (List.length (allErrors st)) ++ " errors";
   outcome_result :=
     Some {| success := overallSuccess;
             message := if overallSuccess then "Sync successful"
                        else "Sync completed with errors";
             storeId := state_storeId st;
             productsCreated := totalProductsCreated st;
             variantsCreated := totalVariantsCreated st;
             errors := Some (allErrors st) |} |}.

Definition syncScrapedStoreAndProducts : Eff SyncOutcome :=
(r <- sync_batches totalProducts 0 initial_state;;
 match r with
 | inr st => ret (summary st)
 | inl error =>                                    (* catch *)
     ret {| outcome_success := false;
            outcome_message := "Sync error: " ++ message_of error;
            outcome_result := None |}
 end)%eff.

(** [Math.ceil(totalProducts / BATCH_SIZE)] *)
Definition totalBatches : nat := ((totalProducts + (BATCH_SIZE - 1)) / BATCH_SIZE)%nat.

(** The start indices of the batches. *)
Definition batch_starts : list nat := map (fun k => (k * BATCH_SIZE)%nat) (seq 0 totalBatches).

(** The error strings the answer to batch [n] puts on the aggregate list:
    a GraphQL error, a missing mutation result, an unsuccessful mutation, or
    the error strings a successful mutation reports. *)
Definition batch_errors (n : nat) (resp : SyncResponse) : list string :=
match response_errors resp with
| Some errs => ["Batch " ++ string_of_nat n ++ ": " ++ join ", " errs]
| None =>
    match response_data resp with
    | None => ["Batch " ++ string_of_nat n ++ ": No mutation result"]
    | Some mutation =>
        if success mutation
        then match errors mutation with Some es => es | None => [] end
        else ["Batch " ++ string_of_nat n ++ ": " ++ message mutation]
    end
end.


(** Every batch gets an answer within its attempts. *)
Definition all_answered : Prop :=
forall i, In i batch_starts -> exists resp, value (send_batch i) = inr resp.

End Sync.

End GraphqlClient.

(* ================================================================== *)
(** ** services/domainNormalizer.ts: store name and handle *)
(* ================================================================== *)

Module StoreNames.
Import JS DomainNormalizer.

Definition upper_char (c : ascii) : ascii :=
if is_lower c then ascii_of_nat (code c - 32) else c.

(** [word.charAt(0).toUpperCase() + word.slice(1).toLowerCase()] *)
Definition capitalize (word : string) : string :=
match word with
| EmptyString => EmptyString
| String c rest => String (upper_char c) (toLowerCase rest)
end.

(** [formatStoreName]: the part before the first dot, its hyphen-separated
    words capitalized and joined by spaces. *)
Definition formatStoreName (domain : string) : string :=
let storeName := before_first "." domain in
join " " (map capitalize (split "-" storeName)).

(** [createStoreHandle] *)
Definition createStoreHandle (domain : string) : string :=
toLowerCase (before_first "." domain).

(** [s] with every space turned into a hyphen. *)
Fixpoint hyphenate (s : string) : string :=
match s with
| EmptyString => EmptyString
| String c s' => String (if Ascii.eqb c " " then "-"%char else c) (hyphenate s')
end.

End StoreNames.

(* ================================================================== *)
(** ** services/dataMapper.ts: mapping whole lists *)
(* ================================================================== *)

Module DataMapperAll.
Import JS DataMapper.

Record MapFailure : Type := mkMapFailure { failure_title : string; failure_error : string }.

(** [mapAllProducts]: the two lists the loop pushes to. *)
Definition mapAllProducts (shopifyProducts : list ShopifyProduct.t)
  : list CloreProduct.t * list MapFailure :=
fold_left
  (fun '(products, failed) product =>
     match mapShopifyProductToClore product with
     | inr cloreProduct => ((products ++ [cloreProduct])%list, failed)
     | inl error =>
         (products,
          (failed ++ [{| failure_title := or_default (ShopifyProduct.title product) "Unknown";
                         failure_error := message_of error |}])%list)
     end)
  shopifyProducts ([], []).

(** [mapAllVariants]: each variant is mapped under its own [product_id]. *)
Definition mapAllVariants (shopifyVariants : list ShopifyVariant.t)
  : list CloreProductVariant.t * list MapFailure :=
fold_left
  (fun '(variants, failed) variant =>
     match mapShopifyVariantToClore variant (ShopifyVariant.product_id variant) with
     | inr cloreVariant => ((variants ++ [cloreVariant])%list, failed)
     | inl error =>
         (variants,
          (failed ++ [{| failure_title :=
                           or_default (ShopifyVariant.title variant)
                             (String_of (ShopifyVariant.id variant));
                         failure_error := message_of error |}])%list)
     end)
  shopifyVariants ([], []).

(** The reasons for which the product mapper rejects, in the order it
    checks them. *)
Definition product_reasons (p : ShopifyProduct.t) : list string :=
((if truthy (ShopifyProduct.title p) then [] else ["Missing title"])
 ++ (if truthyZ (ShopifyProduct.id p) then [] else ["Missing product ID"]))%list.

Definition variant_reasons (v : ShopifyVariant.t) : list string :=
((if truthyZ (ShopifyVariant.id v) then [] else ["Missing variant ID"])
 ++ (if truthy (ShopifyVariant.title v) then [] else ["Missing variant title"])
 ++ (if PriceValidators.isValidPrice (ShopifyVariant.price v) then []
     else [String.append "Invalid price: " (String_of_string (ShopifyVariant.price v))]))%list.

(** A record is rejected when there is a reason; the failure entry the
    list mappers then push. *)
Definition product_rejected (p : ShopifyProduct.t) : bool :=
match product_reasons p with [] => false | _ => true end.

Definition variant_rejected (v : ShopifyVariant.t) : bool :=
match variant_reasons v with [] => false | _ => true end.

(** The variants whose failure entry prints no absent value and no
    identifier beyond the safe integers: the price is given, and the entry
    is titled by the variant's title or by a safe id. *)
Definition prints_exactly (v : ShopifyVariant.t) : bool :=
match ShopifyVariant.price v with Some _ => true | None => false end
&& (truthy (ShopifyVariant.title v)
    || match ShopifyVariant.id v with Some z => isSafeInteger z | None => false end).

Definition product_failure (p : ShopifyProduct.t) : MapFailure :=
{| failure_title := or_default (ShopifyProduct.title p) "Unknown";
   failure_error := String.append "Invalid product: " (join ", " (product_reasons p)) |}.

Definition variant_failure (v : ShopifyVariant.t) : MapFailure :=
{| failure_title := or_default (ShopifyVariant.title v) (String_of (ShopifyVariant.id v));
   failure_error := String.append "Invalid variant: " (join ", " (variant_reasons v)) |}.

End DataMapperAll.

(* ================================================================== *)
(** ** utils/retry.ts: the time spent sleeping *)
(* ================================================================== *)

Module Timing.
Import Effects.

(** The milliseconds a run sleeps in all. *)
Definition total_sleep (t : list Event) : Z := fold_right Z.add 0%Z (sleeps t).

End Timing.

(* ================================================================== *)
(** ** services/graphqlClient.ts: what the batches add up to *)
(* ================================================================== *)

Module SyncAggregates.
Import JS Effects Retry GraphqlClient.

(** The mutation result of an answer that reaches the accumulating part of
    the loop body: no GraphQL error, a result, and [success]. *)
Definition accepted (resp : SyncResponse) : option SyncMutationResult :=
match response_errors resp with
| Some _ => None
| None =>
    match response_data resp with
    | Some mutation => if success mutation then Some mutation else None
    | None => None
    end
end.

(** The first non-empty store id of a list of results, or [default]. *)
Definition first_store_id (default : option string) (ms : list SyncMutationResult)
  : option string :=
match filter (fun m => truthy (storeId m)) ms with
| m :: _ => storeId m
| [] => default
end.

Definition sum (l : list Z) : Z := fold_right Z.add 0%Z l.

Section Accepted.
Variable MAX_RETRIES : nat.
Variable token : string.
Variable data : ScrapedStoreData.t.
Variable api : nat -> nat -> Thrown + SyncResponse.

(** The accepted results of the batches at the given start indices. *)
Definition accepted_at (starts : list nat) : list SyncMutationResult :=
flat_map
  (fun i => match value (send_batch MAX_RETRIES token data api i) with
            | inr resp => match accepted resp with Some m => [m] | None => [] end
            | inl _ => []
            end)
  starts.

Definition accepted_results : list SyncMutationResult := accepted_at (batch_starts data).

End Accepted.

End SyncAggregates.

(* ================================================================== *)
(** ** services/graphqlClient.ts: deleting a store *)
(* ================================================================== *)

Module DeleteStore.
Import JS Effects Retry.

(** [result.data]: [delete_data] is [data?.deleteStore], [None] when it is
    undefined or null; [delete_errors] holds the messages of the GraphQL
    errors. *)
Record DeleteStoreResponse : Type := mkDeleteResponse {
  delete_data : option bool;
  delete_errors : option (list string)
}.

Record DeleteOutcome : Type := mkDeleteOutcome {
  delete_success : bool;
  delete_message : string
}.

Section Delete.
Variable MAX_RETRIES : nat.
Variable storeId : string.

(** The API: what the delete request answers at a given attempt. *)
Variable api : nat -> Thrown + DeleteStoreResponse.

(** The retried request.  The token goes into a header of the request and
    nowhere else; the request itself is not put on the trace, the helper's
    [Invoke] events count the calls. *)
Definition send_delete : Eff (Thrown + DeleteStoreResponse) :=
retryWithBackoff (fun attempt => ret (api attempt)) "GraphQL delete request" MAX_RETRIES.

Definition deleteStoreById : Eff DeleteOutcome :=
(r <- send_delete;;
 match r with
 | inl error =>                                     (* catch *)
     ret {| delete_success := false;
            delete_message := "Delete error: " ++ message_of error |}
 | inr result =>
     match delete_errors result with
     | Some errs =>
         ret {| delete_success := false;
                delete_message := "GraphQL error: " ++ join ", " errs |}
     | None =>
         match delete_data result with
         | None =>
             ret {| delete_success := false;
                    delete_message := "No delete result in response" |}
         | Some false =>
             ret {| delete_success := false;
                    delete_message := "Delete mutation failed" |}
         | Some true =>
             ret {| delete_success := true;
                    delete_message := "Store " ++ storeId ++ " deleted successfully" |}
         end
     end
 end)%eff.

End Delete.

End DeleteStore.

(* ================================================================== *)
(** ** services/shopifyDetector.ts: detection *)
(* ================================================================== *)

Module Detection.
Import JS Effects Retry ShopifyScraper.

Record DetectionResult : Type := mkDetection {
  isShopify : bool;
  detection_error : option string
}.

Section Detect.
Variable MAX_RETRIES : nat.

(** [error.response?.status] and [error.name] of a caught error.  The model
    of a thrown value keeps its message only, so the status and the name an
    error carries are given as functions of it. *)
Variable response_status : Thrown -> option Z.
Variable error_name : Thrown -> string.

Variable domain : string.

(** The feed root: what the request answers at a given attempt. *)
Variable root : nat -> Thrown + ShopifyProductsResponse.

(** The retried operation: the request, then the check that the answer has
    a products array (an empty array passes). *)
Definition probe (attempt : nat) : Eff (Thrown + ShopifyProductsResponse) :=
ret match root attempt with
    | inl error => inl error
    | inr response =>
        match response_products response with
        | None => inl (ThrownError "Response missing products array")
        | Some _ => inr response
        end
    end.

(** An attempt whose answer passes the check of the retried operation. *)
Definition has_products_array (attempt : nat) : bool :=
match root attempt with
| inr response =>
    match response_products response with Some _ => true | None => false end
| inl _ => false
end.

(** [axiosError?.message || String(error)] of an [Error]: with an empty
    message, [String(error)] is the name of the error. *)
Definition caught_message (error : Thrown) : string :=
match message_of error with
| EmptyString => error_name error
| m => m
end.

Definition detectShopifyStore : Eff DetectionResult :=
(r <- retryWithBackoff probe ("Detection of " ++ domain) MAX_RETRIES;;
 match r with
 | inr _ => ret {| isShopify := true; detection_error := None |}
 | inl error =>
     let statusCode := response_status error in
     let message := caught_message error in
     match statusCode with
     | Some 404%Z =>
         ret {| isShopify := false;
                detection_error :=
                  Some ("No products.json endpoint found at " ++ domain) |}
     | _ =>
         ret {| isShopify := false;
                detection_error := Some ("Detection failed: " ++ message) |}
     end
 end)%eff.

End Detect.

End Detection.

(* ================================================================== *)
(** ** index.ts: the scrape pipeline *)
(* ================================================================== *)

Module Pipeline.
Import JS Effects Retry DomainNormalizer StoreNames ShopifyScraper DataMapperAll
  ShopifyDetector Detection.

Record ScrapeOutcome : Type := mkScrapeOutcome {
  scrape_success : bool;
  scrape_data : option ScrapedStoreData.t;
  scrape_error : option string
}.

Section ScrapeStore.
Variable MAX_RETRIES : nat.
Variable RATE_LIMIT_DELAY : Z.
Variable response_status : Thrown -> option Z.
Variable error_name : Thrown -> string.

(** The four endpoints of a store, each by host name. *)
Variable root : string -> nat -> Thrown + ShopifyProductsResponse.
Variable feed : string -> nat -> nat -> Thrown + ShopifyProductsResponse.
Variable shop_json : string -> nat -> Thrown + ShopResponse.
Variable storefront : string -> nat -> Thrown + StorefrontResponse.

(** [scrapeShopifyStore(domain, logoUrl, description)]; [None] when the
    pagination did not end within [fuel] pages. *)
Definition scrapeShopifyStore (fuel : nat) (domain : string)
    (logoUrl description : option string) : Eff (option ScrapeOutcome) :=
match normalizeDomain domain with
| inl error =>                                      (* catch *)
    ret (Some {| scrape_success := false; scrape_data := None;
                 scrape_error := Some (message_of error) |})
| inr normalizedDomain =>
    (detection <- detectShopifyStore MAX_RETRIES response_status error_name normalizedDomain
                    (root normalizedDomain);;
     if negb (isShopify detection) then
       ret (Some {| scrape_success := false; scrape_data := None;
                    scrape_error :=
                      Some (or_default (detection_error detection) "Not a Shopify store") |})
     else
       scraped <- scrapeShopifyProducts MAX_RETRIES RATE_LIMIT_DELAY normalizedDomain
                    (feed normalizedDomain) fuel;;
       match scraped with
       | None => ret None
       | Some scraperResult =>
           let '(mappedProducts, failedProducts) :=
             mapAllProducts (ShopifyScraper.products scraperResult) in
           let '(mappedVariants, failedVariants) :=
             mapAllVariants (ShopifyScraper.variants scraperResult) in
           shopInfo <- getShopInfo MAX_RETRIES normalizedDomain
                         (shop_json normalizedDomain) (storefront normalizedDomain);;
           let storeUrl := "https://" ++ normalizedDomain in
           let storeData :=
             {| ScrapedStoreInput.display_name := formatStoreName normalizedDomain;
                ScrapedStoreInput.store_handle := createStoreHandle normalizedDomain;
                ScrapedStoreInput.store_url := storeUrl;
                ScrapedStoreInput.shopify_store_url := storeUrl;
                ScrapedStoreInput.shopify_connected := true;
                ScrapedStoreInput.shopify_connection_status := "scraped";
                ScrapedStoreInput.default_currency := currency shopInfo;
                ScrapedStoreInput.supported_currencies := [currency shopInfo];
                ScrapedStoreInput.logo_url := or_null (or_else logoUrl (logo_url shopInfo));
                ScrapedStoreInput.description :=
                  or_null (or_else description (ShopifyDetector.description shopInfo)) |} in
           ret (Some {| scrape_success := true;
                        scrape_data :=
                          Some {| ScrapedStoreData.store := storeData;
                                  ScrapedStoreData.products := mappedProducts;
                                  ScrapedStoreData.product_variants := mappedVariants |};
                        scrape_error := None |})
       end)%eff
end.

End ScrapeStore.

End Pipeline.

(* ================================================================== *)
(** ** services/graphqlClient.ts, the revision that syncs in one request *)
(* ================================================================== *)

Module GraphqlClientSingle.
Import JS Effects Retry GraphqlClient.

Section Sync.
Variable MAX_RETRIES : nat.
Variable token : string.
Variable data : ScrapedStoreData.t.

(** The API: what the request answers at a given attempt. *)
Variable api : nat -> Thrown + SyncResponse.

Definition sync_request : Request :=
PostSync token (ScrapedStoreData.store data) (ScrapedStoreData.products data)
  (ScrapedStoreData.product_variants data).

Definition syncScrapedStoreAndProducts : Eff SyncOutcome :=
(r <- retryWithBackoff (http_call sync_request api) "GraphQL sync request" MAX_RETRIES;;
 match r with
 | inl error =>                                    (* catch *)
     ret {| outcome_success := false;
            outcome_message := "Sync error: " ++ message_of error;
            outcome_result := None |}
 | inr result =>
     match response_errors result with
     | Some errs =>
         let errorMessages := join ", " errs in
         ret {| outcome_success := false;
                outcome_message := "GraphQL error: " ++ errorMessages;
                outcome_result := None |}
     | None =>
         match response_data result with
         | None =>
             ret {| outcome_success := false;
                    outcome_message := "No mutation result in response";
                    outcome_result := None |}
         | Some mutation =>
             if negb (success mutation) then
               ret {| outcome_success := false;
                      outcome_message := message mutation;
                      outcome_result := Some mutation |}
             else
               ret {| outcome_success := true;
                      outcome_message := message mutation;
                      outcome_result := Some mutation |}
         end
     end
 end)%eff.

End Sync.

End GraphqlClientSingle.

(* ================================================================== *)
(** ** The admin token check *)
(* ================================================================== *)

Module AdminToken.
Import JS.

(** [validateAdminToken(token)], with [process.env.ADMIN_TOKEN] as
    [validToken]. *)
Definition validateAdminToken (validToken token : option string) : bool :=
if negb (truthy validToken) then false
else if negb (truthy token) then false
else match validToken, token with
     | Some v, Some t => if negb (t =? v) then false else true
     | _, _ => false
     end.

(** [requireAdminToken(token)]: returns, or throws. *)
Definition requireAdminToken (validToken token : option string) : Thrown + unit :=
if negb (validateAdminToken validToken token)
then inl (ThrownError "Unauthorized: Invalid or missing admin token")
else inr tt.

End AdminToken.

(* ================================================================== *)
(** ** Sample inputs *)
(* ================================================================== *)

(** Sample feed records. *)
Definition sample_variant (w : option float) (u : option string) : ShopifyVariant.t :=
{| ShopifyVariant.id := Some 4001%Z;
   ShopifyVariant.product_id := Some 7%Z;
   ShopifyVariant.title := Some "Red / Small";
   ShopifyVariant.price := Some "29.99";
   ShopifyVariant.sku := None;
   ShopifyVariant.position := Some 1%float;
   ShopifyVariant.inventory_policy := None;
   ShopifyVariant.compare_at_price := Some "49.99";
   ShopifyVariant.option1 := Some "Red";
   ShopifyVariant.option2 := Some "Small";
   ShopifyVariant.option3 := None;
   ShopifyVariant.weight := w;
   ShopifyVariant.weight_unit := u;
   ShopifyVariant.inventory_item_id := None;
   ShopifyVariant.inventory_quantity := None;
   ShopifyVariant.requires_shipping := None;
   ShopifyVariant.tracked := Some false;
   ShopifyVariant.available := Some true |}.

Definition sample_product (title tags : option string)
    (variants : option (list ShopifyVariant.t)) : ShopifyProduct.t :=
{| ShopifyProduct.id := Some 7%Z;
   ShopifyProduct.title := title;
   ShopifyProduct.handle := Some "tee";
   ShopifyProduct.body_html := None;
   ShopifyProduct.vendor := Some "Acme";
   ShopifyProduct.product_type := Some "Shirts";
   ShopifyProduct.tags := tags;
   ShopifyProduct.status := None;
   ShopifyProduct.images := None;
   ShopifyProduct.variants := variants;
   ShopifyProduct.seo := None |}.

(** An operation that times out twice and then answers. *)
Definition flaky_call : nat -> Effects.Eff (JS.Thrown + nat) :=
Retry.http_call (Effects.GetShop "shop.com")
  (fun attempt => if (attempt <? 3)%nat then inl (JS.ThrownOther "timeout") else inr 42%nat).

(** A feed of one page of two products, the second without title; the first
    request times out, and page 2 is empty. *)
Definition variant_titled (title : option string) : ShopifyVariant.t :=
{| ShopifyVariant.id := Some 4002%Z;
   ShopifyVariant.product_id := Some 7%Z;
   ShopifyVariant.title := title;
   ShopifyVariant.price := Some "9.50";
   ShopifyVariant.sku := None;
   ShopifyVariant.position := None;
   ShopifyVariant.inventory_policy := None;
   ShopifyVariant.compare_at_price := None;
   ShopifyVariant.option1 := None;
   ShopifyVariant.option2 := None;
   ShopifyVariant.option3 := None;
   ShopifyVariant.weight := None;
   ShopifyVariant.weight_unit := None;
   ShopifyVariant.inventory_item_id := None;
   ShopifyVariant.inventory_quantity := None;
   ShopifyVariant.requires_shipping := None;
   ShopifyVariant.tracked := None;
   ShopifyVariant.available := None |}.

Definition titled_product : ShopifyProduct.t :=
sample_product (Some "Tee") (Some "red")
  (Some [variant_titled (Some "Blue"); variant_titled None]).

Definition untitled_product : ShopifyProduct.t :=
sample_product None None (Some [variant_titled (Some "Green")]).

Definition sample_feed (page attempt : nat)
  : JS.Thrown + ShopifyScraper.ShopifyProductsResponse :=
match page, attempt with
| 1%nat, 1%nat => inl (JS.ThrownOther "timeout")
| 1%nat, _ => inr (ShopifyScraper.mkResponse (Some [titled_product; untitled_product]))
| _, _ => inr (ShopifyScraper.mkResponse (Some []))
end.

(** Sample endpoints. *)
Definition failing_shop_json (attempt : nat) : JS.Thrown + ShopifyDetector.ShopResponse :=
inl (JS.ThrownError "Request failed with status code 404").

Definition euro_shop_json (attempt : nat) : JS.Thrown + ShopifyDetector.ShopResponse :=
inr (Some (ShopifyDetector.mkShopBody
             (Some (ShopifyDetector.mkShop (Some "EUR") (Some "Shop") None)))).

Definition branded_storefront (attempt : nat)
  : JS.Thrown + ShopifyDetector.StorefrontResponse :=
inr (Some (ShopifyDetector.mkStorefrontBody
             (Some (ShopifyDetector.mkStorefrontShop (Some "All things tee")
                      (Some (ShopifyDetector.mkBrand
                               (Some (ShopifyDetector.mkLogo
                                        (Some (ShopifyDetector.mkImage
                                                 (Some "https://cdn.shop.com/logo.png")))))
                               None)))))).

Definition failing_storefront (attempt : nat)
  : JS.Thrown + ShopifyDetector.StorefrontResponse :=
inl (JS.ThrownOther "timeout").

(** Sample scrape outputs and APIs. *)
Definition sample_store : ScrapedStoreInput.t :=
{| ScrapedStoreInput.display_name := "Shop";
   ScrapedStoreInput.store_handle := "shop";
   ScrapedStoreInput.store_url := "https://shop.com";
   ScrapedStoreInput.shopify_store_url := "https://shop.com";
   ScrapedStoreInput.shopify_connected := true;
   ScrapedStoreInput.shopify_connection_status := "scraped";
   ScrapedStoreInput.default_currency := "USD";
   ScrapedStoreInput.supported_currencies := ["USD"];
   ScrapedStoreInput.logo_url := None;
   ScrapedStoreInput.description := None |}.

Definition clore_product (n : nat) : CloreProduct.t :=
{| CloreProduct.shopify_id := JS.string_of_nat n;
   CloreProduct.title := "Product";
   CloreProduct.handle := None;
   CloreProduct.description := None;
   CloreProduct.product_type := None;
   CloreProduct.vendor := None;
   CloreProduct.images := [];
   CloreProduct.tags := None;
   CloreProduct.status := "active";
   CloreProduct.seo_title := None;
   CloreProduct.seo_description := None;
   CloreProduct.category := None;
   CloreProduct.gender := None |}.

Definition clore_variant (parent : nat) : CloreProductVariant.t :=
{| CloreProductVariant.shopify_variant_id := "v" ++ JS.string_of_nat parent;
   CloreProductVariant.shopify_product_id := JS.string_of_nat parent;
   CloreProductVariant.shopify_inventory_item_id := None;
   CloreProductVariant.title := "Default";
   CloreProductVariant.sku := None;
   CloreProductVariant.position := 1%float;
   CloreProductVariant.price := "1.00";
   CloreProductVariant.compare_at_price := None;
   CloreProductVariant.cost_price := None;
   CloreProductVariant.inventory_quantity := 0%float;
   CloreProductVariant.inventory_tracked := true;
   CloreProductVariant.inventory_policy := "deny";
   CloreProductVariant.weight := None;
   CloreProductVariant.weight_unit := "kg";
   CloreProductVariant.requires_shipping := true;
   CloreProductVariant.option1 := None;
   CloreProductVariant.option2 := None;
   CloreProductVariant.option3 := None;
   CloreProductVariant.available := true;
   CloreProductVariant.currency := "USD" |}.

(** [n] products numbered from 1, and a variant for every third of them. *)
Definition sample_data (n : nat) : ScrapedStoreData.t :=
{| ScrapedStoreData.store := sample_store;
   ScrapedStoreData.products := map clore_product (seq 1 n);
   ScrapedStoreData.product_variants :=
     map clore_variant (filter (fun k => (k mod 3 =? 0)%nat) (seq 1 n)) |}.

Definition created (p v : Z) (errs : option (list string)) : GraphqlClient.SyncResponse :=
{| GraphqlClient.response_data :=
     Some {| GraphqlClient.success := true;
             GraphqlClient.message := "ok";
             GraphqlClient.storeId := Some "store-1";
             GraphqlClient.productsCreated := p;
             GraphqlClient.variantsCreated := v;
             GraphqlClient.errors := errs |};
   GraphqlClient.response_errors := None |}.

(** Batch 2 is refused by GraphQL; the others are created. *)
Definition sample_api (batch attempt : nat) : JS.Thrown + GraphqlClient.SyncResponse :=
match batch with
| 2%nat => inr {| GraphqlClient.response_data := None;
                  GraphqlClient.response_errors := Some ["Payload too large"; "Try again"] |}
| _ => inr (created 20 6 None)
end.

(** The API is down: every request fails. *)
Definition down_api (batch attempt : nat) : JS.Thrown + GraphqlClient.SyncResponse :=
inl (JS.ThrownError "Network Error").

(** The API creates what it is sent and reports one skipped product. *)
Definition warning_api (batch attempt : nat) : JS.Thrown + GraphqlClient.SyncResponse :=
inr (created 3 1 (Some ["Product 2 skipped"])).

(** Sample store endpoints by host name, and errors that carry no status. *)
Definition no_status (error : JS.Thrown) : option Z := None.

Definition plain_error_name (error : JS.Thrown) : string := "Error".

Definition sample_root (host : string) (attempt : nat)
  : JS.Thrown + ShopifyScraper.ShopifyProductsResponse :=
sample_feed 1 attempt.

Definition missing_root (host : string) (attempt : nat)
  : JS.Thrown + ShopifyScraper.ShopifyProductsResponse :=
inr (ShopifyScraper.mkResponse None).

(* ================================================================== *)
(** * Properties *)
(* ================================================================== *)

Example normalize_readme_1 :
  DomainNormalizer.normalizeDomain "https://www.storename.com" = inr "storename.com".
Proof. reflexivity. Qed.

Example normalize_spec_example :
  DomainNormalizer.normalizeDomain "https://www.Shop.com/foo?x=1" = inr "shop.com".
Proof. reflexivity. Qed.

Example normalize_upper_www :
  DomainNormalizer.normalizeDomain "WWW.Shop.com" = inr "www.shop.com".
Proof. reflexivity. Qed.

Example normalize_not_a_domain :
  DomainNormalizer.normalizeDomain "not a domain"
  = inl (JS.ThrownError "Invalid domain format: not a domain").
Proof. reflexivity. Qed.

Example normalize_port :
  DomainNormalizer.normalizeDomain "http:///shop.myshopify.com:8080/x/y" = inr "shop.myshopify.com".
Proof. reflexivity. Qed.

(** ** Facts about the string primitives *)

Section StringFacts.
Import JS.

Lemma append_empty_r (s : string) : s ++ EmptyString = s.
Proof. induction s; simpl; congruence. Qed.

Lemma append_assoc (a b c : string) : (a ++ b) ++ c = a ++ b ++ c.
Proof. induction a; simpl; congruence. Qed.

Lemma all_chars_app (P : ascii -> bool) (a b : string) :
  all_chars P (a ++ b) = all_chars P a && all_chars P b.
Proof.
  induction a as [|c a IH]; simpl; [reflexivity|].
  rewrite IH. apply andb_assoc.
Qed.

Lemma all_chars_impl (P Q : ascii -> bool) (s : string) :
  (forall c, P c = true -> Q c = true) ->
  all_chars P s = true -> all_chars Q s = true.
Proof.
  intros HPQ. induction s as [|c s IH]; simpl; [reflexivity|].
  intros H. apply andb_true_iff in H as [Hc Hs].
  rewrite (HPQ _ Hc), (IH Hs). reflexivity.
Qed.

Lemma split_not_nil (sep : ascii) (s : string) : split sep s <> [].
Proof.
  destruct s as [|c s]; simpl; [discriminate|].
  destruct (Ascii.eqb c sep); [discriminate|].
  destruct (split sep s); discriminate.
Qed.

Lemma split_cons_other (sep c : ascii) (s : string) :
  Ascii.eqb c sep = false ->
  split sep (String c s)
  = String c (hd EmptyString (split sep s)) :: tl (split sep s).
Proof.
  intros H. simpl. rewrite H.
  destruct (split sep s) eqn:E; [destruct (split_not_nil _ _ E)|reflexivity].
Qed.

(** The part before the first separator of [a ++ b], when [a] has none. *)
Lemma split_hd_app (sep : ascii) (a b : string) :
  all_chars (fun c => negb (Ascii.eqb c sep)) a = true ->
  hd EmptyString (split sep (a ++ b)) = a ++ hd EmptyString (split sep b).
Proof.
  induction a as [|c a IH]; intros H; [reflexivity|].
  simpl in H. apply andb_true_iff in H as [Hc Ha].
  apply negb_true_iff in Hc.
  change (String c a ++ b) with (String c (a ++ b)).
  rewrite split_cons_other by assumption. simpl. now rewrite IH.
Qed.

(** Characters of the parts, and the separator, make up the string. *)
Lemma all_chars_split (P : ascii -> bool) (sep : ascii) (s : string) :
  P sep = true ->
  forallb (all_chars P) (split sep s) = true -> all_chars P s = true.
Proof.
  intros Hsep. induction s as [|c s IH]; [reflexivity|].
  destruct (Ascii.eqb c sep) eqn:E.
  - simpl. rewrite E. simpl. intros H.
    apply Ascii.eqb_eq in E. subst c. rewrite Hsep. auto.
  - rewrite split_cons_other by assumption.
    destruct (split sep s) as [|p ps] eqn:Es; [destruct (split_not_nil _ _ Es)|].
    simpl in *. intros H.
    apply andb_true_iff in H as [H1 H2]. apply andb_true_iff in H1 as [Hc Hp].
    rewrite Hc. simpl. apply IH. now rewrite Hp.
Qed.

Lemma split_first_char (sep c : ascii) (s p : string) (ps : list string) :
  split sep s = String c p :: ps -> exists s', s = String c s'.
Proof.
  destruct s as [|a s]; simpl; [discriminate|].
  destruct (Ascii.eqb a sep); [discriminate|].
  destruct (split sep s); intros H; injection H as -> _; eauto.
Qed.

Lemma last_char_cons (c : ascii) (s : string) :
  s <> EmptyString -> last_char (String c s) = last_char s.
Proof. destruct s; [congruence|reflexivity]. Qed.

(** The last character of a string is that of its last part. *)
Lemma split_last_char (sep : ascii) (s : string) :
  last (split sep s) EmptyString <> EmptyString ->
  last_char s = last_char (last (split sep s) EmptyString).
Proof.
  induction s as [|c s IH]; [reflexivity|].
  destruct (Ascii.eqb c sep) eqn:E.
  - simpl split. rewrite E.
    destruct (split sep s) as [|p ps] eqn:Es; [destruct (split_not_nil _ _ Es)|].
    change (last (EmptyString :: p :: ps) EmptyString) with (last (p :: ps) EmptyString).
    intros H. rewrite <- (IH H). apply last_char_cons.
    intros ->. simpl in Es. injection Es as <- <-. now apply H.
  - rewrite split_cons_other by assumption.
    destruct (split sep s) as [|p ps] eqn:Es; [destruct (split_not_nil _ _ Es)|].
    destruct ps as [|q qs].
    + simpl. intros _. simpl in IH.
      destruct p as [|d p].
      * destruct s; [reflexivity|]. simpl in Es.
        destruct (Ascii.eqb a sep).
        -- injection Es as Es. destruct (split_not_nil _ _ Es).
        -- destruct (split sep s); discriminate.
      * rewrite <- IH by discriminate.
        destruct s; [discriminate|reflexivity].
    + change (last (String c (hd EmptyString (p :: q :: qs)) :: tl (p :: q :: qs)) EmptyString)
        with (last (p :: q :: qs) EmptyString).
      intros H. rewrite <- (IH H). apply last_char_cons.
      intros ->. discriminate.
Qed.

Lemma starts_with_app (p r : string) : starts_with p (p ++ r) = true.
Proof.
  induction p as [|c p IH]; [reflexivity|].
  simpl. now rewrite Ascii.eqb_refl.
Qed.

Lemma skip_app (p r : string) : skip (String.length p) (p ++ r) = r.
Proof. induction p as [|c p IH]; [reflexivity|exact IH]. Qed.

(** A prefix of [a ++ b] lies within [a] or extends [a]. *)
Lemma starts_with_app_cases (p a b : string) :
  starts_with p (a ++ b) = true ->
  starts_with p a = true \/ starts_with a p = true.
Proof.
  revert a. induction p as [|c p IH]; intros a H; [now left|].
  destruct a as [|d a]; [now right|].
  simpl in *. apply andb_true_iff in H as [Hc H].
  apply Ascii.eqb_eq in Hc. subst d. rewrite !Ascii.eqb_refl. simpl.
  now apply IH.
Qed.

Lemma starts_with_all_chars (P : ascii -> bool) (p s : string) :
  starts_with p s = true -> all_chars P s = true -> all_chars P p = true.
Proof.
  revert s. induction p as [|c p IH]; intros s H Hs; [reflexivity|].
  destruct s as [|d s]; [discriminate|].
  simpl in *. apply andb_true_iff in H as [Hc H].
  apply Ascii.eqb_eq in Hc. subst d.
  apply andb_true_iff in Hs as [Hc Hs]. rewrite Hc. simpl. eauto.
Qed.

Lemma starts_with_exact (a p : string) :
  starts_with a p = true -> exists r, p = a ++ r.
Proof.
  revert p. induction a as [|c a IH]; intros p H; [now exists p|].
  destruct p as [|d p]; [discriminate|].
  simpl in H. apply andb_true_iff in H as [Hc H].
  apply Ascii.eqb_eq in Hc. subst d.
  destruct (IH _ H) as [r ->]. now exists r.
Qed.

Lemma trimEnd_id (s : string) :
  match last_char s with Some c => is_whitespace c = false | None => True end ->
  trimEnd s = s.
Proof.
  induction s as [|c s IH]; [reflexivity|].
  destruct s as [|d s].
  - simpl. now intros ->.
  - intros H. rewrite last_char_cons in H by discriminate.
    change (trimEnd (String c (String d s)))
      with (match trimEnd (String d s) with
            | EmptyString => if is_whitespace c then EmptyString else String c EmptyString
            | r => String c r
            end).
    now rewrite (IH H).
Qed.

Lemma trim_id (c : ascii) (s : string) :
  is_whitespace c = false ->
  match last_char (String c s) with Some d => is_whitespace d = false | None => True end ->
  trim (String c s) = String c s.
Proof.
  intros Hc Hl. unfold trim. simpl trimStart. rewrite Hc. now apply trimEnd_id.
Qed.

End StringFacts.

(** ** Facts about the domain grammar *)

Section DomainFacts.
Import JS Validators DomainNormalizer.

Ltac ascii_cases c :=
  destruct c as [[|] [|] [|] [|] [|] [|] [|] [|]];
  vm_compute; intros; try reflexivity; try discriminate; try tauto.

Lemma host_char_not_sep (c : ascii) :
  host_char c = true ->
  Ascii.eqb c "/" = false /\ Ascii.eqb c ":" = false /\ is_whitespace c = false.
Proof. ascii_cases c; repeat split; reflexivity. Qed.

Lemma alnum_host_char (c : ascii) : is_alnum c = true -> host_char c = true.
Proof. unfold host_char, is_label_char. now intros ->. Qed.

Lemma alpha_host_char (c : ascii) : is_alpha c = true -> host_char c = true.
Proof. unfold host_char, is_label_char, is_alnum. now intros ->. Qed.

Lemma label_host_char (c : ascii) : is_label_char c = true -> host_char c = true.
Proof. unfold host_char. now intros ->. Qed.

Lemma lower_char_dot (c : ascii) : Ascii.eqb (lower_char c) "." = Ascii.eqb c ".".
Proof. ascii_cases c. Qed.

Lemma lower_char_alpha (c : ascii) : is_alpha (lower_char c) = is_alpha c.
Proof. ascii_cases c. Qed.

Lemma lower_char_alnum (c : ascii) : is_alnum (lower_char c) = is_alnum c.
Proof. ascii_cases c. Qed.

Lemma lower_char_label (c : ascii) : is_label_char (lower_char c) = is_label_char c.
Proof. ascii_cases c. Qed.

Lemma toLowerCase_length (s : string) :
  String.length (toLowerCase s) = String.length s.
Proof. induction s; simpl; congruence. Qed.

Lemma toLowerCase_all_chars (P : ascii -> bool) (s : string) :
  (forall c, P (lower_char c) = P c) ->
  all_chars P (toLowerCase s) = all_chars P s.
Proof. intros H. induction s; simpl; [reflexivity|]. now rewrite H, IHs. Qed.

Lemma toLowerCase_first_char (s : string) :
  first_char (toLowerCase s) = option_map lower_char (first_char s).
Proof. now destruct s. Qed.

Lemma toLowerCase_last_char (s : string) :
  last_char (toLowerCase s) = option_map lower_char (last_char s).
Proof.
  induction s as [|c s IH]; [reflexivity|].
  destruct s as [|d s]; [reflexivity|].
  change (toLowerCase (String c (String d s)))
    with (String (lower_char c) (toLowerCase (String d s))).
  rewrite (last_char_cons (lower_char c)), (last_char_cons c) by discriminate.
  exact IH.
Qed.

Lemma toLowerCase_split_dot (s : string) :
  split "." (toLowerCase s) = map toLowerCase (split "." s).
Proof.
  induction s as [|c s IH]; [reflexivity|].
  simpl. rewrite lower_char_dot, IH.
  destruct (Ascii.eqb c "."); [reflexivity|].
  now destruct (split "." s).
Qed.

Lemma toLowerCase_is_label (l : string) : is_label (toLowerCase l) = is_label l.
Proof.
  destruct l as [|c l]; [reflexivity|].
  destruct l as [|d l]; [apply lower_char_alnum|].
  change (toLowerCase (String c (String d l)))
    with (String (lower_char c) (String (lower_char d) (toLowerCase l))).
  unfold is_label.
  change (String (lower_char d) (toLowerCase l)) with (toLowerCase (String d l)).
  rewrite lower_char_alnum, toLowerCase_last_char.
  rewrite (toLowerCase_all_chars _ _ lower_char_label).
  destruct (last_char (String d l)); simpl; [now rewrite lower_char_alnum|reflexivity].
Qed.

Lemma toLowerCase_is_tld (t : string) : is_tld (toLowerCase t) = is_tld t.
Proof.
  unfold is_tld.
  now rewrite toLowerCase_length, (toLowerCase_all_chars _ _ lower_char_alpha).
Qed.

Lemma removelast_map {A B : Type} (f : A -> B) (l : list A) :
  removelast (map f l) = map f (removelast l).
Proof.
  induction l as [|a l IH]; [reflexivity|].
  destruct l; [reflexivity|]. simpl in *. now rewrite IH.
Qed.

Lemma last_map_default {A B : Type} (f : A -> B) (l : list A) (d : A) :
  last (map f l) (f d) = f (last l d).
Proof.
  induction l as [|a l IH]; [reflexivity|].
  destruct l; [reflexivity|exact IH].
Qed.

(** The domain test ignores case. *)
Lemma isValidDomain_toLowerCase (d : string) :
  isValidDomain (toLowerCase d) = isValidDomain d.
Proof.
  unfold isValidDomain. rewrite toLowerCase_split_dot.
  rewrite length_map, removelast_map.
  change EmptyString with (toLowerCase EmptyString) at 1.
  rewrite last_map_default, toLowerCase_is_tld.
  f_equal. f_equal.
  induction (removelast (split "." d)) as [|l ls IH]; [reflexivity|].
  simpl. now rewrite toLowerCase_is_label, IH.
Qed.

Lemma is_label_host_chars (l : string) :
  is_label l = true -> all_chars host_char l = true.
Proof.
  destruct l as [|c l]; [discriminate|].
  destruct l as [|d l].
  - simpl. intros H. now rewrite (alnum_host_char _ H).
  - unfold is_label. intros H.
    apply andb_true_iff in H as [H _]. apply andb_true_iff in H as [Hc Hl].
    change (all_chars host_char (String c (String d l)))
      with (host_char c && all_chars host_char (String d l)).
    rewrite (alnum_host_char _ Hc).
    apply (all_chars_impl _ _ _ label_host_char Hl).
Qed.

Lemma is_tld_host_chars (t : string) :
  is_tld t = true -> all_chars host_char t = true.
Proof.
  unfold is_tld. intros H. apply andb_true_iff in H as [_ H].
  revert H. apply all_chars_impl, alpha_host_char.
Qed.

(** What the proofs below need of a valid domain: its characters, its first
    and its last character. *)
Lemma isValidDomain_shape (d : string) :
  isValidDomain d = true ->
  all_chars host_char d = true
  /\ (exists c d', d = String c d' /\ is_alnum c = true)
  /\ (exists z, last_char d = Some z /\ is_alpha z = true).
Proof.
  unfold isValidDomain. intros H.
  apply andb_true_iff in H as [H Htld]. apply andb_true_iff in H as [Hlen Hlab].
  apply Nat.leb_le in Hlen.
  pose proof (split_not_nil "." d) as Hne.
  pose proof (app_removelast_last EmptyString Hne) as Hparts.
  repeat split.
  - apply (all_chars_split _ "."); [reflexivity|].
    rewrite Hparts, forallb_app. simpl. rewrite (is_tld_host_chars _ Htld).
    rewrite andb_true_r. rewrite forallb_forall in Hlab |- *.
    intros l Hl. now apply is_label_host_chars, Hlab.
  - destruct (split "." d) as [|p [|q qs]] eqn:Es; simpl in Hlen; try lia.
    simpl in Hlab. apply andb_true_iff in Hlab as [Hp _].
    destruct p as [|c p]; [discriminate|].
    destruct (split_first_char _ _ _ _ _ Es) as [d' ->].
    exists c, d'. split; [reflexivity|].
    destruct p; [exact Hp|].
    unfold is_label in Hp. apply andb_true_iff in Hp as [Hp _].
    now apply andb_true_iff in Hp as [Hp _].
  - assert (Hnz : last (split "." d) EmptyString <> EmptyString).
    { intros E. rewrite E in Htld. discriminate. }
    rewrite (split_last_char "." d Hnz).
    unfold is_tld in Htld. apply andb_true_iff in Htld as [_ Hall].
    destruct (last (split "." d) EmptyString) as [|c t]; [congruence|].
    clear - Hall. revert c Hall.
    induction t as [|e t IH]; intros c Hall.
    + exists c. simpl in *. now rewrite andb_true_r in Hall.
    + rewrite last_char_cons by discriminate.
      apply IH. simpl in Hall. now apply andb_true_iff in Hall as [_ Hall].
Qed.

End DomainFacts.

(** ** The domain normalizer *)

Section NormalizeDomain.
Import JS Validators DomainNormalizer.

Lemma prefix_of_scheme_invalid (p a : string) :
  In p ["http://"; "https://"] -> starts_with a p = true -> isValidDomain a = false.
Proof.
  intros [<-|[<-|[]]] H;
    repeat (destruct a as [|? a];
            [vm_compute; reflexivity
            |simpl in H; try discriminate;
             apply andb_true_iff in H as [Hc H];
             apply Ascii.eqb_eq in Hc; subst]).
Qed.

Lemma valid_host_no_scheme (p host rest : string) :
  In p ["http://"; "https://"] ->
  isValidDomain host = true -> starts_with p (host ++ rest) = false.
Proof.
  intros Hp Hv. destruct (starts_with p (host ++ rest)) eqn:E; [exfalso|reflexivity].
  destruct (starts_with_app_cases _ _ _ E) as [H|H].
  - destruct (isValidDomain_shape _ Hv) as [Hall _].
    pose proof (starts_with_all_chars _ _ _ H Hall) as Hc.
    destruct Hp as [<-|[<-|[]]]; vm_compute in Hc; discriminate.
  - rewrite (prefix_of_scheme_invalid _ _ Hp H) in Hv. discriminate.
Qed.

Lemma strip_protocol_host (host rest : string) :
  isValidDomain host = true -> strip_protocol (host ++ rest) = host ++ rest.
Proof.
  intros Hv. unfold strip_protocol.
  rewrite !valid_host_no_scheme; simpl; auto.
Qed.

Lemma strip_leading_slashes_app (n : nat) (c : ascii) (s : string) :
  Ascii.eqb c "/" = false ->
  strip_leading_slashes (slashes n ++ String c s) = String c s.
Proof.
  intros Hc. induction n as [|n IH]; [|exact IH].
  simpl. destruct c as [[|] [|] [|] [|] [|] [|] [|] [|]]; try reflexivity.
  discriminate.
Qed.

Lemma before_first_app (sep : ascii) (a b : string) :
  all_chars (fun c => negb (Ascii.eqb c sep)) a = true ->
  before_first sep (a ++ b) = a ++ before_first sep b.
Proof. apply split_hd_app. Qed.

Lemma before_first_sep (sep : ascii) (s : string) :
  before_first sep (String sep s) = EmptyString.
Proof. unfold before_first. simpl. now rewrite Ascii.eqb_refl. Qed.

(** Cutting at the first slash and then at the first colon removes a
    path-or-port suffix altogether. *)
Lemma cut_path_and_port (a suffix : string) :
  all_chars host_char a = true ->
  is_path_or_port suffix = true ->
  before_first ":" (before_first "/" (a ++ suffix)) = a.
Proof.
  intros Ha Hs.
  assert (H1 : all_chars (fun c => negb (Ascii.eqb c "/")) a = true).
  { revert Ha. apply all_chars_impl. intros c Hc.
    destruct (host_char_not_sep _ Hc) as [-> _]. reflexivity. }
  assert (H2 : all_chars (fun c => negb (Ascii.eqb c ":")) a = true).
  { revert Ha. apply all_chars_impl. intros c Hc.
    destruct (host_char_not_sep _ Hc) as [_ [-> _]]. reflexivity. }
  rewrite before_first_app by assumption.
  rewrite before_first_app by assumption.
  rewrite <- (append_empty_r a) at 2. f_equal.
  destruct suffix as [|c t]; [reflexivity|].
  simpl in Hs. apply orb_true_iff in Hs as [Hc|Hc]; apply Ascii.eqb_eq in Hc; subst c.
  - now rewrite before_first_sep.
  - unfold before_first at 2. rewrite split_cons_other by reflexivity.
    simpl hd. apply before_first_sep.
Qed.

End NormalizeDomain.

Section NormalizeDomainMain.
Import JS Validators DomainNormalizer.

Lemma strip_protocol_decorated (proto www host suffix : string) (n : nat) :
  In proto [""; "http://"; "https://"] ->
  In www [""; "www."] ->
  isValidDomain host = true ->
  strip_protocol (proto ++ slashes n ++ www ++ host ++ suffix)
  = slashes n ++ www ++ host ++ suffix.
Proof.
  intros Hp Hw Hv.
  destruct Hp as [<-|[<-|[<-|[]]]]; [|reflexivity|reflexivity].
  destruct n as [|n]; [|reflexivity].
  destruct Hw as [<-|[<-|[]]]; [|reflexivity].
  simpl append. now apply strip_protocol_host.
Qed.

Lemma trim_toLowerCase_host (host : string) :
  isValidDomain host = true -> trim (toLowerCase host) = toLowerCase host.
Proof.
  intros Hv. destruct (isValidDomain_shape _ Hv) as (_ & (c & d' & -> & Hc) & (z & Hz & Hza)).
  change (toLowerCase (String c d')) with (String (lower_char c) (toLowerCase d')).
  apply trim_id.
  - apply host_char_not_sep, alnum_host_char. now rewrite lower_char_alnum.
  - change (String (lower_char c) (toLowerCase d')) with (toLowerCase (String c d')).
    rewrite toLowerCase_last_char, Hz. simpl.
    apply host_char_not_sep, alpha_host_char. now rewrite lower_char_alpha.
Qed.

(** C4 (amended): around a valid host name that does not itself begin with
    [www.], the normalizer removes an [http://] or [https://] prefix, any
    number of leading slashes, a lower-case [www.] prefix, and a suffix that
    starts with a slash (path and query) or a colon (port), and returns the
    host name in lower case. *)
Theorem normalizeDomain_strips_decorations
    (proto www host suffix : string) (n : nat) :
  In proto [""; "http://"; "https://"] ->
  In www [""; "www."] ->
  isValidDomain host = true ->
  starts_with "www." host = false ->
  is_path_or_port suffix = true ->
  normalizeDomain (proto ++ slashes n ++ www ++ host ++ suffix)
  = inr (toLowerCase host).
Proof.
  intros Hp Hw Hv Hnw Hs. unfold normalizeDomain.
  rewrite strip_protocol_decorated by assumption.
  destruct (isValidDomain_shape _ Hv) as (Hall & (c & d' & Ec & Hc) & _).
  assert (Hslash : strip_leading_slashes (slashes n ++ www ++ host ++ suffix)
                   = (www ++ host) ++ suffix).
  { rewrite append_assoc.
    destruct Hw as [<-|[<-|[]]].
    - subst host. apply strip_leading_slashes_app.
      now apply host_char_not_sep, alnum_host_char.
    - now apply strip_leading_slashes_app. }
  rewrite Hslash.
  rewrite cut_path_and_port; [|rewrite all_chars_app, Hall|assumption].
  2:{ destruct Hw as [<-|[<-|[]]]; reflexivity. }
  assert (Hwww : strip_prefix "www." (www ++ host) = host).
  { destruct Hw as [<-|[<-|[]]].
    - unfold strip_prefix. simpl append. now rewrite Hnw.
    - reflexivity. }
  rewrite Hwww, trim_toLowerCase_host, isValidDomain_toLowerCase, Hv by assumption.
  reflexivity.
Qed.

Lemma normalizeDomain_strips_decorations_witness :
  normalizeDomain "https://www.Shop.com/foo?x=1" = inr "shop.com".
Proof.
  apply (normalizeDomain_strips_decorations "https://" "www." "Shop.com" "/foo?x=1" 0);
    simpl; auto.
Defined.

(** C4 as stated fails on an upper-case [WWW.]: the prefix test is
    case-sensitive and runs before the lower-casing, so the prefix stays. *)
Lemma normalizeDomain_keeps_upper_www :
  normalizeDomain "https://WWW.Shop.com/foo?x=1" = inr "www.shop.com"
  /\ normalizeDomain "https://WWW.Shop.com/foo?x=1" <> inr "shop.com".
Proof. split; [reflexivity|discriminate]. Qed.

End NormalizeDomainMain.

(** ** The validators *)

Example isValidPrice_examples :
  map PriceValidators.isValidPrice
    [Some "29.99"; Some "abc"; Some "-1"; Some "-0"; Some ".5"; Some "1."; Some ".";
     Some " 12"; Some "1e3"; Some "5abc"; Some "-Infinity"; Some ""; None; Some "-1e-400"]
  = [true; false; false; true; true; true; false;
     true; true; true; false; false; false; true].
Proof. vm_compute. reflexivity. Qed.

Example isValidInventory_examples :
  map PriceValidators.isValidInventory
    [Some 3%float; Some 2.5%float; Some (-1)%float; Some 0%float; None; Some nan]
  = [true; false; false; true; false; false].
Proof. reflexivity. Qed.

(** ** The data mapper *)

Section DataMapperFacts.
Import JS PriceValidators DataMapper.

(** A number above zero is truthy: it is neither zero nor NaN. *)
Lemma positive_is_truthy (w : float) :
  (0 <? w)%float = true -> truthy_number w = true.
Proof.
  unfold truthy_number, PrimFloat.is_nan.
  rewrite ltb_spec, !eqb_spec.
  change (Prim2SF 0) with (S754_zero false).
  destruct (Prim2SF w) as [s|s| |s m e]; simpl; try discriminate.
  - now destruct s.
  - destruct s; [discriminate|]. intros _.
    unfold SFeqb, SFcompare. now rewrite Z.compare_refl, Pos.compare_refl.
Qed.

Lemma convert_weight_table (w : float) (weight_unit : option string) :
  convert_weight (Some w) weight_unit
  = if (0 <? w)%float then Some (kilograms (unit_of weight_unit) w) else None.
Proof.
  unfold convert_weight.
  destruct (0 <? w)%float eqn:Hpos.
  - rewrite (positive_is_truthy _ Hpos). simpl andb.
    unfold unit_of, strict_eq. destruct weight_unit as [u|]; [|reflexivity].
    destruct ((u =? "g") || (u =? "grams")); [reflexivity|].
    destruct (u =? "kg"); [reflexivity|].
    destruct (u =? "lb"); [reflexivity|].
    destruct (u =? "oz"); reflexivity.
  - now rewrite andb_false_r.
Qed.

(** What acceptance by the variant mapper means, and the record built. *)
Lemma mapShopifyVariantToClore_accepts
    (variant : ShopifyVariant.t) (pid : option Z) (mapped : CloreProductVariant.t) :
  mapShopifyVariantToClore variant pid = inr mapped ->
  truthyZ (ShopifyVariant.id variant) = true
  /\ truthy (ShopifyVariant.title variant) = true
  /\ isValidPrice (ShopifyVariant.price variant) = true
  /\ CloreProductVariant.weight mapped
     = convert_weight (ShopifyVariant.weight variant) (ShopifyVariant.weight_unit variant)
  /\ CloreProductVariant.weight_unit mapped = "kg"
  /\ CloreProductVariant.inventory_quantity mapped
     = (if isValidInventory (ShopifyVariant.inventory_quantity variant)
        then match ShopifyVariant.inventory_quantity variant with
             | Some q => q
             | None => 0%float
             end
        else 0%float)
  /\ CloreProductVariant.inventory_tracked mapped
     = match ShopifyVariant.tracked variant with Some false => false | _ => true end
  /\ CloreProductVariant.requires_shipping mapped
     = match ShopifyVariant.requires_shipping variant with Some false => false | _ => true end
  /\ CloreProductVariant.available mapped
     = match ShopifyVariant.available variant with Some false => false | _ => true end
  /\ CloreProductVariant.currency mapped = "USD".
Proof.
  unfold mapShopifyVariantToClore, push_if.
  destruct (truthyZ (ShopifyVariant.id variant));
    destruct (truthy (ShopifyVariant.title variant));
    destruct (isValidPrice (ShopifyVariant.price variant));
    simpl; try discriminate.
  intros H. injection H as <-. simpl. repeat split; reflexivity.
Qed.

End DataMapperFacts.

Section DataMapperClaims.
Import JS PriceValidators DataMapper.

Example weight_conversions :
  map (fun '(w, u) =>
         match mapShopifyVariantToClore (sample_variant w u) (Some 7%Z) with
         | inr m => CloreProductVariant.weight m
         | inl _ => Some nan
         end)
    [(Some 1000%float, Some "g"); (Some 1%float, Some "kg"); (Some 1%float, Some "lb");
     (Some 1%float, Some "oz"); (Some 500%float, Some "stone"); (Some 500%float, None);
     (Some 0%float, Some "kg"); (None, Some "kg"); (Some 250%float, Some "grams")]
  = [Some 1%float; Some 1%float; Some 0.453592%float;
     Some 0.0283495%float; Some 0.5%float; Some 0.5%float;
     None; None; Some 0.25%float].
Proof. reflexivity. Qed.

(** C5 (amended): for a variant the mapper accepts, the output unit is the
    literal [kg]; the mapped weight is null when the source weight is absent
    or is not above zero (zero, negative, NaN); otherwise it is the source
    weight divided by 1000 for grams, unchanged for kilograms, times 0.453592
    for pounds, times 0.0283495 for ounces, and divided by 1000 for any other
    unit. *)
Theorem variant_weight_in_kilograms
    (variant : ShopifyVariant.t) (pid : option Z) (mapped : CloreProductVariant.t) :
  mapShopifyVariantToClore variant pid = inr mapped ->
  CloreProductVariant.weight_unit mapped = "kg"
  /\ CloreProductVariant.weight mapped
     = match ShopifyVariant.weight variant with
       | None => None
       | Some w =>
           if (0 <? w)%float
           then Some (kilograms (unit_of (ShopifyVariant.weight_unit variant)) w)
           else None
       end.
Proof.
  intros H.
  destruct (mapShopifyVariantToClore_accepts _ _ _ H) as (_ & _ & _ & Hw & Hu & _).
  split; [exact Hu|]. rewrite Hw.
  destruct (ShopifyVariant.weight variant) as [w|]; [|reflexivity].
  apply convert_weight_table.
Qed.

Lemma variant_weight_in_kilograms_witness :
  exists mapped,
    mapShopifyVariantToClore (sample_variant (Some 2%float) (Some "lb")) (Some 7%Z)
    = inr mapped
    /\ CloreProductVariant.weight_unit mapped = "kg"
    /\ CloreProductVariant.weight mapped = Some 0.907184%float.
Proof.
  eexists. split; [reflexivity|].
  apply (variant_weight_in_kilograms
           (sample_variant (Some 2%float) (Some "lb")) (Some 7%Z)).
  reflexivity.
Defined.

(** C5 as stated fails on a negative weight: the claim has the grams rule
    apply to every weight that is present and not zero, the mapper yields
    null unless the weight is above zero. *)
Lemma negative_weight_maps_to_null :
  exists variant mapped,
    mapShopifyVariantToClore variant (Some 7%Z) = inr mapped
    /\ ShopifyVariant.weight variant = Some (-5)%float
    /\ claimed_weight (ShopifyVariant.weight variant) (ShopifyVariant.weight_unit variant)
       = Some (-0.005)%float
    /\ CloreProductVariant.weight mapped = None.
Proof.
  exists (sample_variant (Some (-5)%float) (Some "g")). eexists.
  split; [reflexivity|]. repeat split.
Qed.

(** C6: for a variant the mapper accepts, the mapped inventory quantity is
    the number 0 when the source has none; [inventory_tracked],
    [requires_shipping] and [available] are false exactly when the source
    field is the boolean false, and true otherwise; the currency is [USD]. *)
Theorem variant_defaults
    (variant : ShopifyVariant.t) (pid : option Z) (mapped : CloreProductVariant.t) :
  mapShopifyVariantToClore variant pid = inr mapped ->
  (ShopifyVariant.inventory_quantity variant = None ->
   CloreProductVariant.inventory_quantity mapped = 0%float)
  /\ (CloreProductVariant.inventory_tracked mapped = false
      <-> ShopifyVariant.tracked variant = Some false)
  /\ (CloreProductVariant.requires_shipping mapped = false
      <-> ShopifyVariant.requires_shipping variant = Some false)
  /\ (CloreProductVariant.available mapped = false
      <-> ShopifyVariant.available variant = Some false)
  /\ CloreProductVariant.currency mapped = "USD".
Proof.
  intros H.
  destruct (mapShopifyVariantToClore_accepts _ _ _ H)
    as (_ & _ & _ & _ & _ & Hq & Ht & Hs & Ha & Hc).
  repeat split; try assumption.
  - intros E. rewrite Hq, E. reflexivity.
  - rewrite Ht. destruct (ShopifyVariant.tracked variant) as [[|]|]; congruence.
  - rewrite Ht. now intros ->.
  - rewrite Hs. destruct (ShopifyVariant.requires_shipping variant) as [[|]|]; congruence.
  - rewrite Hs. now intros ->.
  - rewrite Ha. destruct (ShopifyVariant.available variant) as [[|]|]; congruence.
  - rewrite Ha. now intros ->.
Qed.

Lemma variant_defaults_witness :
  exists mapped,
    mapShopifyVariantToClore (sample_variant None None) (Some 7%Z) = inr mapped
    /\ CloreProductVariant.inventory_quantity mapped = 0%float
    /\ CloreProductVariant.inventory_tracked mapped = false
    /\ CloreProductVariant.requires_shipping mapped = true
    /\ CloreProductVariant.available mapped = true
    /\ CloreProductVariant.currency mapped = "USD".
Proof.
  eexists. split; [reflexivity|].
  destruct (variant_defaults (sample_variant None None) (Some 7%Z) _ eq_refl)
    as (Hq & Ht & _ & _ & Hc).
  split; [exact (Hq eq_refl)|].
  split; [apply Ht; reflexivity|].
  split; [reflexivity|]. split; [reflexivity|exact Hc].
Defined.

End DataMapperClaims.

Section ProductTags.
Import JS DataMapper.


Lemma all_chars_trimStart (P : ascii -> bool) (s : string) :
  all_chars P s = true -> all_chars P (trimStart s) = true.
Proof.
  induction s as [|c s IH]; [reflexivity|].
  intros H. simpl. destruct (is_whitespace c); [|exact H].
  apply IH. simpl in H. now apply andb_true_iff in H as [_ H].
Qed.

Lemma all_chars_trimEnd (P : ascii -> bool) (s : string) :
  all_chars P s = true -> all_chars P (trimEnd s) = true.
Proof.
  induction s as [|c s IH]; [reflexivity|].
  intros H. simpl in H. apply andb_true_iff in H as [Hc Hs].
  simpl. specialize (IH Hs).
  destruct (trimEnd s) as [|d r].
  - destruct (is_whitespace c); [reflexivity|]. simpl. now rewrite Hc.
  - change (all_chars P (String c (String d r)))
      with (P c && all_chars P (String d r)).
    now rewrite Hc, IH.
Qed.

Lemma all_chars_trim (P : ascii -> bool) (s : string) :
  all_chars P s = true -> all_chars P (trim s) = true.
Proof. intros H. now apply all_chars_trimEnd, all_chars_trimStart. Qed.



Example tags_of_examples :
  map (fun tags =>
         match mapShopifyProductToClore (sample_product (Some "Tee") tags None) with
         | inr m => CloreProduct.tags m
         | inl _ => Some ["rejected"]
         end)
    [Some "red, blue ,,green"; Some ""; Some ",, ,"; None; Some "  solo  "]
  = [Some ["red"; "blue"; "green"]; None; None; None; Some ["solo"]].
Proof. reflexivity. Qed.



End ProductTags.

(** ** Computations and their traces *)

Section EffFacts.
Import Effects.

Lemma trace_bind {A B : Type} (m : Eff A) (k : A -> Eff B) :
  trace (bind m k) = (trace m ++ trace (k (value m)))%list.
Proof. destruct m as [t a]. unfold bind, trace, value. simpl. now destruct (k a). Qed.

Lemma value_bind {A B : Type} (m : Eff A) (k : A -> Eff B) :
  value (bind m k) = value (k (value m)).
Proof. destruct m as [t a]. unfold bind, trace, value. simpl. now destruct (k a). Qed.

Lemma invocations_app (t1 t2 : list Event) :
  invocations (t1 ++ t2) = (invocations t1 ++ invocations t2)%list.
Proof. apply flat_map_app. Qed.

Lemma sleeps_app (t1 t2 : list Event) :
  sleeps (t1 ++ t2) = (sleeps t1 ++ sleeps t2)%list.
Proof. apply flat_map_app. Qed.

Lemma requests_app (t1 t2 : list Event) :
  requests (t1 ++ t2) = (requests t1 ++ requests t2)%list.
Proof. apply flat_map_app. Qed.

End EffFacts.

(** ** The retry helper *)

Section RetryFacts.
Import JS Effects Retry.
Context {T : Type}.
Variable fn : nat -> Eff (Thrown + T).
Variable name : string.
Variable maxRetries : nat.
Hypothesis fn_plain : plain fn.

Lemma retry_loop_turn (todo attempt : nat) (lastError : Thrown) :
  retry_loop fn name maxRetries (S todo) attempt lastError
  = (emit (Log LDebug
             ("Attempt " ++ string_of_nat attempt ++ "/" ++ string_of_nat maxRetries
              ++ " for " ++ name) "");;
     emit (Invoke name attempt);;
     r <- fn attempt;;
     match r with
     | inr result => ret (inr result)
     | inl error =>
         on_failure name maxRetries attempt (as_error error);;
         retry_loop fn name maxRetries todo (S attempt) (as_error error)
     end)%eff.
Proof. reflexivity. Qed.

(** One turn of the loop whose call failed. *)
Lemma retry_loop_failed_turn (todo attempt : nat) (lastError error : Thrown) :
  value (fn attempt) = inl error ->
  let rest := retry_loop fn name maxRetries todo (S attempt) (as_error error) in
  value (retry_loop fn name maxRetries (S todo) attempt lastError) = value rest
  /\ invocations (trace (retry_loop fn name maxRetries (S todo) attempt lastError))
     = attempt :: invocations (trace rest)
  /\ sleeps (trace (retry_loop fn name maxRetries (S todo) attempt lastError))
     = ((if (attempt <? maxRetries)%nat then [backoff attempt] else [])
        ++ sleeps (trace rest))%list
  /\ trace (retry_loop fn name maxRetries (S todo) attempt lastError)
     = ([Log LDebug
           ("Attempt " ++ string_of_nat attempt ++ "/" ++ string_of_nat maxRetries
            ++ " for " ++ name) ""; Invoke name attempt]
        ++ trace (fn attempt)
        ++ trace (on_failure name maxRetries attempt (as_error error))
        ++ trace rest)%list.
Proof.
  intros Hf rest. destruct (fn_plain attempt) as [Hi Hs].
  assert (Ht : trace (retry_loop fn name maxRetries (S todo) attempt lastError)
     = ([Log LDebug
           ("Attempt " ++ string_of_nat attempt ++ "/" ++ string_of_nat maxRetries
            ++ " for " ++ name) ""; Invoke name attempt]
        ++ trace (fn attempt)
        ++ trace (on_failure name maxRetries attempt (as_error error))
        ++ trace rest)%list).
  { rewrite retry_loop_turn, !trace_bind, Hf, trace_bind. reflexivity. }
  split; [|split; [|split]]; [| | |exact Ht].
  - rewrite retry_loop_turn, !value_bind, Hf, value_bind. reflexivity.
  - rewrite Ht. rewrite !invocations_app, Hi.
    unfold on_failure. destruct (attempt <? maxRetries)%nat; reflexivity.
  - rewrite Ht. rewrite !sleeps_app, Hs.
    unfold on_failure. destruct (attempt <? maxRetries)%nat; reflexivity.
Qed.

(** One turn of the loop whose call succeeded. *)
Lemma retry_loop_successful_turn (todo attempt : nat) (lastError : Thrown) (result : T) :
  value (fn attempt) = inr result ->
  value (retry_loop fn name maxRetries (S todo) attempt lastError) = inr result
  /\ invocations (trace (retry_loop fn name maxRetries (S todo) attempt lastError))
     = [attempt]
  /\ sleeps (trace (retry_loop fn name maxRetries (S todo) attempt lastError)) = [].
Proof.
  intros Hf. destruct (fn_plain attempt) as [Hi Hs].
  rewrite retry_loop_turn, !value_bind, !trace_bind, Hf.
  rewrite !invocations_app, !sleeps_app, Hi, Hs. repeat split.
Qed.

Lemma retry_loop_invocations_bound (todo attempt : nat) (lastError : Thrown) :
  (List.length (invocations (trace (retry_loop fn name maxRetries todo attempt lastError)))
   <= todo)%nat.
Proof.
  revert attempt lastError. induction todo as [|todo IH]; intros attempt lastError.
  - simpl. lia.
  - destruct (value (fn attempt)) as [error|result] eqn:Hf.
    + destruct (retry_loop_failed_turn todo attempt lastError error Hf) as (_ & -> & _).
      simpl. specialize (IH (S attempt) (as_error error)). lia.
    + destruct (retry_loop_successful_turn todo attempt lastError result Hf) as (_ & -> & _).
      simpl. lia.
Qed.

Lemma retry_loop_first_success (todo attempt k : nat) (lastError : Thrown) (result : T) :
  (attempt <= k < attempt + todo)%nat ->
  (attempt + todo = S maxRetries)%nat ->
  (forall i, (attempt <= i < k)%nat -> exists e, value (fn i) = inl e) ->
  value (fn k) = inr result ->
  value (retry_loop fn name maxRetries todo attempt lastError) = inr result
  /\ invocations (trace (retry_loop fn name maxRetries todo attempt lastError))
     = seq attempt (S k - attempt)
  /\ sleeps (trace (retry_loop fn name maxRetries todo attempt lastError))
     = map backoff (seq attempt (k - attempt)).
Proof.
  revert attempt lastError.
  induction todo as [|todo IH]; intros attempt lastError Hk Hmax Hfail Hok; [lia|].
  destruct (Nat.eq_dec attempt k) as [->|Hne].
  - destruct (retry_loop_successful_turn todo k lastError result Hok) as (-> & -> & ->).
    replace (S k - k)%nat with 1%nat by lia. replace (k - k)%nat with 0%nat by lia.
    auto.
  - destruct (Hfail attempt) as [error Hf]; [lia|].
    destruct (retry_loop_failed_turn todo attempt lastError error Hf) as (-> & -> & -> & _).
    destruct (IH (S attempt) (as_error error)) as (-> & -> & ->); try lia; auto.
    { intros i Hi. apply Hfail. lia. }
    replace (attempt <? maxRetries)%nat with true by (symmetry; apply Nat.ltb_lt; lia).
    replace (S k - attempt)%nat with (S (S k - S attempt)) by lia.
    replace (k - attempt)%nat with (S (k - S attempt)) by lia.
    auto.
Qed.

Lemma retry_loop_all_fail (todo attempt : nat) (lastError error : Thrown) :
  (1 <= todo)%nat ->
  (attempt + todo = S maxRetries)%nat ->
  (forall i, (attempt <= i <= maxRetries)%nat -> exists e, value (fn i) = inl e) ->
  value (fn maxRetries) = inl error ->
  value (retry_loop fn name maxRetries todo attempt lastError) = inl (as_error error)
  /\ invocations (trace (retry_loop fn name maxRetries todo attempt lastError))
     = seq attempt todo
  /\ sleeps (trace (retry_loop fn name maxRetries todo attempt lastError))
     = map backoff (seq attempt (todo - 1))
  /\ exists before,
       trace (retry_loop fn name maxRetries todo attempt lastError)
       = (before
          ++ [Log LError
                (name ++ " failed after " ++ string_of_nat maxRetries ++ " attempts")
                (message_of error)])%list.
Proof.
  revert attempt lastError.
  induction todo as [|todo IH]; intros attempt lastError Htodo Hmax Hfail Hlast; [lia|].
  destruct (Hfail attempt) as [e Hf]; [lia|].
  destruct (retry_loop_failed_turn todo attempt lastError e Hf) as (-> & -> & -> & ->).
  destruct todo as [|todo].
  - assert (attempt = maxRetries) by lia. subst attempt.
    rewrite Hf in Hlast. injection Hlast as ->.
    rewrite Nat.ltb_irrefl.
    split; [reflexivity|]. split; [reflexivity|]. split; [reflexivity|].
    eexists. unfold on_failure. rewrite Nat.ltb_irrefl.
    change (trace (retry_loop fn name maxRetries 0 (S maxRetries) (as_error error)))
      with (@nil Event).
    rewrite app_nil_r, !app_assoc. reflexivity.
  - destruct (IH (S attempt) (as_error e)) as (-> & -> & -> & (before & ->)); try lia; auto.
    { intros i Hi. apply Hfail. lia. }
    replace (attempt <? maxRetries)%nat with true by (symmetry; apply Nat.ltb_lt; lia).
    replace (S todo - 0)%nat with (S todo) by lia.
    replace (S todo - 1)%nat with todo by lia.
    repeat split. eexists. rewrite !app_assoc. reflexivity.
Qed.

End RetryFacts.

Section RetryClaims.
Import JS Effects Retry.

(** The label of a retried call shows in its diagnostics only. *)
Lemma retry_loop_label_irrelevant {T : Type} (fn : nat -> Eff (Thrown + T))
    (name name' : string) (maxRetries todo : nat) :
  forall (attempt : nat) (lastError : Thrown),
  let a := retry_loop fn name maxRetries todo attempt lastError in
  let b := retry_loop fn name' maxRetries todo attempt lastError in
  value a = value b
  /\ requests (trace a) = requests (trace b)
  /\ sleeps (trace a) = sleeps (trace b)
  /\ invocations (trace a) = invocations (trace b).
Proof.
  induction todo as [|todo IH]; intros attempt lastError; [repeat split|].
  cbv zeta. rewrite !retry_loop_turn, !value_bind, !trace_bind.
  rewrite !requests_app, !sleeps_app, !invocations_app.
  destruct (value (fn attempt)) as [error|result]; [|repeat split].
  rewrite !value_bind, !trace_bind, !requests_app, !sleeps_app, !invocations_app.
  destruct (IH (S attempt) (as_error error)) as (-> & -> & -> & ->).
  unfold on_failure. destruct (attempt <? maxRetries)%nat; repeat split.
Qed.

Lemma http_call_plain {T : Type} (request : Request) (answer : nat -> Thrown + T) :
  plain (http_call request answer).
Proof. intros k. split; reflexivity. Qed.

(** C9 (amended): with [maxAttempts >= 1] the helper calls the operation at
    most [maxAttempts] times; when attempt [k] is the first to succeed it
    returns that result after calls [1 .. k], having slept [2^(a-1) * 1000]
    ms after each failed attempt [a < k]; when all [maxAttempts] attempts
    fail it throws the error of the last attempt (as an [Error], with its
    message unchanged), having slept [2^(a-1) * 1000] ms after each attempt
    [a < maxAttempts] and no more.  The label is not put on what is thrown:
    the helper returns or throws the same value under every label.  The
    label shows in the log lines only, the last of which, on exhaustion, is
    the error line "<label> failed after N attempts" with the message of the
    error. *)
Theorem retryWithBackoff_policy {T : Type}
    (fn : nat -> Eff (Thrown + T)) (name : string) (maxAttempts : nat) :
  (1 <= maxAttempts)%nat ->
  plain fn ->
  let run := retryWithBackoff fn name maxAttempts in
  (List.length (invocations (trace run)) <= maxAttempts)%nat
  /\ (forall k result,
        (1 <= k <= maxAttempts)%nat ->
        (forall i, (1 <= i < k)%nat -> exists e, value (fn i) = inl e) ->
        value (fn k) = inr result ->
        value run = inr result
        /\ invocations (trace run) = seq 1 k
        /\ sleeps (trace run)
           = map (fun a => (2 ^ (Z.of_nat a - 1) * 1000)%Z) (seq 1 (k - 1)))
  /\ (forall error,
        (forall i, (1 <= i <= maxAttempts)%nat -> exists e, value (fn i) = inl e) ->
        value (fn maxAttempts) = inl error ->
        value run = inl (as_error error)
        /\ invocations (trace run) = seq 1 maxAttempts
        /\ sleeps (trace run)
           = map (fun a => (2 ^ (Z.of_nat a - 1) * 1000)%Z) (seq 1 (maxAttempts - 1))
        /\ message_of (as_error error) = message_of error
        /\ exists before,
             trace run
             = (before
                ++ [Log LError
                      (name ++ " failed after " ++ string_of_nat maxAttempts ++ " attempts")
                      (message_of error)])%list)
  /\ (forall label, value (retryWithBackoff fn label maxAttempts) = value run).
Proof.
  intros Hmax Hplain run. subst run. unfold retryWithBackoff.
  split; [apply retry_loop_invocations_bound; assumption|].
  split; [|split].
  3:{ intros label. apply retry_loop_label_irrelevant. }
  - intros k result Hk Hfail Hok.
    destruct (retry_loop_first_success fn name maxAttempts Hplain maxAttempts 1 k
                (ThrownError "Unknown error") result) as (Hv & Hi & Hs);
      try assumption; try lia.
    rewrite Hv, Hi, Hs.
    replace (S k - 1)%nat with k by lia. auto.
  - intros error Hfail Hlast.
    destruct (retry_loop_all_fail fn name maxAttempts Hplain maxAttempts 1
                (ThrownError "Unknown error") error) as (Hv & Hi & Hs & Hlog);
      try assumption; try lia.
    repeat split; assumption.
Qed.

(** C9 as stated fails: what the helper throws carries no label.  The same
    failing request retried under two labels throws the same error, the
    one of the last attempt. *)
Lemma retry_error_carries_no_label :
  value (retryWithBackoff
           (http_call (GetShop "shop.com")
              (fun _ => inl (ThrownError "timeout") : Thrown + nat))
           "Shop info fetch for shop.com" 2)
  = inl (ThrownError "timeout")
  /\ value (retryWithBackoff
              (http_call (GetShop "shop.com")
                 (fun _ => inl (ThrownError "timeout") : Thrown + nat))
              "Storefront GraphQL fetch for shop.com" 2)
     = inl (ThrownError "timeout").
Proof. split; reflexivity. Qed.

Lemma retryWithBackoff_policy_witness :
  value (retryWithBackoff flaky_call "Shop info" 3) = inr 42%nat
  /\ invocations (trace (retryWithBackoff flaky_call "Shop info" 3)) = [1; 2; 3]%nat
  /\ sleeps (trace (retryWithBackoff flaky_call "Shop info" 3)) = [1000; 2000]%Z.
Proof.
  destruct (retryWithBackoff_policy flaky_call "Shop info" 3) as (_ & Hok & _).
  - lia.
  - apply http_call_plain.
  - apply (Hok 3%nat 42%nat).
    + lia.
    + intros i Hi. exists (ThrownOther "timeout").
      destruct i as [|[|[|i]]]; try lia; reflexivity.
    + reflexivity.
Defined.

Example retry_exhausted :
  retryWithBackoff
    (http_call (GetShop "shop.com") (fun _ => inl (ThrownOther "timeout") : Thrown + nat))
    "Shop info" 2
  = ([Log LDebug "Attempt 1/2 for Shop info" ""; Invoke "Shop info" 1;
      Http (GetShop "shop.com");
      Log LWarn "Shop info failed (attempt 1/2), retrying in 1000ms" "timeout";
      Sleep 1000;
      Log LDebug "Attempt 2/2 for Shop info" ""; Invoke "Shop info" 2;
      Http (GetShop "shop.com");
      Log LError "Shop info failed after 2 attempts" "timeout"],
     inl (ThrownError "timeout")).
Proof. reflexivity. Qed.

Example retry_no_attempts :
  retryWithBackoff flaky_call "Shop info" 0 = ([], inl (ThrownError "Unknown error")).
Proof. reflexivity. Qed.

End RetryClaims.

(** ** The paginated scraper *)

Section ScraperFacts.
Import JS Effects Retry ShopifyScraper.

Lemma extract_variants_filter (vs all : list ShopifyVariant.t) :
  extract_variants vs all = (all ++ filter valid_variant vs)%list.
Proof.
  unfold extract_variants. revert all.
  induction vs as [|v vs IH]; intros all; simpl; [now rewrite app_nil_r|].
  rewrite IH. destruct (valid_variant v); [|reflexivity].
  now rewrite <- app_assoc.
Qed.

Lemma process_product_step (acc : Acc) (p : ShopifyProduct.t) :
  process_product acc p
  = if has_title p
    then {| allProducts := (allProducts acc ++ [p])%list;
            allVariants := (allVariants acc ++ accepted_variants p)%list;
            failed := failed acc |}
    else {| allProducts := allProducts acc;
            allVariants := allVariants acc;
            failed := (failed acc ++ [missing_title p])%list |}.
Proof.
  unfold process_product, has_title, accepted_variants, missing_title.
  destruct (ShopifyProduct.title p) as [[|c t]|]; try reflexivity.
  cbn [truthy negb]. f_equal.
  destruct (ShopifyProduct.variants p) as [vs|].
  - apply extract_variants_filter.
  - now rewrite app_nil_r.
Qed.

(** The products of a page, one after the other. *)
Lemma process_products (ps : list ShopifyProduct.t) (acc : Acc) :
  fold_left process_product ps acc
  = {| allProducts := (allProducts acc ++ filter has_title ps)%list;
       allVariants :=
         (allVariants acc ++ flat_map accepted_variants (filter has_title ps))%list;
       failed :=
         (failed acc
          ++ map missing_title (filter (fun p => negb (has_title p)) ps))%list |}.
Proof.
  revert acc. induction ps as [|p ps IH]; intros acc.
  - cbn [fold_left filter flat_map map]. rewrite !app_nil_r. now destruct acc.
  - cbn [fold_left filter]. rewrite IH, process_product_step.
    destruct (has_title p); cbn [negb allProducts allVariants failed flat_map map];
      rewrite <- ?app_assoc; reflexivity.
Qed.

Lemma retry_loop_requests {T : Type} (request : Request) (answer : nat -> Thrown + T)
    (name : string) (maxRetries todo attempt : nat) (lastError : Thrown) :
  Forall (eq request)
    (requests (trace (retry_loop (http_call request answer) name maxRetries
                        todo attempt lastError))).
Proof.
  revert attempt lastError. induction todo as [|todo IH]; intros attempt lastError.
  - constructor.
  - rewrite retry_loop_turn, !trace_bind, !requests_app.
    change (value (http_call request answer attempt)) with (answer attempt).
    apply Forall_app. split; [constructor|].
    apply Forall_app. split; [constructor|].
    apply Forall_app. split; [repeat constructor|].
    destruct (answer attempt) as [error|result]; [|constructor].
    rewrite trace_bind, requests_app. apply Forall_app. split; [|apply IH].
    unfold on_failure. destruct (attempt <? maxRetries)%nat; constructor.
Qed.

End ScraperFacts.

Section ScrapeRun.
Import JS Effects Retry ShopifyScraper.
Variable MAX_RETRIES : nat.
Variable RATE_LIMIT_DELAY : Z.
Variable domain : string.
Variable feed : nat -> nat -> Thrown + ShopifyProductsResponse.

Local Abbreviation scrape_pages' := (scrape_pages MAX_RETRIES RATE_LIMIT_DELAY domain feed).
Local Abbreviation fetch_page' := (fetch_page MAX_RETRIES domain feed).
Local Abbreviation page_products' := (page_products MAX_RETRIES domain feed).
Local Abbreviation page_list' := (page_list MAX_RETRIES domain feed).

Lemma scrape_pages_turn (fuel page : nat) (acc : Acc) :
  scrape_pages' (S fuel) page acc
  = (r <- fetch_page' page;;
     match r with
     | inl _ => ret (Some (acc, page))
     | inr result =>
         match response_products result with
         | None => ret (Some (acc, page))
         | Some [] => ret (Some (acc, page))
         | Some ((_ :: _) as products) =>
             emit (Sleep RATE_LIMIT_DELAY);;
             scrape_pages' fuel (S page) (fold_left process_product products acc)
         end
     end)%eff.
Proof. reflexivity. Qed.

(** A page with products: the loop sleeps and goes on to the next page. *)
Lemma scrape_pages_continue (fuel page : nat) (acc : Acc) (ps : list ShopifyProduct.t) :
  page_products' page = Some ps ->
  value (scrape_pages' (S fuel) page acc)
  = value (scrape_pages' fuel (S page) (fold_left process_product ps acc))
  /\ trace (scrape_pages' (S fuel) page acc)
     = (trace (fetch_page' page) ++ [Sleep RATE_LIMIT_DELAY]
        ++ trace (scrape_pages' fuel (S page) (fold_left process_product ps acc)))%list.
Proof.
  unfold page_products. intros H.
  rewrite scrape_pages_turn, value_bind, trace_bind.
  destruct (value (fetch_page' page)) as [e|result]; [discriminate|].
  destruct (response_products result) as [[|p ps']|]; try discriminate.
  injection H as <-. now rewrite value_bind, trace_bind.
Qed.

(** A page that failed or holds no product: the loop ends there. *)
Lemma scrape_pages_stop (fuel page : nat) (acc : Acc) :
  page_products' page = None ->
  value (scrape_pages' (S fuel) page acc) = Some (acc, page)
  /\ trace (scrape_pages' (S fuel) page acc) = trace (fetch_page' page).
Proof.
  unfold page_products. intros H.
  rewrite scrape_pages_turn, value_bind, trace_bind.
  destruct (value (fetch_page' page)) as [e|result].
  - split; [reflexivity|apply app_nil_r].
  - destruct (response_products result) as [[|p ps']|]; try discriminate;
      (split; [reflexivity|apply app_nil_r]).
Qed.

Lemma fetch_page_requests (page : nat) :
  Forall (eq (GetProducts domain page)) (requests (trace (fetch_page' page))).
Proof. apply retry_loop_requests. Qed.

Lemma scrape_pages_run (n : nat) : forall (fuel page : nat) (acc : Acc),
  (forall p, (page <= p < page + n)%nat -> page_products' p <> None) ->
  ((fuel <= n)%nat -> value (scrape_pages' fuel page acc) = None)
  /\ (page_products' (page + n) = None -> (n < fuel)%nat ->
      value (scrape_pages' fuel page acc)
      = Some (fold_left process_product (flat_map page_list' (seq page n)) acc,
              (page + n)%nat)
      /\ Forall (fun r => exists p, r = GetProducts domain p /\ (page <= p <= page + n)%nat)
           (requests (trace (scrape_pages' fuel page acc)))).
Proof.
  induction n as [|n IH]; intros fuel page acc Hgo.
  - split.
    + intros Hf. assert (fuel = 0%nat) by lia. now subst.
    + rewrite Nat.add_0_r. intros Hstop Hf.
      destruct fuel as [|fuel]; [lia|].
      destruct (scrape_pages_stop fuel page acc Hstop) as [-> ->].
      split; [reflexivity|].
      eapply Forall_impl; [|apply fetch_page_requests].
      intros r <-. exists page. split; [reflexivity|lia].
  - destruct (page_products' page) as [ps|] eqn:Hp; [|destruct (Hgo page); [lia|exact Hp]].
    assert (Hlist : page_list' page = ps) by (unfold page_list; now rewrite Hp).
    assert (Hgo' : forall p, (S page <= p < S page + n)%nat -> page_products' p <> None).
    { intros p Hr. apply Hgo. lia. }
    split.
    + intros Hf. destruct fuel as [|fuel]; [reflexivity|].
      destruct (scrape_pages_continue fuel page acc ps Hp) as [-> _].
      apply (IH fuel (S page) _ Hgo'). lia.
    + intros Hstop Hf. destruct fuel as [|fuel]; [lia|].
      destruct (scrape_pages_continue fuel page acc ps Hp) as [-> ->].
      replace (page + S n)%nat with (S page + n)%nat in * by lia.
      destruct (proj2 (IH fuel (S page) (fold_left process_product ps acc) Hgo'))
        as [Hv Hr]; [assumption|lia|].
      rewrite Hv. split.
      * cbn [seq flat_map]. now rewrite Hlist, fold_left_app.
      * rewrite !requests_app. apply Forall_app. split; [|apply Forall_app; split].
        -- eapply Forall_impl; [|apply fetch_page_requests].
           intros r <-. exists page. split; [reflexivity|lia].
        -- constructor.
        -- eapply Forall_impl; [|exact Hr].
           intros r (p & -> & Hb). exists p. split; [reflexivity|lia].
Qed.

(** Whatever the loop ends with was built from fetched products. *)
Lemma scrape_pages_accumulates (fuel : nat) : forall (page : nat) (acc acc' : Acc) (page' : nat),
  value (scrape_pages' fuel page acc) = Some (acc', page') ->
  exists fetched, acc' = fold_left process_product fetched acc.
Proof.
  induction fuel as [|fuel IH]; intros page acc acc' page' H; [discriminate|].
  destruct (page_products' page) as [ps|] eqn:Hp.
  - destruct (scrape_pages_continue fuel page acc ps Hp) as [Hv _].
    rewrite Hv in H. destruct (IH _ _ _ _ H) as [fetched ->].
    exists (ps ++ fetched)%list. now rewrite fold_left_app.
  - destruct (scrape_pages_stop fuel page acc Hp) as [Hv _].
    rewrite Hv in H. injection H as <- _. now exists [].
Qed.

End ScrapeRun.

Section ScraperClaims.
Import JS Effects Retry ShopifyScraper.

Example scrape_sample_feed :
  value (scrapeShopifyProducts 2 2000 "shop.com" sample_feed 5)
  = Some {| products := [titled_product];
            variants := [variant_titled (Some "Blue")];
            failedProducts := [{| failure_title := "Unknown";
                                  failure_error := "Product missing title" |}];
            totalPages := 1 |}
  /\ requests (trace (scrapeShopifyProducts 2 2000 "shop.com" sample_feed 5))
     = [GetProducts "shop.com" 1; GetProducts "shop.com" 1; GetProducts "shop.com" 2]
  /\ sleeps (trace (scrapeShopifyProducts 2 2000 "shop.com" sample_feed 5))
     = [1000; 2000]%Z.
Proof. repeat split. Qed.

(** C8: let pages [1 .. n] each be fetched with one product or more.  Then
    the scraper has not stopped after [n] turns; and if page [n + 1] fails
    all its attempts or holds no product, the scraper stops there: it
    returns the titled products of pages [1 .. n], their variants that have
    id and title, one failure for each product without title, and [n] as
    the count of pages, and it has requested no page beyond [n + 1]. *)
Theorem scrape_stops_at_first_terminal_page
    (MAX_RETRIES : nat) (RATE_LIMIT_DELAY : Z) (domain : string)
    (feed : nat -> nat -> Thrown + ShopifyProductsResponse) (n : nat) :
  (forall p, (1 <= p <= n)%nat -> page_products MAX_RETRIES domain feed p <> None) ->
  (forall fuel, (fuel <= n)%nat ->
     value (scrapeShopifyProducts MAX_RETRIES RATE_LIMIT_DELAY domain feed fuel) = None)
  /\ (page_products MAX_RETRIES domain feed (S n) = None ->
      forall fuel, (n < fuel)%nat ->
        let run := scrapeShopifyProducts MAX_RETRIES RATE_LIMIT_DELAY domain feed fuel in
        let fetched := flat_map (page_list MAX_RETRIES domain feed) (seq 1 n) in
        value run
        = Some {| products := filter has_title fetched;
                  variants := flat_map accepted_variants (filter has_title fetched);
                  failedProducts :=
                    map missing_title (filter (fun p => negb (has_title p)) fetched);
                  totalPages := n |}
        /\ Forall (fun r => exists p, r = GetProducts domain p /\ (1 <= p <= S n)%nat)
             (requests (trace run))).
Proof.
  intros Hgo.
  assert (Hgo' : forall p, (1 <= p < 1 + n)%nat ->
                   page_products MAX_RETRIES domain feed p <> None).
  { intros p Hp. apply Hgo. lia. }
  split.
  - intros fuel Hf. unfold scrapeShopifyProducts. rewrite value_bind.
    now rewrite (proj1 (scrape_pages_run MAX_RETRIES RATE_LIMIT_DELAY domain feed
                          n fuel 1 _ Hgo') Hf).
  - intros Hstop fuel Hf run fetched. subst run. unfold scrapeShopifyProducts.
    rewrite value_bind, trace_bind.
    destruct (proj2 (scrape_pages_run MAX_RETRIES RATE_LIMIT_DELAY domain feed
                       n fuel 1 {| allProducts := []; allVariants := []; failed := [] |}
                       Hgo') Hstop Hf) as [Hv Hr].
    rewrite Hv. split.
    + fold fetched. rewrite process_products.
      cbn [allProducts allVariants failed app option_map value ret snd].
      now replace (1 + n - 1)%nat with n by lia.
    + rewrite requests_app. apply Forall_app. split; [exact Hr|constructor].
Qed.

Lemma scrape_stops_at_first_terminal_page_witness :
  value (scrapeShopifyProducts 2 2000 "shop.com" sample_feed 5)
  = Some {| products := [titled_product];
            variants := [variant_titled (Some "Blue")];
            failedProducts := [missing_title untitled_product];
            totalPages := 1 |}.
Proof.
  assert (Hgo : forall p, (1 <= p <= 1)%nat -> page_products 2 "shop.com" sample_feed p <> None).
  { intros p Hp. assert (p = 1%nat) by lia. subst p. discriminate. }
  exact (proj1 (proj2 (scrape_stops_at_first_terminal_page 2 2000 "shop.com" sample_feed 1 Hgo)
                  eq_refl 5%nat ltac:(lia))).
Defined.

(** C10: in a result of the scraper, every variant comes from the variant
    list of a product that has a title and is itself in the returned product
    list. *)
Theorem scraped_variants_have_parent
    (MAX_RETRIES : nat) (RATE_LIMIT_DELAY : Z) (domain : string)
    (feed : nat -> nat -> Thrown + ShopifyProductsResponse)
    (fuel : nat) (result : ScraperResult) :
  value (scrapeShopifyProducts MAX_RETRIES RATE_LIMIT_DELAY domain feed fuel) = Some result ->
  forall variant, In variant (variants result) ->
    exists product vs,
      In product (products result)
      /\ has_title product = true
      /\ ShopifyProduct.variants product = Some vs
      /\ In variant vs.
Proof.
  unfold scrapeShopifyProducts. rewrite value_bind.
  destruct (value (scrape_pages MAX_RETRIES RATE_LIMIT_DELAY domain feed fuel 1 _))
    as [[acc page]|] eqn:Hv; [|discriminate].
  intros H. injection H as <-. cbn [products variants].
  destruct (scrape_pages_accumulates _ _ _ _ _ _ _ _ _ Hv) as [fetched ->].
  rewrite process_products. cbn [allProducts allVariants app].
  intros variant Hin. apply in_flat_map in Hin as (product & Hp & Hvar).
  unfold accepted_variants in Hvar.
  destruct (ShopifyProduct.variants product) as [vs|] eqn:Evs; [|destruct Hvar].
  apply filter_In in Hvar as [Hvar _].
  exists product, vs. repeat split; try assumption.
  now apply filter_In in Hp as [_ Hp].
Qed.

Lemma scraped_variants_have_parent_witness :
  exists product vs,
    In product [titled_product]
    /\ ShopifyScraper.has_title product = true
    /\ ShopifyProduct.variants product = Some vs
    /\ In (variant_titled (Some "Blue")) vs.
Proof.
  apply (scraped_variants_have_parent 2 2000 "shop.com" sample_feed 5
           {| products := [titled_product];
              variants := [variant_titled (Some "Blue")];
              failedProducts := [missing_title untitled_product];
              totalPages := 1 |}).
  - reflexivity.
  - now left.
Defined.

End ScraperClaims.

(** ** Shop information *)

Section ShopInfoClaims.
Import JS Effects Retry ShopifyDetector.

Example shop_info_examples :
  value (getShopInfo 3 "shop.com" euro_shop_json branded_storefront)
  = {| currency := "EUR"; name := Some "Shop"; info_shop_owner := None;
       logo_url := Some "https://cdn.shop.com/logo.png";
       description := Some "All things tee" |}
  /\ value (getShopInfo 3 "shop.com" euro_shop_json failing_storefront)
     = {| currency := "EUR"; name := Some "Shop"; info_shop_owner := None;
          logo_url := None; description := None |}
  /\ value (getShopInfo 3 "shop.com" failing_shop_json branded_storefront)
     = {| currency := "USD"; name := None; info_shop_owner := None;
          logo_url := None; description := None |}.
Proof. repeat split. Qed.

(** C3 (amended): [getShopInfo] always returns a record.  When the fetch of
    [/shop.json] fails all its attempts, or answers without a shop object,
    the record is [{ currency: "USD" }] alone and the storefront is never
    asked for branding.  When it yields a shop, the currency (the shop's, or
    "USD"), name and owner are those of the shop whatever the branding fetch
    does, and logo and description are those the branding fetch returns, or
    null. *)
Theorem getShopInfo_fallbacks
    (MAX_RETRIES : nat) (domain : string)
    (shop_json : nat -> Thrown + ShopResponse)
    (storefront : nat -> Thrown + StorefrontResponse) :
  let run := getShopInfo MAX_RETRIES domain shop_json storefront in
  (fetched_shop MAX_RETRIES domain shop_json = None ->
   value run = default_info
   /\ ~ In (PostStorefront domain) (requests (trace run)))
  /\ (forall shop,
        fetched_shop MAX_RETRIES domain shop_json = Some shop ->
        let branding := value (getShopBranding MAX_RETRIES domain storefront) in
        value run
        = {| currency := or_default (shop_currency shop) "USD";
             name := shop_name shop;
             info_shop_owner := shop_owner shop;
             logo_url := or_null (branding_logo_url branding);
             description := or_null (branding_description branding) |}).
Proof.
  intros run. subst run. unfold getShopInfo, fetched_shop.
  rewrite value_bind, trace_bind.
  pose proof (retry_loop_requests (GetShop domain) shop_json
                ("Shop info fetch for " ++ domain) MAX_RETRIES MAX_RETRIES 1
                (ThrownError "Unknown error")) as Hreq.
  fold (retryWithBackoff (http_call (GetShop domain) shop_json)
          ("Shop info fetch for " ++ domain) MAX_RETRIES) in Hreq.
  assert (Hno : ~ In (PostStorefront domain)
                  (requests (trace (retryWithBackoff (http_call (GetShop domain) shop_json)
                                      ("Shop info fetch for " ++ domain) MAX_RETRIES)
                             ++ []))).
  { rewrite app_nil_r. intros Hin. rewrite Forall_forall in Hreq.
    specialize (Hreq _ Hin). discriminate. }
  destruct (value (retryWithBackoff (http_call (GetShop domain) shop_json)
                     ("Shop info fetch for " ++ domain) MAX_RETRIES))
    as [e|[body|]].
  - split; [intros _; split; [reflexivity|exact Hno]|discriminate].
  - destruct (shop body) as [s|].
    + split; [discriminate|]. intros shop0 H. injection H as <-.
      now rewrite value_bind.
    + split; [intros _; split; [reflexivity|exact Hno]|discriminate].
  - split; [intros _; split; [reflexivity|exact Hno]|discriminate].
Qed.

Lemma getShopInfo_fallbacks_witness :
  value (getShopInfo 3 "shop.com" euro_shop_json failing_storefront)
  = {| currency := "EUR"; name := Some "Shop"; info_shop_owner := None;
       logo_url := None; description := None |}.
Proof.
  exact (proj2 (getShopInfo_fallbacks 3 "shop.com" euro_shop_json failing_storefront)
           (mkShop (Some "EUR") (Some "Shop") None) eq_refl).
Defined.

(** C3 as stated fails when the fetch of [/shop.json] fails: the branding
    fetch would return a logo, the record has none (and the storefront was
    not asked). *)
Lemma shop_info_failure_drops_branding :
  branding_logo_url (value (getShopBranding 3 "shop.com" branded_storefront))
  = Some "https://cdn.shop.com/logo.png"
  /\ logo_url (value (getShopInfo 3 "shop.com" failing_shop_json branded_storefront))
     = None
  /\ requests (trace (getShopInfo 3 "shop.com" failing_shop_json branded_storefront))
     = [GetShop "shop.com"; GetShop "shop.com"; GetShop "shop.com"].
Proof. repeat split. Qed.

End ShopInfoClaims.

(** ** The batched sync *)

Section ListFacts.

Lemma firstn_add {A : Type} (a b : nat) (l : list A) :
  firstn (a + b) l = (firstn a l ++ firstn b (skipn a l))%list.
Proof.
  revert l. induction a as [|a IH]; intros l; [reflexivity|].
  destruct l as [|x l]; simpl.
  - now rewrite firstn_nil.
  - now rewrite IH.
Qed.

(** Consecutive chunks of [n] elements make up a prefix. *)
Lemma concat_chunks {A : Type} (n m : nat) (l : list A) :
  List.concat (map (fun k => firstn n (skipn (k * n) l)) (seq 0 m)) = firstn (m * n) l.
Proof.
  induction m as [|m IH]; [reflexivity|].
  rewrite seq_S, map_app, concat_app, IH. simpl.
  rewrite app_nil_r, <- firstn_add. f_equal. lia.
Qed.

Lemma ceil_div_bounds (len n : nat) :
  (0 < n)%nat ->
  (len <= (len + (n - 1)) / n * n)%nat
  /\ (forall k, (k < (len + (n - 1)) / n)%nat <-> (k * n < len)%nat).
Proof.
  intros Hn.
  pose proof (Nat.div_mod_eq (len + (n - 1)) n) as E.
  pose proof (Nat.mod_upper_bound (len + (n - 1)) n ltac:(lia)) as Hr.
  set (q := ((len + (n - 1)) / n)%nat) in *.
  set (r := ((len + (n - 1)) mod n)%nat) in *.
  split; [nia|].
  intros k. split; intros H; nia.
Qed.

End ListFacts.

Section SyncFacts.
Import JS Effects Retry GraphqlClient.
Variable MAX_RETRIES : nat.
Variable token : string.
Variable data : ScrapedStoreData.t.
Variable api : nat -> nat -> Thrown + SyncResponse.

Local Abbreviation total := (totalProducts data).
Local Abbreviation batches := (totalBatches data).
Local Abbreviation send := (send_batch MAX_RETRIES token data api).
Local Abbreviation loop := (sync_batches MAX_RETRIES token data api).
Local Abbreviation request_of := (batch_request token data).

Lemma productBatch_firstn (i : nat) :
  productBatch data i = firstn BATCH_SIZE (skipn i (ScrapedStoreData.products data)).
Proof.
  unfold productBatch, slice, totalProducts.
  set (l := ScrapedStoreData.products data).
  destruct (Nat.le_gt_cases (i + BATCH_SIZE) (List.length l)) as [H|H].
  - rewrite Nat.min_l by assumption. f_equal. lia.
  - rewrite Nat.min_r by lia.
    rewrite !firstn_all2; try reflexivity; rewrite length_skipn; lia.
Qed.

Lemma productBatch_length (i : nat) :
  List.length (productBatch data i) = Nat.min BATCH_SIZE (total - i).
Proof.
  rewrite productBatch_firstn, length_firstn, length_skipn. reflexivity.
Qed.

Lemma batch_starts_spec (i : nat) :
  In i (batch_starts data) <-> exists k, i = (k * BATCH_SIZE)%nat /\ (i < total)%nat.
Proof.
  unfold batch_starts. rewrite in_map_iff.
  destruct (ceil_div_bounds total BATCH_SIZE ltac:(unfold BATCH_SIZE; lia)) as [_ Hk].
  split.
  - intros (k & <- & Hin). apply in_seq in Hin. exists k. split; [reflexivity|].
    apply Hk. unfold totalBatches in Hin. lia.
  - intros (k & -> & Hlt). exists k. split; [reflexivity|].
    apply in_seq. apply Hk in Hlt. unfold totalBatches. lia.
Qed.

(** The batches are consecutive, cover the product list, and hold between
    one and [BATCH_SIZE] products each. *)
Lemma batches_partition :
  List.concat (map (productBatch data) (batch_starts data)) = ScrapedStoreData.products data
  /\ (forall i, In i (batch_starts data) ->
        (1 <= List.length (productBatch data i) <= BATCH_SIZE)%nat).
Proof.
  split.
  - unfold batch_starts. rewrite map_map.
    rewrite (map_ext _ (fun k => firstn BATCH_SIZE
                                   (skipn (k * BATCH_SIZE) (ScrapedStoreData.products data))))
      by (intros k; apply productBatch_firstn).
    rewrite concat_chunks. apply firstn_all2.
    destruct (ceil_div_bounds total BATCH_SIZE ltac:(unfold BATCH_SIZE; lia)) as [H _].
    exact H.
  - intros i Hi. apply batch_starts_spec in Hi as (k & _ & Hlt).
    rewrite productBatch_length. unfold BATCH_SIZE. lia.
Qed.

Lemma variantBatch_spec (batch : list CloreProduct.t) (v : CloreProductVariant.t) :
  In v (variantBatch data batch)
  <-> In v (ScrapedStoreData.product_variants data)
      /\ exists p, In p batch
                   /\ CloreProduct.shopify_id p = CloreProductVariant.shopify_product_id v.
Proof.
  unfold variantBatch. rewrite filter_In, existsb_exists.
  split; intros [Hv (p & Hp & E)]; (split; [exact Hv|exists p; split; [exact Hp|]]).
  - now apply String.eqb_eq.
  - now apply String.eqb_eq.
Qed.

Lemma sync_batches_turn (fuel i : nat) (st : SyncState) :
  loop (S fuel) i st
  = if (i <? total)%nat then
      (r <- send i;;
       match r with
       | inl error => ret (inl error)
       | inr result =>
           loop fuel (i + BATCH_SIZE)%nat (handle_response (batchNum i) st result)
       end)%eff
    else ret (inr st).
Proof. reflexivity. Qed.

Lemma send_batch_requests (i : nat) :
  Forall (eq (request_of i)) (requests (trace (send i))).
Proof. apply retry_loop_requests. Qed.

Lemma retry_loop_answered_requested {T : Type} (request : Request)
    (answer : nat -> Thrown + T) (name : string) (maxRetries : nat) :
  forall (todo attempt : nat) (lastError : Thrown) (result : T),
  value (retry_loop (http_call request answer) name maxRetries todo attempt lastError)
  = inr result ->
  In request
    (requests (trace (retry_loop (http_call request answer) name maxRetries
                        todo attempt lastError))).
Proof.
  induction todo as [|todo IH]; intros attempt lastError result; [discriminate|].
  rewrite retry_loop_turn, !value_bind, !trace_bind, !requests_app.
  change (value (http_call request answer attempt)) with (answer attempt).
  intros H. apply in_or_app. right. apply in_or_app. right. apply in_or_app.
  destruct (answer attempt) as [error|r]; [right|left; now left].
  rewrite value_bind in H. rewrite trace_bind, requests_app.
  apply in_or_app. right. eapply IH. exact H.
Qed.

Lemma sync_batches_run (d : nat) : forall (fuel k : nat) (st : SyncState),
  (batches - k = d)%nat ->
  (total - k * BATCH_SIZE <= BATCH_SIZE * fuel)%nat ->
  let starts := map (fun j => (j * BATCH_SIZE)%nat) (seq k d) in
  let run := loop fuel (k * BATCH_SIZE)%nat st in
  value run = run_batches MAX_RETRIES token data api starts st
  /\ Forall (fun r => exists i, In i starts /\ r = request_of i) (requests (trace run))
  /\ (forall st', value run = inr st' ->
        forall i, In i starts -> In (request_of i) (requests (trace run))).
Proof.
  destruct (ceil_div_bounds total BATCH_SIZE ltac:(unfold BATCH_SIZE; lia)) as [_ Hk].
  fold batches in Hk.
  induction d as [|d IH]; intros fuel k st Hd Hfuel starts run; subst starts run.
  - assert (Hge : (total <= k * BATCH_SIZE)%nat).
    { destruct (Nat.le_gt_cases total (k * BATCH_SIZE)) as [H|H]; [exact H|].
      apply Hk in H. lia. }
    assert (Hloop : loop fuel (k * BATCH_SIZE)%nat st = ret (inr st)).
    { destruct fuel as [|fuel]; [reflexivity|].
      rewrite sync_batches_turn.
      now replace (k * BATCH_SIZE <? total)%nat with false
        by (symmetry; apply Nat.ltb_ge; exact Hge). }
    rewrite Hloop. repeat split; [constructor|intros _ _ i []].
  - assert (Hlt : (k * BATCH_SIZE < total)%nat) by (apply Hk; lia).
    destruct fuel as [|fuel]; [unfold BATCH_SIZE in *; lia|].
    rewrite sync_batches_turn.
    replace (k * BATCH_SIZE <? total)%nat with true
      by (symmetry; apply Nat.ltb_lt; exact Hlt).
    rewrite value_bind, trace_bind, requests_app.
    cbn [seq map run_batches].
    pose proof (send_batch_requests (k * BATCH_SIZE)) as Hreq.
    assert (Hsent : forall resp, value (send (k * BATCH_SIZE)%nat) = inr resp ->
                      In (request_of (k * BATCH_SIZE)%nat)
                        (requests (trace (send (k * BATCH_SIZE)%nat)))).
    { intros resp. apply retry_loop_answered_requested. }
    destruct (value (send (k * BATCH_SIZE)%nat)) as [error|resp] eqn:Ev.
    + split; [reflexivity|]. split; [|discriminate].
      apply Forall_app. split; [|constructor].
      eapply Forall_impl; [|exact Hreq].
      intros r <-. exists (k * BATCH_SIZE)%nat. split; [now left|reflexivity].
    + replace (k * BATCH_SIZE + BATCH_SIZE)%nat with (S k * BATCH_SIZE)%nat by lia.
      destruct (IH fuel (S k) (handle_response (batchNum (k * BATCH_SIZE)) st resp))
        as (Hv & Hr & Hall); [lia|unfold BATCH_SIZE in *; lia|].
      split; [exact Hv|]. split.
      * apply Forall_app. split.
        -- eapply Forall_impl; [|exact Hreq].
           intros r <-. exists (k * BATCH_SIZE)%nat. split; [now left|reflexivity].
        -- eapply Forall_impl; [|exact Hr].
           intros r (i & Hi & ->). exists i. split; [now right|reflexivity].
      * intros st' Hst i [<-|Hi]; apply in_or_app.
        -- left. now apply (Hsent resp).
        -- right. now apply (Hall st').
Qed.

End SyncFacts.

Section RunBatches.
Import JS Effects Retry GraphqlClient.
Variable MAX_RETRIES : nat.
Variable token : string.
Variable data : ScrapedStoreData.t.
Variable api : nat -> nat -> Thrown + SyncResponse.

Local Abbreviation send := (send_batch MAX_RETRIES token data api).
Local Abbreviation run_list := (run_batches MAX_RETRIES token data api).

Lemma handle_response_errors (n : nat) (st : SyncState) (resp : SyncResponse) :
  allErrors (handle_response n st resp) = (allErrors st ++ batch_errors n resp)%list.
Proof.
  unfold handle_response, batch_errors.
  destruct (response_errors resp) as [errs|]; [reflexivity|].
  destruct (response_data resp) as [mutation|]; [|reflexivity].
  destruct (success mutation); [|reflexivity].
  cbn [negb allErrors].
  destruct (errors mutation) as [[|e es]|]; try reflexivity; now rewrite app_nil_r.
Qed.

Lemma run_batches_answered (starts : list nat) : forall (st : SyncState),
  (forall i, In i starts -> exists resp, value (send i) = inr resp) ->
  exists st',
    run_list starts st = inr st'
    /\ allErrors st'
       = (allErrors st
          ++ flat_map (fun i => match value (send i) with
                                | inr resp => batch_errors (batchNum i) resp
                                | inl _ => []
                                end) starts)%list.
Proof.
  induction starts as [|i starts IH]; intros st Hall.
  - exists st. split; [reflexivity|]. simpl. now rewrite app_nil_r.
  - destruct (Hall i (or_introl eq_refl)) as [resp Hr].
    cbn [run_batches flat_map]. rewrite Hr.
    destruct (IH (handle_response (batchNum i) st resp)) as (st' & Hrun & Herr).
    { intros j Hj. apply Hall. now right. }
    exists st'. split; [exact Hrun|].
    now rewrite Herr, handle_response_errors, <- app_assoc.
Qed.


End RunBatches.

Section SyncStops.
Import JS Effects Retry GraphqlClient.
Variable MAX_RETRIES : nat.
Variable token : string.
Variable data : ScrapedStoreData.t.
Variable api : nat -> nat -> Thrown + SyncResponse.

Local Abbreviation send := (send_batch MAX_RETRIES token data api).
Local Abbreviation loop := (sync_batches MAX_RETRIES token data api).



End SyncStops.

Section SyncClaims.
Import JS Effects Retry GraphqlClient.

Example sync_sample_run :
  value (syncScrapedStoreAndProducts 3 "token" (sample_data 45) sample_api)
  = {| outcome_success := false;
       outcome_message := "Sync completed with 1 errors";
       outcome_result :=
         Some {| success := false;
                 message := "Sync completed with errors";
                 storeId := Some "store-1";
                 productsCreated := 40;
                 variantsCreated := 12;
                 errors := Some ["Batch 2: Payload too large, Try again"] |} |}
  /\ map (fun r => match r with
                   | PostSync _ _ ps vs => (List.length ps, List.length vs)
                   | _ => (0, 0)%nat
                   end)
       (requests (trace (syncScrapedStoreAndProducts 3 "token" (sample_data 45) sample_api)))
     = [(20, 6); (20, 7); (5, 2)]%nat.
Proof. vm_compute. split; reflexivity. Qed.

Lemma sync_value (MAX_RETRIES : nat) (token : string) (data : ScrapedStoreData.t)
    (api : nat -> nat -> Thrown + SyncResponse) :
  value (syncScrapedStoreAndProducts MAX_RETRIES token data api)
  = match run_batches MAX_RETRIES token data api (batch_starts data) initial_state with
    | inr st => summary st
    | inl error =>
        {| outcome_success := false;
           outcome_message := "Sync error: " ++ message_of error;
           outcome_result := None |}
    end.
Proof.
  unfold syncScrapedStoreAndProducts. rewrite value_bind.
  destruct (sync_batches_run MAX_RETRIES token data api (totalBatches data)
              (totalProducts data) 0 initial_state) as (Hv & _).
  { lia. }
  { unfold BATCH_SIZE. simpl. lia. }
  change (0 * BATCH_SIZE)%nat with 0%nat in Hv. rewrite Hv.
  fold (batch_starts data).
  now destruct (run_batches MAX_RETRIES token data api (batch_starts data) initial_state).
Qed.



Lemma sample_api_all_answered : all_answered 3 "token" (sample_data 45) sample_api.
Proof.
  intros i Hi. vm_compute in Hi.
  destruct Hi as [<-|[<-|[<-|[]]]]; eexists; vm_compute; reflexivity.
Defined.


(** C2: the batches the sync submits are consecutive slices of the product
    list of at most 20 products (and at least one) that together make up the
    list, of sizes 20, 20 and 5 for 45 products; every request carries the
    store, one of these batches, and exactly the variants whose parent
    product id is the id of a product of that batch; and when every request
    returns within its attempts, every batch is submitted. *)
Theorem sync_batches_partition
    (MAX_RETRIES : nat) (token : string) (data : ScrapedStoreData.t)
    (api : nat -> nat -> Thrown + SyncResponse) :
  let run := syncScrapedStoreAndProducts MAX_RETRIES token data api in
  List.concat (map (productBatch data) (batch_starts data)) = ScrapedStoreData.products data
  /\ (forall i, In i (batch_starts data) ->
        (1 <= List.length (productBatch data i) <= 20)%nat
        /\ productBatch data i = firstn 20 (skipn i (ScrapedStoreData.products data)))
  /\ (List.length (ScrapedStoreData.products data) = 45%nat ->
      map (fun i => List.length (productBatch data i)) (batch_starts data)
      = [20; 20; 5]%nat)
  /\ Forall (fun r => exists i,
                 In i (batch_starts data)
                 /\ r = PostSync token (ScrapedStoreData.store data) (productBatch data i)
                          (variantBatch data (productBatch data i)))
       (requests (trace run))
  /\ (forall batch v,
        In v (variantBatch data batch)
        <-> In v (ScrapedStoreData.product_variants data)
            /\ exists p, In p batch
                         /\ CloreProduct.shopify_id p
                            = CloreProductVariant.shopify_product_id v)
  /\ (all_answered MAX_RETRIES token data api ->
      forall i, In i (batch_starts data) ->
        In (batch_request token data i) (requests (trace run))).
Proof.
  intros run. subst run.
  destruct (batches_partition data) as [Hcat Hlen].
  split; [exact Hcat|]. split; [|split; [|split; [|split]]].
  - intros i Hi. split; [apply (Hlen i Hi)|apply productBatch_firstn].
  - intros H45. unfold batch_starts, totalBatches, totalProducts. rewrite H45.
    cbn [BATCH_SIZE Nat.add Nat.sub Nat.div Nat.divmod fst seq map Nat.mul].
    rewrite !productBatch_length. unfold totalProducts. rewrite H45. reflexivity.
  - unfold syncScrapedStoreAndProducts. rewrite trace_bind, requests_app.
    destruct (sync_batches_run MAX_RETRIES token data api (totalBatches data)
                (totalProducts data) 0 initial_state) as (_ & Hr & _).
    { lia. }
    { unfold BATCH_SIZE. simpl. lia. }
    apply Forall_app. split; [exact Hr|].
    destruct (value _); constructor.
  - apply variantBatch_spec.
  - intros Hall i Hi.
    unfold syncScrapedStoreAndProducts. rewrite trace_bind, requests_app.
    apply in_or_app. left.
    destruct (sync_batches_run MAX_RETRIES token data api (totalBatches data)
                (totalProducts data) 0 initial_state) as (Hv & _ & Hsub).
    { lia. }
    { unfold BATCH_SIZE. simpl. lia. }
    destruct (run_batches_answered MAX_RETRIES token data api _ initial_state Hall)
      as (st' & Hst & _).
    change (0 * BATCH_SIZE)%nat with 0%nat in *.
    apply (Hsub st'); [|exact Hi].
    rewrite Hv. exact Hst.
Qed.

Lemma sync_batches_partition_witness :
  map (fun i => List.length (productBatch (sample_data 45) i)) (batch_starts (sample_data 45))
  = [20; 20; 5]%nat.
Proof.
  exact (proj1 (proj2 (proj2 (sync_batches_partition 3 "token" (sample_data 45) sample_api)))
           eq_refl).
Defined.

End SyncClaims.

(* ================================================================== *)
(** * Further properties of the sources *)
(* ================================================================== *)

(** ** The normalizer's result, the store name and the handle *)

Section NormalizedDomains.
Import JS Validators DomainNormalizer StoreNames.

Ltac ascii_brute c :=
  destruct c as [[|] [|] [|] [|] [|] [|] [|] [|]];
  vm_compute; intros; try reflexivity; try discriminate; try tauto.

Lemma lower_char_not_upper (c : ascii) : is_upper (lower_char c) = false.
Proof. ascii_brute c. Qed.

Lemma lower_char_fixed (c : ascii) : is_upper c = false -> lower_char c = c.
Proof. unfold lower_char. now intros ->. Qed.

Lemma lower_char_idem (c : ascii) : lower_char (lower_char c) = lower_char c.
Proof. apply lower_char_fixed, lower_char_not_upper. Qed.

Lemma lower_upper_char (c : ascii) : lower_char (upper_char c) = lower_char c.
Proof. ascii_brute c. Qed.

Lemma lower_char_hyphen (c : ascii) : Ascii.eqb (lower_char c) "-" = Ascii.eqb c "-".
Proof. ascii_brute c. Qed.

Lemma label_char_not_space (c : ascii) : is_label_char c = true -> Ascii.eqb c " " = false.
Proof. ascii_brute c. Qed.

Lemma toLowerCase_no_upper (s : string) :
  all_chars (fun c => negb (is_upper c)) (toLowerCase s) = true.
Proof.
  induction s as [|c s IH]; [reflexivity|].
  simpl. now rewrite lower_char_not_upper, IH.
Qed.

Lemma toLowerCase_fixed (s : string) :
  all_chars (fun c => negb (is_upper c)) s = true -> toLowerCase s = s.
Proof.
  induction s as [|c s IH]; [reflexivity|].
  simpl. intros H. apply andb_true_iff in H as [Hc Hs].
  apply negb_true_iff in Hc. now rewrite (lower_char_fixed _ Hc), IH.
Qed.

Lemma toLowerCase_idem (s : string) : toLowerCase (toLowerCase s) = toLowerCase s.
Proof. apply toLowerCase_fixed, toLowerCase_no_upper. Qed.

Lemma toLowerCase_app (a b : string) :
  toLowerCase (a ++ b) = toLowerCase a ++ toLowerCase b.
Proof. induction a as [|c a IH]; [reflexivity|]. simpl. now rewrite IH. Qed.

(** A valid domain that does not begin with [www.] and has no capital is
    returned as it is. *)
Lemma normalizeDomain_fixed (d : string) :
  isValidDomain d = true ->
  toLowerCase d = d ->
  starts_with "www." d = false ->
  normalizeDomain d = inr d.
Proof.
  intros Hv Hl Hw. unfold normalizeDomain.
  destruct (isValidDomain_shape _ Hv) as (Hall & (c & d' & Ec & Hc) & _).
  pose proof (strip_protocol_host d EmptyString Hv) as H1.
  rewrite append_empty_r in H1.
  assert (H2 : strip_leading_slashes d = d).
  { subst d. apply (strip_leading_slashes_app 0).
    now apply host_char_not_sep, alnum_host_char. }
  pose proof (cut_path_and_port d EmptyString Hall eq_refl) as H3.
  rewrite append_empty_r in H3.
  rewrite H1, H2, H3. unfold strip_prefix. rewrite Hw.
  rewrite trim_toLowerCase_host, isValidDomain_toLowerCase, Hv, Hl by assumption.
  reflexivity.
Qed.

(** X1: a domain returned by [normalizeDomain] passes [isValidDomain], has
    no capital letter and no white space around it, and, unless it begins
    with [www.], is returned unchanged when normalized again; a failure is
    the error [Invalid domain format: ] followed by the string that failed
    the domain test. *)
Theorem normalizeDomain_result (input : string) :
  match normalizeDomain input with
  | inr d =>
      isValidDomain d = true
      /\ toLowerCase d = d
      /\ trim d = d
      /\ (starts_with "www." d = false -> normalizeDomain d = inr d)
  | inl e =>
      exists candidate,
        e = ThrownError ("Invalid domain format: " ++ candidate)
        /\ isValidDomain candidate = false
  end.
Proof.
  unfold normalizeDomain at 1.
  set (x := strip_prefix "www." (before_first ":" (before_first "/"
              (strip_leading_slashes (strip_protocol input))))).
  destruct (isValidDomain (trim (toLowerCase x))) eqn:Hv; cbn [negb].
  - assert (Hl : toLowerCase (trim (toLowerCase x)) = trim (toLowerCase x)).
    { apply toLowerCase_fixed, all_chars_trim, toLowerCase_no_upper. }
    split; [exact Hv|]. split; [exact Hl|]. split.
    + rewrite <- Hl at 1. rewrite <- Hl at 2. now apply trim_toLowerCase_host.
    + intros Hw. now apply normalizeDomain_fixed.
  - exists (trim (toLowerCase x)). split; [reflexivity|exact Hv].
Qed.

Example normalizeDomain_not_idempotent :
  normalizeDomain "www.www.shop.com" = inr "www.shop.com"
  /\ normalizeDomain "www.shop.com" = inr "shop.com".
Proof. split; reflexivity. Qed.

End NormalizedDomains.

Section StoreNameFacts.
Import JS Validators DomainNormalizer StoreNames.

Lemma toLowerCase_split (sep : ascii) (s : string) :
  (forall c, Ascii.eqb (lower_char c) sep = Ascii.eqb c sep) ->
  split sep (toLowerCase s) = map toLowerCase (split sep s).
Proof.
  intros Hsep. induction s as [|c s IH]; [reflexivity|].
  simpl. rewrite Hsep, IH.
  destruct (Ascii.eqb c sep); [reflexivity|].
  now destruct (split sep s).
Qed.

Lemma join_cons_char (sep : string) (c : ascii) (p : string) (ps : list string) :
  join sep (String c p :: ps) = String c (join sep (p :: ps)).
Proof. destruct ps; reflexivity. Qed.

Lemma join_cons_empty (sep : string) (p : string) (ps : list string) :
  join sep (EmptyString :: p :: ps) = sep ++ join sep (p :: ps).
Proof. reflexivity. Qed.

Lemma toLowerCase_join (sep : string) (l : list string) :
  toLowerCase (join sep l) = join (toLowerCase sep) (map toLowerCase l).
Proof.
  induction l as [|x l IH]; [reflexivity|].
  destruct l as [|y l]; [reflexivity|].
  change (join sep (x :: y :: l)) with (x ++ sep ++ join sep (y :: l)).
  rewrite !toLowerCase_app, IH. reflexivity.
Qed.

Lemma toLowerCase_capitalize (w : string) : toLowerCase (capitalize w) = toLowerCase w.
Proof.
  destruct w as [|c w]; [reflexivity|].
  simpl. now rewrite lower_upper_char, toLowerCase_idem.
Qed.

Lemma hyphenate_cons (c : ascii) (s : string) :
  hyphenate (String c s)
  = String (if Ascii.eqb c " " then "-"%char else c) (hyphenate s).
Proof. reflexivity. Qed.

(** Joining by spaces what was split at hyphens, then putting the hyphens
    back, gives the string again when it has no space. *)
Lemma hyphenate_join_split (s : string) :
  all_chars (fun c => negb (Ascii.eqb c " ")) s = true ->
  hyphenate (join " " (split "-" s)) = s.
Proof.
  induction s as [|c s IH]; [reflexivity|].
  intros H. simpl in H. apply andb_true_iff in H as [Hc Hs].
  apply negb_true_iff in Hc. specialize (IH Hs).
  destruct (Ascii.eqb c "-") eqn:E.
  - apply Ascii.eqb_eq in E. subst c. simpl split.
    destruct (split "-" s) as [|p ps] eqn:Es; [destruct (split_not_nil _ _ Es)|].
    rewrite join_cons_empty.
    change (" " ++ join " " (p :: ps)) with (String " " (join " " (p :: ps))).
    rewrite hyphenate_cons, IH. reflexivity.
  - rewrite split_cons_other by assumption.
    destruct (split "-" s) as [|p ps] eqn:Es; [destruct (split_not_nil _ _ Es)|].
    cbn [hd tl]. rewrite join_cons_char, hyphenate_cons, Hc, IH. reflexivity.
Qed.

Lemma split_hd_prefix (sep : ascii) (s : string) :
  (2 <= List.length (split sep s))%nat ->
  starts_with (hd EmptyString (split sep s) ++ String sep EmptyString) s = true.
Proof.
  induction s as [|c s IH]; [simpl; lia|].
  destruct (Ascii.eqb c sep) eqn:E.
  - intros _. simpl split. rewrite E. simpl. apply Ascii.eqb_eq in E. subst c.
    now rewrite Ascii.eqb_refl.
  - rewrite split_cons_other by assumption.
    destruct (split sep s) as [|p ps] eqn:Es; [destruct (split_not_nil _ _ Es)|].
    cbn [hd tl List.length]. intros H. simpl. rewrite Ascii.eqb_refl.
    apply IH. exact H.
Qed.

Lemma first_label_is_label (d : string) :
  isValidDomain d = true -> is_label (before_first "." d) = true.
Proof.
  unfold isValidDomain, before_first. intros H.
  apply andb_true_iff in H as [H _]. apply andb_true_iff in H as [Hlen Hlab].
  apply Nat.leb_le in Hlen.
  destruct (split "." d) as [|p [|q qs]]; simpl in Hlen; try lia.
  simpl in Hlab. now apply andb_true_iff in Hlab as [Hp _].
Qed.

Lemma host_char_lower_not_space (c : ascii) :
  host_char c = true -> negb (Ascii.eqb (lower_char c) " ") = true.
Proof.
  destruct c as [[|] [|] [|] [|] [|] [|] [|] [|]];
    vm_compute; intros; try reflexivity; discriminate.
Qed.

(** X2: for a valid domain, the store handle is the first label of the
    domain in lower case (a label, followed by a dot in the lower-cased
    domain), and the display name is the same label with capitalized words
    and spaces for hyphens: lower-casing the name and putting hyphens for
    the spaces gives the handle. *)
Theorem store_name_matches_handle (domain : string) :
  isValidDomain domain = true ->
  hyphenate (toLowerCase (formatStoreName domain)) = createStoreHandle domain
  /\ is_label (createStoreHandle domain) = true
  /\ starts_with (createStoreHandle domain ++ ".") (toLowerCase domain) = true.
Proof.
  intros Hv. pose proof (first_label_is_label _ Hv) as Hlab.
  unfold formatStoreName, createStoreHandle.
  split; [|split].
  - rewrite toLowerCase_join, map_map.
    rewrite (map_ext _ toLowerCase) by apply toLowerCase_capitalize.
    rewrite <- (toLowerCase_split "-") by apply lower_char_hyphen.
    apply hyphenate_join_split.
    rewrite toLowerCase_all_chars with (P := fun c => negb (Ascii.eqb c " ")).
    + apply (all_chars_impl host_char); [|now apply is_label_host_chars].
      intros c Hc. destruct (host_char_not_sep _ Hc) as (_ & _ & Hw).
      destruct (Ascii.eqb c " ") eqn:E; [|reflexivity].
      apply Ascii.eqb_eq in E. subst c. discriminate.
    + intros c. destruct c as [[|] [|] [|] [|] [|] [|] [|] [|]]; reflexivity.
  - now rewrite toLowerCase_is_label.
  - unfold before_first.
    replace (toLowerCase (hd EmptyString (split "." domain)))
      with (hd EmptyString (split "." (toLowerCase domain))).
    + apply split_hd_prefix. rewrite toLowerCase_split_dot, length_map.
      unfold isValidDomain in Hv. apply andb_true_iff in Hv as [Hv _].
      apply andb_true_iff in Hv as [Hlen _]. now apply Nat.leb_le in Hlen.
    + rewrite toLowerCase_split_dot. now destruct (split "." domain).
Qed.

Lemma store_name_matches_handle_witness :
  formatStoreName "cool-gear-store.com" = "Cool Gear Store"
  /\ hyphenate (toLowerCase (formatStoreName "cool-gear-store.com"))
     = createStoreHandle "cool-gear-store.com"
  /\ createStoreHandle "cool-gear-store.com" = "cool-gear-store".
Proof.
  split; [reflexivity|]. split; [|reflexivity].
  exact (proj1 (store_name_matches_handle "cool-gear-store.com" eq_refl)).
Defined.

End StoreNameFacts.

(** ** Mapping whole lists *)

Section MapAllFacts.
Import JS PriceValidators DataMapper DataMapperAll.

(** A loop that pushes every element to one of two lists. *)
Lemma fold_two_lists {A B E C : Type} (f : A -> E + B) (mk : A -> E -> C)
    (l : list A) (done : list B) (failed : list C) :
  fold_left
    (fun '(ok, ko) a =>
       match f a with
       | inr b => ((ok ++ [b])%list, ko)
       | inl e => (ok, (ko ++ [mk a e])%list)
       end)
    l (done, failed)
  = ((done ++ flat_map (fun a => match f a with inr b => [b] | inl _ => [] end) l)%list,
     (failed ++ flat_map (fun a => match f a with inl e => [mk a e] | inr _ => [] end) l)%list).
Proof.
  revert done failed. induction l as [|a l IH]; intros done failed.
  - simpl. now rewrite !app_nil_r.
  - cbn [fold_left flat_map]. destruct (f a) as [e|b]; rewrite IH;
      rewrite <- ?app_assoc; reflexivity.
Qed.

Lemma flat_map_partition_length {A B E C : Type} (f : A -> E + B) (mk : A -> E -> C)
    (l : list A) :
  (List.length (flat_map (fun a => match f a with inr b => [b] | inl _ => [] end) l)
   + List.length (flat_map (fun a => match f a with inl e => [mk a e] | inr _ => [] end) l)
   = List.length l)%nat.
Proof.
  induction l as [|a l IH]; [reflexivity|].
  cbn [flat_map]. rewrite !length_app. destruct (f a); simpl; lia.
Qed.

Lemma mapAllProducts_lists (l : list ShopifyProduct.t) :
  mapAllProducts l
  = (flat_map (fun p => match mapShopifyProductToClore p with
                        | inr m => [m]
                        | inl _ => []
                        end) l,
     flat_map (fun p => match mapShopifyProductToClore p with
                        | inl e => [{| failure_title :=
                                         or_default (ShopifyProduct.title p) "Unknown";
                                       failure_error := message_of e |}]
                        | inr _ => []
                        end) l).
Proof.
  unfold mapAllProducts.
  exact (fold_two_lists mapShopifyProductToClore
           (fun p e => {| failure_title := or_default (ShopifyProduct.title p) "Unknown";
                          failure_error := message_of e |}) l [] []).
Qed.

Lemma mapAllVariants_lists (l : list ShopifyVariant.t) :
  mapAllVariants l
  = (flat_map (fun v => match mapShopifyVariantToClore v (ShopifyVariant.product_id v) with
                        | inr m => [m]
                        | inl _ => []
                        end) l,
     flat_map (fun v => match mapShopifyVariantToClore v (ShopifyVariant.product_id v) with
                        | inl e => [{| failure_title :=
                                         or_default (ShopifyVariant.title v)
                                           (String_of (ShopifyVariant.id v));
                                       failure_error := message_of e |}]
                        | inr _ => []
                        end) l).
Proof.
  unfold mapAllVariants.
  exact (fold_two_lists (fun v => mapShopifyVariantToClore v (ShopifyVariant.product_id v))
           (fun v e => {| failure_title := or_default (ShopifyVariant.title v)
                                              (String_of (ShopifyVariant.id v));
                          failure_error := message_of e |}) l [] []).
Qed.

Lemma mapShopifyProductToClore_verdict (p : ShopifyProduct.t) :
  match mapShopifyProductToClore p with
  | inr m => product_reasons p = []
  | inl e =>
      product_reasons p <> []
      /\ e = ThrownError ("Invalid product: " ++ join ", " (product_reasons p))
  end.
Proof.
  unfold mapShopifyProductToClore, product_reasons, push_if.
  destruct (truthy (ShopifyProduct.title p)); destruct (truthyZ (ShopifyProduct.id p));
    cbn; try reflexivity; (split; [discriminate|reflexivity]).
Qed.

Lemma mapShopifyVariantToClore_verdict (v : ShopifyVariant.t) (pid : option Z) :
  match mapShopifyVariantToClore v pid with
  | inr m => variant_reasons v = []
  | inl e =>
      variant_reasons v <> []
      /\ e = ThrownError ("Invalid variant: " ++ join ", " (variant_reasons v))
  end.
Proof.
  unfold mapShopifyVariantToClore, variant_reasons, push_if.
  destruct (truthyZ (ShopifyVariant.id v)); destruct (truthy (ShopifyVariant.title v));
    destruct (isValidPrice (ShopifyVariant.price v));
    cbn [negb app List.length Nat.ltb Nat.leb]; try reflexivity;
    (split; [discriminate|reflexivity]).
Qed.

(** X3: [mapAllProducts] never fails as a whole and loses no record: the
    mapped list holds the accepted products in input order, the failure list
    holds one entry for each rejected product in input order, with the
    product's title (or "Unknown") and the error "Invalid product: " followed
    by the reasons ("Missing title", "Missing product ID") joined by commas;
    a product is rejected exactly when there is such a reason. *)
Theorem mapAllProducts_partition (l : list ShopifyProduct.t) :
  (List.length (fst (mapAllProducts l)) + List.length (snd (mapAllProducts l))
   = List.length l)%nat
  /\ map inr (fst (mapAllProducts l))
     = map mapShopifyProductToClore (filter (fun p => negb (product_rejected p)) l)
  /\ snd (mapAllProducts l) = map product_failure (filter product_rejected l)
  /\ (forall p, product_rejected p = false
                <-> truthy (ShopifyProduct.title p) = true
                    /\ truthyZ (ShopifyProduct.id p) = true).
Proof.
  rewrite mapAllProducts_lists. cbn [fst snd].
  split; [apply flat_map_partition_length|]. split; [|split].
  - induction l as [|p l IH]; [reflexivity|].
    cbn [flat_map filter]. pose proof (mapShopifyProductToClore_verdict p) as Hp.
    unfold product_rejected at 1.
    destruct (mapShopifyProductToClore p) as [e|m] eqn:Em.
    + destruct Hp as [Hne _]. destruct (product_reasons p); [congruence|]. exact IH.
    + rewrite Hp. cbn [negb map app]. now rewrite IH, Em.
  - induction l as [|p l IH]; [reflexivity|].
    cbn [flat_map filter]. pose proof (mapShopifyProductToClore_verdict p) as Hp.
    unfold product_rejected at 1.
    destruct (mapShopifyProductToClore p) as [e|m].
    + destruct Hp as [Hne ->]. destruct (product_reasons p) eqn:Er; [congruence|].
      cbn [map app]. rewrite IH. unfold product_failure at 2. now rewrite Er.
    + rewrite Hp. exact IH.
  - intros p. unfold product_rejected, product_reasons.
    destruct (truthy (ShopifyProduct.title p)); destruct (truthyZ (ShopifyProduct.id p));
      cbn; intuition discriminate.
Qed.

(** X4: [mapAllVariants] never fails as a whole and loses no record: the
    mapped list holds the accepted variants in input order, each mapped
    under its own [product_id]; the failure list holds one entry for each
    rejected variant; a variant is rejected exactly when its id or title is
    missing or its price is not a valid price.  When every rejected variant
    has a price text and is titled by its title or by a safe integer id,
    the entries are, in input order, the variant's title (or its id in
    decimal) with the error "Invalid variant: " followed by the reasons
    ("Missing variant ID", "Missing variant title", "Invalid price: " and
    the price text) joined by commas. *)
Theorem mapAllVariants_partition (l : list ShopifyVariant.t) :
  (List.length (fst (mapAllVariants l)) + List.length (snd (mapAllVariants l))
   = List.length l)%nat
  /\ map inr (fst (mapAllVariants l))
     = map (fun v => mapShopifyVariantToClore v (ShopifyVariant.product_id v))
         (filter (fun v => negb (variant_rejected v)) l)
  /\ List.length (snd (mapAllVariants l)) = List.length (filter variant_rejected l)
  /\ (forallb prints_exactly (filter variant_rejected l) = true ->
      snd (mapAllVariants l) = map variant_failure (filter variant_rejected l))
  /\ (forall v, variant_rejected v = false
                <-> truthyZ (ShopifyVariant.id v) = true
                    /\ truthy (ShopifyVariant.title v) = true
                    /\ isValidPrice (ShopifyVariant.price v) = true).
Proof.
  rewrite mapAllVariants_lists. cbn [fst snd].
  split; [apply flat_map_partition_length|]. split; [|split; [|split]].
  2:{ rewrite <- (length_map variant_failure). f_equal.
      induction l as [|v l IH]; [reflexivity|].
      cbn [flat_map filter].
      pose proof (mapShopifyVariantToClore_verdict v (ShopifyVariant.product_id v)) as Hv.
      unfold variant_rejected at 1.
      destruct (mapShopifyVariantToClore v (ShopifyVariant.product_id v)) as [e|m].
      - destruct Hv as [Hne ->]. destruct (variant_reasons v) eqn:Er; [congruence|].
        cbn [map app]. rewrite IH. unfold variant_failure at 2. now rewrite Er.
      - rewrite Hv. exact IH. }
  2:{ intros _.
      induction l as [|v l IH]; [reflexivity|].
      cbn [flat_map filter].
      pose proof (mapShopifyVariantToClore_verdict v (ShopifyVariant.product_id v)) as Hv.
      unfold variant_rejected at 1.
      destruct (mapShopifyVariantToClore v (ShopifyVariant.product_id v)) as [e|m].
      - destruct Hv as [Hne ->]. destruct (variant_reasons v) eqn:Er; [congruence|].
        cbn [map app]. rewrite IH. unfold variant_failure at 2. now rewrite Er.
      - rewrite Hv. exact IH. }
  - induction l as [|v l IH]; [reflexivity|].
    cbn [flat_map filter].
    pose proof (mapShopifyVariantToClore_verdict v (ShopifyVariant.product_id v)) as Hv.
    unfold variant_rejected at 1.
    destruct (mapShopifyVariantToClore v (ShopifyVariant.product_id v)) as [e|m] eqn:Em.
    + destruct Hv as [Hne _]. destruct (variant_reasons v); [congruence|]. exact IH.
    + rewrite Hv. cbn [negb map app]. now rewrite IH, Em.
  - intros v. unfold variant_rejected, variant_reasons.
    destruct (truthyZ (ShopifyVariant.id v)); destruct (truthy (ShopifyVariant.title v));
      destruct (isValidPrice (ShopifyVariant.price v));
      cbn; intuition discriminate.
Qed.

End MapAllFacts.

(** ** What a scrape result is made of *)

Section ScrapeResultFacts.
Import JS Effects Retry ShopifyScraper PriceValidators DataMapper DataMapperAll.

Lemma scrape_result_shape
    (MAX_RETRIES : nat) (RATE_LIMIT_DELAY : Z) (domain : string)
    (feed : nat -> nat -> Thrown + ShopifyProductsResponse)
    (fuel : nat) (result : ScraperResult) :
  value (scrapeShopifyProducts MAX_RETRIES RATE_LIMIT_DELAY domain feed fuel) = Some result ->
  exists fetched,
    products result = filter has_title fetched
    /\ variants result = flat_map accepted_variants (filter has_title fetched)
    /\ failedProducts result
       = map missing_title (filter (fun p => negb (has_title p)) fetched).
Proof.
  unfold scrapeShopifyProducts. rewrite value_bind.
  destruct (value (scrape_pages MAX_RETRIES RATE_LIMIT_DELAY domain feed fuel 1 _))
    as [[acc page]|] eqn:Hv; [|discriminate].
  intros H. injection H as <-. cbn [products variants failedProducts].
  destruct (scrape_pages_accumulates _ _ _ _ _ _ _ _ _ Hv) as [fetched ->].
  exists fetched. rewrite process_products.
  cbn [allProducts allVariants failed app]. auto.
Qed.

(** X5: in every result of the scraper, the variant list is exactly the
    concatenation, in product order, of the variants with id and title of
    the returned products; every returned product has a title; and every
    entry of the failure list is the pair ("Unknown", "Product missing
    title"), so that it does not tell which product failed. *)
Theorem scrape_result_contents
    (MAX_RETRIES : nat) (RATE_LIMIT_DELAY : Z) (domain : string)
    (feed : nat -> nat -> Thrown + ShopifyProductsResponse)
    (fuel : nat) (result : ScraperResult) :
  value (scrapeShopifyProducts MAX_RETRIES RATE_LIMIT_DELAY domain feed fuel) = Some result ->
  variants result = flat_map accepted_variants (products result)
  /\ Forall (fun p => has_title p = true) (products result)
  /\ Forall (fun v => valid_variant v = true) (variants result)
  /\ Forall (fun f => f = {| ShopifyScraper.failure_title := "Unknown";
                             ShopifyScraper.failure_error := "Product missing title" |})
       (failedProducts result).
Proof.
  intros H. destruct (scrape_result_shape _ _ _ _ _ _ H) as (fetched & Hp & Hv & Hf).
  rewrite Hp, Hv, Hf. split; [reflexivity|]. split; [|split].
  - apply Forall_forall. intros p Hin. now apply filter_In in Hin as [_ Hin].
  - apply Forall_forall. intros v Hin.
    apply in_flat_map in Hin as (p & _ & Hin). unfold accepted_variants in Hin.
    destruct (ShopifyProduct.variants p); [|destruct Hin].
    now apply filter_In in Hin as [_ Hin].
  - apply Forall_forall. intros f Hin. apply in_map_iff in Hin as (p & <- & _).
    reflexivity.
Qed.

Lemma scrape_result_contents_witness :
  [variant_titled (Some "Blue")] = flat_map accepted_variants [titled_product]
  /\ Forall (fun p => has_title p = true) [titled_product].
Proof.
  destruct (scrape_result_contents 2 2000 "shop.com" sample_feed 5
              {| products := [titled_product];
                 variants := [variant_titled (Some "Blue")];
                 failedProducts := [missing_title untitled_product];
                 totalPages := 1 |} eq_refl) as (Hv & Hp & _).
  split; [exact Hv|exact Hp].
Defined.

(** X6: the scraper's checks make two of the mapper's checks redundant: a
    product of a scrape result can be rejected by the product mapper only
    for a missing id, and a variant of a scrape result can be rejected by
    the variant mapper only for an invalid price. *)
Theorem scraped_records_rejections
    (MAX_RETRIES : nat) (RATE_LIMIT_DELAY : Z) (domain : string)
    (feed : nat -> nat -> Thrown + ShopifyProductsResponse)
    (fuel : nat) (result : ScraperResult) :
  value (scrapeShopifyProducts MAX_RETRIES RATE_LIMIT_DELAY domain feed fuel) = Some result ->
  (forall p, In p (products result) ->
     product_reasons p
     = if truthyZ (ShopifyProduct.id p) then [] else ["Missing product ID"])
  /\ (forall v, In v (variants result) ->
        variant_reasons v
        = if isValidPrice (ShopifyVariant.price v) then []
          else [String.append "Invalid price: " (String_of_string (ShopifyVariant.price v))]).
Proof.
  intros H. destruct (scrape_result_shape _ _ _ _ _ _ H) as (fetched & Hp & Hv & _).
  rewrite Hp, Hv. split.
  - intros p Hin. apply filter_In in Hin as [_ Ht].
    unfold product_reasons. unfold has_title in Ht. now rewrite Ht.
  - intros v Hin. apply in_flat_map in Hin as (p & _ & Hin).
    unfold accepted_variants in Hin.
    destruct (ShopifyProduct.variants p); [|destruct Hin].
    apply filter_In in Hin as [_ Hok]. unfold valid_variant in Hok.
    apply negb_true_iff, orb_false_iff in Hok as [Hi Ht].
    apply negb_false_iff in Hi, Ht.
    unfold variant_reasons. now rewrite Hi, Ht.
Qed.

Lemma scraped_records_rejections_witness :
  product_reasons titled_product = []
  /\ variant_reasons (variant_titled (Some "Blue")) = [].
Proof.
  destruct (scraped_records_rejections 2 2000 "shop.com" sample_feed 5
              {| products := [titled_product];
                 variants := [variant_titled (Some "Blue")];
                 failedProducts := [missing_title untitled_product];
                 totalPages := 1 |} eq_refl) as (Hp & Hv).
  split; [exact (Hp _ (or_introl eq_refl))|exact (Hv _ (or_introl eq_refl))].
Defined.

End ScrapeResultFacts.

(** ** What the record mappers guarantee of an accepted record *)

Section MappedRecordFacts.
Import JS PriceValidators DataMapper.

Lemma or_null_not_empty (o : option string) : or_null o <> Some EmptyString.
Proof. destruct o as [[|c s]|]; discriminate. Qed.

Lemma or_default_not_empty (o : option string) (d : string) :
  d <> EmptyString -> or_default o d <> EmptyString.
Proof. destruct o as [[|c s]|]; simpl; auto; discriminate. Qed.

Lemma truthy_some (o : option string) :
  truthy o = true -> exists s, o = Some s /\ s <> EmptyString /\ or_default o "" = s.
Proof.
  destruct o as [[|c s]|]; try discriminate. intros _.
  exists (String c s). repeat split. discriminate.
Qed.

(** X7: a variant the mapper accepts is mapped to a record whose price is
    the source price string unchanged (and still a valid price), whose
    title is the non-empty source title, whose variant id and product id are
    the decimal digits of the source ids when these are safe integers,
    whose position is neither zero nor NaN, whose weight, when present,
    comes from a source weight above zero, and whose optional texts are
    never the empty string. *)
Theorem mapped_variant_invariants
    (variant : ShopifyVariant.t) (pid : option Z) (mapped : CloreProductVariant.t) :
  mapShopifyVariantToClore variant pid = inr mapped ->
  ShopifyVariant.price variant = Some (CloreProductVariant.price mapped)
  /\ isValidPrice (Some (CloreProductVariant.price mapped)) = true
  /\ ShopifyVariant.title variant = Some (CloreProductVariant.title mapped)
  /\ CloreProductVariant.title mapped <> EmptyString
  /\ (exists id, ShopifyVariant.id variant = Some id /\ id <> 0%Z
                 /\ (isSafeInteger id = true ->
                     CloreProductVariant.shopify_variant_id mapped = string_of_Z id))
  /\ (forall z, pid = Some z -> isSafeInteger z = true ->
        CloreProductVariant.shopify_product_id mapped = string_of_Z z)
  /\ truthy_number (CloreProductVariant.position mapped) = true
  /\ (forall k, CloreProductVariant.weight mapped = Some k ->
        exists w, ShopifyVariant.weight variant = Some w /\ (0 <? w)%float = true)
  /\ CloreProductVariant.sku mapped <> Some EmptyString
  /\ CloreProductVariant.compare_at_price mapped <> Some EmptyString
  /\ CloreProductVariant.option1 mapped <> Some EmptyString
  /\ CloreProductVariant.option2 mapped <> Some EmptyString
  /\ CloreProductVariant.option3 mapped <> Some EmptyString
  /\ CloreProductVariant.inventory_policy mapped <> EmptyString
  /\ CloreProductVariant.cost_price mapped = None.
Proof.
  unfold mapShopifyVariantToClore, push_if.
  destruct (truthyZ (ShopifyVariant.id variant)) eqn:Hid;
    destruct (truthy (ShopifyVariant.title variant)) eqn:Htitle;
    destruct (isValidPrice (ShopifyVariant.price variant)) eqn:Hprice;
    cbn [negb app List.length Nat.ltb Nat.leb]; try discriminate.
  intros H. injection H as <-.
  cbn [CloreProductVariant.price CloreProductVariant.title
       CloreProductVariant.shopify_variant_id CloreProductVariant.shopify_product_id
       CloreProductVariant.inventory_quantity CloreProductVariant.position
       CloreProductVariant.weight CloreProductVariant.sku
       CloreProductVariant.compare_at_price CloreProductVariant.option1
       CloreProductVariant.option2 CloreProductVariant.option3
       CloreProductVariant.inventory_policy CloreProductVariant.cost_price].
  destruct (truthy_some _ Htitle) as (t & Et & Hne & Ht).
  assert (Hp : exists s, ShopifyVariant.price variant = Some s).
  { destruct (ShopifyVariant.price variant) as [s|]; [now exists s|discriminate]. }
  destruct Hp as [s Es].
  split; [rewrite Es; reflexivity|].
  split; [rewrite Es in *; exact Hprice|].
  split; [rewrite Ht; exact Et|].
  split; [rewrite Ht; exact Hne|].
  split.
  { destruct (ShopifyVariant.id variant) as [id|]; [|discriminate].
    exists id. repeat split. intros ->. discriminate. }
  split; [now intros z ->|].
  split.
  { destruct (ShopifyVariant.position variant) as [p|]; [|reflexivity].
    destruct (truthy_number p) eqn:E; [exact E|reflexivity]. }
  split.
  { intros k Hk. unfold convert_weight in Hk.
    destruct (ShopifyVariant.weight variant) as [w|]; [|discriminate].
    exists w. split; [reflexivity|].
    destruct (truthy_number w && (0 <? w)%float) eqn:E; [|discriminate].
    now apply andb_true_iff in E. }
  repeat split; try apply or_null_not_empty.
  apply or_default_not_empty. discriminate.
Qed.

Lemma mapped_variant_invariants_witness :
  exists mapped,
    mapShopifyVariantToClore (sample_variant (Some 2%float) (Some "lb")) (Some 7%Z)
    = inr mapped
    /\ CloreProductVariant.price mapped = "29.99"
    /\ CloreProductVariant.shopify_product_id mapped = "7".
Proof.
  eexists. split; [reflexivity|].
  destruct (mapped_variant_invariants
              (sample_variant (Some 2%float) (Some "lb")) (Some 7%Z) _ eq_refl)
    as (Hp & _ & _ & _ & _ & Hpid & _).
  split; [reflexivity|exact (Hpid 7%Z eq_refl eq_refl)].
Defined.

(** X8: a product the mapper accepts is mapped to a record whose title is
    the non-empty source title, whose id is the decimal digits of the
    non-zero source id when this is a safe integer, whose status is not
    empty ("active" when the source has none), whose images are the [src]
    of the source images in order, whose gender is null, and whose optional
    texts are never the empty string. *)
Theorem mapped_product_invariants
    (product : ShopifyProduct.t) (mapped : CloreProduct.t) :
  mapShopifyProductToClore product = inr mapped ->
  ShopifyProduct.title product = Some (CloreProduct.title mapped)
  /\ CloreProduct.title mapped <> EmptyString
  /\ (exists id, ShopifyProduct.id product = Some id /\ id <> 0%Z
                 /\ (isSafeInteger id = true ->
                     CloreProduct.shopify_id mapped = string_of_Z id))
  /\ CloreProduct.status mapped <> EmptyString
  /\ (truthy (ShopifyProduct.status product) = false -> CloreProduct.status mapped = "active")
  /\ CloreProduct.images mapped
     = match ShopifyProduct.images product with
       | Some imgs => map ShopifyImage.src imgs
       | None => []
       end
  /\ CloreProduct.gender mapped = None
  /\ CloreProduct.handle mapped <> Some EmptyString
  /\ CloreProduct.description mapped <> Some EmptyString
  /\ CloreProduct.product_type mapped <> Some EmptyString
  /\ CloreProduct.vendor mapped <> Some EmptyString
  /\ CloreProduct.seo_title mapped <> Some EmptyString
  /\ CloreProduct.seo_description mapped <> Some EmptyString.
Proof.
  unfold mapShopifyProductToClore, push_if.
  destruct (truthy (ShopifyProduct.title product)) eqn:Htitle;
    destruct (truthyZ (ShopifyProduct.id product)) eqn:Hid;
    cbn [negb app List.length Nat.ltb Nat.leb]; try discriminate.
  intros H. injection H as <-.
  cbn [CloreProduct.title CloreProduct.shopify_id CloreProduct.status CloreProduct.images
       CloreProduct.category CloreProduct.product_type CloreProduct.gender
       CloreProduct.handle CloreProduct.description CloreProduct.vendor
       CloreProduct.seo_title CloreProduct.seo_description].
  destruct (truthy_some _ Htitle) as (t & Et & Hne & Ht).
  split; [rewrite Ht; exact Et|].
  split; [rewrite Ht; exact Hne|].
  split.
  { destruct (ShopifyProduct.id product) as [id|]; [|discriminate].
    exists id. repeat split. intros ->. discriminate. }
  split; [apply or_default_not_empty; discriminate|].
  split.
  { destruct (ShopifyProduct.status product) as [[|c s]|]; try reflexivity; discriminate. }
  repeat split; try apply or_null_not_empty;
    destruct (ShopifyProduct.seo product); try discriminate; apply or_null_not_empty.
Qed.

Lemma mapped_product_invariants_witness :
  exists mapped,
    mapShopifyProductToClore (sample_product (Some "Tee") (Some "red") None) = inr mapped
    /\ CloreProduct.title mapped = "Tee"
    /\ CloreProduct.status mapped = "active".
Proof.
  eexists. split; [reflexivity|].
  destruct (mapped_product_invariants
              (sample_product (Some "Tee") (Some "red") None) _ eq_refl)
    as (Ht & _ & _ & _ & Hs & _).
  split; [reflexivity|exact (Hs eq_refl)].
Defined.

End MappedRecordFacts.

(** ** The time the retry helper sleeps *)

Section RetryTiming.
Import JS Effects Retry Timing.

Lemma backoff_nonneg (a : nat) : (0 <= backoff a)%Z.
Proof. unfold backoff. pose proof (Z.pow_nonneg 2 (Z.of_nat a - 1)). lia. Qed.

Lemma sum_app (l1 l2 : list Z) :
  fold_right Z.add 0%Z (l1 ++ l2) = (fold_right Z.add 0 l1 + fold_right Z.add 0 l2)%Z.
Proof. induction l1 as [|x l1 IH]; simpl; [reflexivity|]. rewrite IH. lia. Qed.

(** The sleeps after attempts [a .. a + n - 1] add up to a difference of two
    powers of two. *)
Lemma sum_backoff (a n : nat) :
  (1 <= a)%nat ->
  fold_right Z.add 0%Z (map backoff (seq a n))
  = (1000 * (2 ^ (Z.of_nat (a + n) - 1) - 2 ^ (Z.of_nat a - 1)))%Z.
Proof.
  intros Ha. induction n as [|n IH].
  - rewrite Nat.add_0_r. cbn [seq map fold_right]. lia.
  - rewrite seq_S, map_app, sum_app, IH. cbn [map fold_right]. unfold backoff.
    replace (Z.of_nat (a + S n) - 1)%Z with (Z.succ (Z.of_nat (a + n) - 1)) by lia.
    rewrite Z.pow_succ_r by lia. lia.
Qed.

Section Bound.
Context {T : Type}.
Variable fn : nat -> Eff (Thrown + T).
Variable name : string.
Variable maxRetries : nat.
Hypothesis fn_plain : plain fn.

Lemma retry_loop_sleep_bound (todo : nat) : forall (attempt : nat) (lastError : Thrown),
  (attempt + todo = S maxRetries)%nat ->
  (total_sleep (trace (retry_loop fn name maxRetries todo attempt lastError))
   <= fold_right Z.add 0 (map backoff (seq attempt (todo - 1))))%Z.
Proof.
  unfold total_sleep.
  induction todo as [|todo IH]; intros attempt lastError Hmax; [simpl; lia|].
  assert (Hnn : forall a n, (0 <= fold_right Z.add 0 (map backoff (seq a n)))%Z).
  { intros a n. revert a. induction n as [|n IHn]; intros a; simpl; [lia|].
    pose proof (backoff_nonneg a). specialize (IHn (S a)). lia. }
  destruct (value (fn attempt)) as [error|result] eqn:Hf.
  - destruct (retry_loop_failed_turn fn name maxRetries fn_plain todo attempt lastError
                error Hf) as (_ & _ & -> & _).
    rewrite sum_app. specialize (IH (S attempt) (as_error error) ltac:(lia)).
    set (rest := sleeps (trace (retry_loop fn name maxRetries todo (S attempt)
                                  (as_error error)))) in *.
    destruct todo as [|todo].
    + replace (attempt <? maxRetries)%nat with false
        by (symmetry; apply Nat.ltb_ge; lia).
      cbn [Nat.sub seq map fold_right] in *. lia.
    + replace (attempt <? maxRetries)%nat with true
        by (symmetry; apply Nat.ltb_lt; lia).
      replace (S (S todo) - 1)%nat with (S (S todo - 1)) by lia.
      cbn [seq map fold_right]. lia.
  - destruct (retry_loop_successful_turn fn name maxRetries fn_plain todo attempt lastError
                result Hf) as (_ & _ & ->).
    simpl fold_right at 1. apply Hnn.
Qed.

End Bound.

(** X9: the helper never sleeps more than [1000 * (2^(maxRetries-1) - 1)] ms
    in all (3 s for the default of 3 attempts); it sleeps exactly that long
    when every attempt fails, and [1000 * (2^(k-1) - 1)] ms when attempt [k]
    is the first to succeed; with [maxRetries = 0] it throws "Unknown error"
    without calling the operation. *)
Theorem retry_total_sleep {T : Type}
    (fn : nat -> Eff (Thrown + T)) (name : string) (maxRetries : nat) :
  plain fn ->
  (1 <= maxRetries)%nat ->
  let run := retryWithBackoff fn name maxRetries in
  (total_sleep (trace run) <= 1000 * (2 ^ (Z.of_nat maxRetries - 1) - 1))%Z
  /\ ((forall i, (1 <= i <= maxRetries)%nat -> exists e, value (fn i) = inl e) ->
      total_sleep (trace run) = (1000 * (2 ^ (Z.of_nat maxRetries - 1) - 1))%Z)
  /\ (forall k result,
        (1 <= k <= maxRetries)%nat ->
        (forall i, (1 <= i < k)%nat -> exists e, value (fn i) = inl e) ->
        value (fn k) = inr result ->
        total_sleep (trace run) = (1000 * (2 ^ (Z.of_nat k - 1) - 1))%Z)
  /\ retryWithBackoff fn name 0 = ([], inl (ThrownError "Unknown error")).
Proof.
  intros Hplain Hmax run. subst run. unfold retryWithBackoff.
  split; [|split; [|split]].
  - pose proof (retry_loop_sleep_bound fn name maxRetries Hplain maxRetries 1
                  (ThrownError "Unknown error") ltac:(lia)) as H.
    rewrite sum_backoff in H by lia.
    replace (Z.of_nat (1 + (maxRetries - 1)) - 1)%Z with (Z.of_nat maxRetries - 1)%Z in H by lia.
    simpl (2 ^ (Z.of_nat 1 - 1))%Z in H. exact H.
  - intros Hfail.
    destruct (Hfail maxRetries ltac:(lia)) as [error Hlast].
    destruct (retry_loop_all_fail fn name maxRetries Hplain maxRetries 1
                (ThrownError "Unknown error") error) as (_ & _ & Hs & _);
      try assumption; try lia.
    unfold total_sleep. rewrite Hs, sum_backoff by lia.
    replace (Z.of_nat (1 + (maxRetries - 1)) - 1)%Z with (Z.of_nat maxRetries - 1)%Z by lia.
    reflexivity.
  - intros k result Hk Hfail Hok.
    destruct (retry_loop_first_success fn name maxRetries Hplain maxRetries 1 k
                (ThrownError "Unknown error") result) as (_ & _ & Hs);
      try assumption; try lia.
    unfold total_sleep. rewrite Hs, sum_backoff by lia.
    replace (Z.of_nat (1 + (k - 1)) - 1)%Z with (Z.of_nat k - 1)%Z by lia.
    reflexivity.
  - reflexivity.
Qed.

Lemma retry_total_sleep_witness :
  total_sleep (trace (retryWithBackoff flaky_call "Shop info" 3)) = 3000%Z.
Proof.
  destruct (retry_total_sleep flaky_call "Shop info" 3) as (_ & _ & Hk & _).
  - apply http_call_plain.
  - lia.
  - apply (Hk 3%nat 42%nat).
    + lia.
    + intros i Hi. exists (ThrownOther "timeout").
      destruct i as [|[|[|i]]]; try lia; reflexivity.
    + reflexivity.
Defined.

End RetryTiming.

(** ** What the batched sync adds up and sends *)

Section SyncAggregateFacts.
Import JS Effects Retry GraphqlClient SyncAggregates.
Variable MAX_RETRIES : nat.
Variable token : string.
Variable data : ScrapedStoreData.t.
Variable api : nat -> nat -> Thrown + SyncResponse.

Lemma handle_response_totals (n : nat) (st : SyncState) (resp : SyncResponse) :
  let ms := match accepted resp with Some m => [m] | None => [] end in
  totalProductsCreated (handle_response n st resp)
  = (totalProductsCreated st + sum (map productsCreated ms))%Z
  /\ totalVariantsCreated (handle_response n st resp)
     = (totalVariantsCreated st + sum (map variantsCreated ms))%Z
  /\ state_storeId (handle_response n st resp)
     = if truthy (state_storeId st) then state_storeId st
       else first_store_id (state_storeId st) ms.
Proof.
  unfold handle_response, accepted, first_store_id, sum.
  destruct (response_errors resp) as [errs|].
  { cbn. repeat split; try lia. now destruct (truthy (state_storeId st)). }
  destruct (response_data resp) as [m|].
  2:{ cbn. repeat split; try lia. now destruct (truthy (state_storeId st)). }
  destruct (success m).
  2:{ cbn. repeat split; try lia. now destruct (truthy (state_storeId st)). }
  cbn. repeat split; try lia.
  destruct (truthy (storeId m)); destruct (truthy (state_storeId st)); reflexivity.
Qed.

Lemma first_store_id_cons (default : option string) (m : SyncMutationResult)
    (ms : list SyncMutationResult) :
  first_store_id default (m :: ms)
  = if truthy (storeId m) then storeId m else first_store_id default ms.
Proof. unfold first_store_id. simpl. now destruct (truthy (storeId m)). Qed.

Lemma run_batches_totals (starts : list nat) : forall (st st' : SyncState),
  run_batches MAX_RETRIES token data api starts st = inr st' ->
  let ms := accepted_at MAX_RETRIES token data api starts in
  totalProductsCreated st' = (totalProductsCreated st + sum (map productsCreated ms))%Z
  /\ totalVariantsCreated st' = (totalVariantsCreated st + sum (map variantsCreated ms))%Z
  /\ state_storeId st'
     = if truthy (state_storeId st) then state_storeId st
       else first_store_id (state_storeId st) ms.
Proof.
  induction starts as [|i starts IH]; intros st st' Hrun.
  - injection Hrun as <-. cbn. repeat split; try lia.
    now destruct (truthy (state_storeId st)).
  - cbn [run_batches] in Hrun. unfold accepted_at. cbn [flat_map].
    destruct (value (send_batch MAX_RETRIES token data api i)) as [e|resp]; [discriminate|].
    fold (accepted_at MAX_RETRIES token data api starts).
    destruct (IH _ _ Hrun) as (Hp & Hv & Hs).
    destruct (handle_response_totals (batchNum i) st resp) as (Hp1 & Hv1 & Hs1).
    cbv zeta in *. rewrite Hp, Hv, Hs, Hp1, Hv1, Hs1. clear.
    unfold sum. rewrite !map_app, !fold_right_app.
    destruct (accepted resp) as [m|]; cbn [map fold_right app].
    + repeat split; try lia.
      rewrite !first_store_id_cons. unfold first_store_id at 1. cbn [filter].
      destruct (truthy (state_storeId st)) eqn:Est.
      * now rewrite Est.
      * destruct (truthy (storeId m)) eqn:Em; [now rewrite Em|].
        rewrite Est. reflexivity.
    + repeat split; try lia.
      unfold first_store_id at 1. cbn [filter].
      destruct (truthy (state_storeId st)) eqn:Est; now rewrite Est.
Qed.

End SyncAggregateFacts.

Section SyncExtras.
Import JS Effects Retry GraphqlClient SyncAggregates.

(** X10: when every batch request returns within its attempts, the result
    of the sync carries the sums of [productsCreated] and [variantsCreated]
    over the batches whose answer was accepted (no GraphQL error, a mutation
    result, success), and the first non-empty [storeId] among those answers
    in batch order; batches in error add nothing to the sums. *)
Theorem sync_totals
    (MAX_RETRIES : nat) (token : string) (data : ScrapedStoreData.t)
    (api : nat -> nat -> Thrown + SyncResponse) :
  all_answered MAX_RETRIES token data api ->
  let ms := accepted_results MAX_RETRIES token data api in
  exists r,
    outcome_result (value (syncScrapedStoreAndProducts MAX_RETRIES token data api)) = Some r
    /\ productsCreated r = sum (map productsCreated ms)
    /\ variantsCreated r = sum (map variantsCreated ms)
    /\ storeId r = first_store_id None ms.
Proof.
  intros Hall ms. subst ms. rewrite sync_value.
  destruct (run_batches_answered MAX_RETRIES token data api _ initial_state Hall)
    as (st' & Hrun & _).
  rewrite Hrun. destruct (run_batches_totals _ _ _ _ _ _ _ Hrun) as (Hp & Hv & Hs).
  eexists. split; [reflexivity|]. cbn [productsCreated variantsCreated storeId].
  cbn [initial_state totalProductsCreated totalVariantsCreated state_storeId truthy] in *.
  unfold accepted_results. rewrite Hp, Hv, Hs. repeat split; lia.
Qed.

Lemma sync_totals_witness :
  exists r,
    outcome_result (value (syncScrapedStoreAndProducts 3 "token" (sample_data 45) sample_api))
    = Some r
    /\ productsCreated r = 40%Z
    /\ variantsCreated r = 12%Z
    /\ storeId r = Some "store-1".
Proof.
  exact (sync_totals 3 "token" (sample_data 45) sample_api sample_api_all_answered).
Defined.

(** X11: with an empty product list the sync makes no request at all, never
    sends the store or any variant, and reports success with zero counts and
    no store id, whatever the API would answer. *)
Theorem sync_without_products
    (MAX_RETRIES : nat) (token : string) (data : ScrapedStoreData.t)
    (api : nat -> nat -> Thrown + SyncResponse) :
  ScrapedStoreData.products data = [] ->
  syncScrapedStoreAndProducts MAX_RETRIES token data api
  = ([], {| outcome_success := true;
            outcome_message := "All batches synced successfully";
            outcome_result :=
              Some {| success := true;
                      message := "Sync successful";
                      storeId := None;
                      productsCreated := 0;
                      variantsCreated := 0;
                      errors := Some [] |} |}).
Proof.
  intros H. unfold syncScrapedStoreAndProducts, totalProducts. rewrite H. reflexivity.
Qed.

Lemma sync_without_products_witness :
  trace (syncScrapedStoreAndProducts 3 "token" (sample_data 0) down_api) = []
  /\ outcome_success (value (syncScrapedStoreAndProducts 3 "token" (sample_data 0) down_api))
     = true.
Proof.
  rewrite (sync_without_products 3 "token" (sample_data 0) down_api eq_refl).
  split; reflexivity.
Defined.

Lemma sync_requests_sound
    (MAX_RETRIES : nat) (token : string) (data : ScrapedStoreData.t)
    (api : nat -> nat -> Thrown + SyncResponse) :
  Forall (fun r => exists i, In i (batch_starts data) /\ r = batch_request token data i)
    (requests (trace (syncScrapedStoreAndProducts MAX_RETRIES token data api))).
Proof.
  unfold syncScrapedStoreAndProducts. rewrite trace_bind, requests_app.
  destruct (sync_batches_run MAX_RETRIES token data api (totalBatches data)
              (totalProducts data) 0 initial_state) as (_ & Hr & _).
  { lia. }
  { unfold BATCH_SIZE. simpl. lia. }
  apply Forall_app. split; [exact Hr|].
  destruct (value _); constructor.
Qed.

Lemma sync_requests_complete
    (MAX_RETRIES : nat) (token : string) (data : ScrapedStoreData.t)
    (api : nat -> nat -> Thrown + SyncResponse) :
  all_answered MAX_RETRIES token data api ->
  forall i, In i (batch_starts data) ->
    In (batch_request token data i)
      (requests (trace (syncScrapedStoreAndProducts MAX_RETRIES token data api))).
Proof.
  intros Hall i Hi.
  unfold syncScrapedStoreAndProducts. rewrite trace_bind, requests_app.
  apply in_or_app. left.
  destruct (sync_batches_run MAX_RETRIES token data api (totalBatches data)
              (totalProducts data) 0 initial_state) as (Hv & _ & Hsub).
  { lia. }
  { unfold BATCH_SIZE. simpl. lia. }
  destruct (run_batches_answered MAX_RETRIES token data api _ initial_state Hall)
    as (st' & Hst & _).
  change (0 * BATCH_SIZE)%nat with 0%nat in *.
  apply (Hsub st'); [|exact Hi].
  rewrite Hv. exact Hst.
Qed.

(** X12: a variant whose [shopify_product_id] is the [shopify_id] of no
    product of the scrape output is never sent: every variant of every
    request has a parent in the product list; and when every batch request
    returns within its attempts, every variant that has a parent in the
    product list is sent in some request. *)
Theorem sync_sends_parented_variants
    (MAX_RETRIES : nat) (token : string) (data : ScrapedStoreData.t)
    (api : nat -> nat -> Thrown + SyncResponse) :
  let sent := requests (trace (syncScrapedStoreAndProducts MAX_RETRIES token data api)) in
  let has_parent v :=
    exists p, In p (ScrapedStoreData.products data)
              /\ CloreProduct.shopify_id p = CloreProductVariant.shopify_product_id v in
  (forall tok store ps vs v,
     In (PostSync tok store ps vs) sent -> In v vs ->
     In v (ScrapedStoreData.product_variants data) /\ has_parent v)
  /\ (all_answered MAX_RETRIES token data api ->
      forall v, In v (ScrapedStoreData.product_variants data) -> has_parent v ->
        exists tok store ps vs, In (PostSync tok store ps vs) sent /\ In v vs).
Proof.
  intros sent has_parent. subst sent has_parent. cbv beta.
  destruct (batches_partition data) as [Hcat _].
  split.
  - intros tok store ps vs v Hin Hv.
    pose proof (sync_requests_sound MAX_RETRIES token data api) as Hs.
    rewrite Forall_forall in Hs. destruct (Hs _ Hin) as (i & Hi & E).
    unfold batch_request in E. injection E as -> -> -> ->.
    apply variantBatch_spec in Hv as (Hv & p & Hp & Eid).
    split; [exact Hv|]. exists p. split; [|exact Eid].
    rewrite <- Hcat. apply in_concat. exists (productBatch data i).
    split; [|exact Hp]. now apply in_map.
  - intros Hall v Hv (p & Hp & Eid).
    rewrite <- Hcat in Hp. apply in_concat in Hp as (batch & Hb & Hp).
    apply in_map_iff in Hb as (i & <- & Hi).
    exists token, (ScrapedStoreData.store data), (productBatch data i),
      (variantBatch data (productBatch data i)).
    split; [exact (sync_requests_complete _ _ _ _ Hall i Hi)|].
    apply variantBatch_spec. split; [exact Hv|]. now exists p.
Qed.

End SyncExtras.

(** ** How a retried call ends *)

Section RetryCases.
Import JS Effects Retry.
Context {T : Type}.
Variable fn : nat -> Eff (Thrown + T).

(** Among the attempts [attempt, attempt + todo) either one is the first to
    return, or all of them fail. *)
Lemma first_return_or_none (todo : nat) : forall attempt : nat,
  (exists k result,
      (attempt <= k < attempt + todo)%nat
      /\ (forall i, (attempt <= i < k)%nat -> exists e, value (fn i) = inl e)
      /\ value (fn k) = inr result)
  \/ (forall i, (attempt <= i < attempt + todo)%nat -> exists e, value (fn i) = inl e).
Proof.
  induction todo as [|todo IH]; intros attempt.
  - right. intros i Hi. lia.
  - destruct (value (fn attempt)) as [e|result] eqn:Hf.
    + destruct (IH (S attempt)) as [(k & result & Hk & Hfail & Hok)|Hall].
      * left. exists k, result. split; [lia|]. split; [|exact Hok].
        intros i Hi. destruct (Nat.eq_dec i attempt) as [->|Hne]; [now exists e|].
        apply Hfail. lia.
      * right. intros i Hi. destruct (Nat.eq_dec i attempt) as [->|Hne]; [now exists e|].
        apply Hall. lia.
    + left. exists attempt, result. split; [lia|]. split; [|exact Hf].
      intros i Hi. lia.
Qed.

Variable name : string.
Variable maxRetries : nat.
Hypothesis fn_plain : plain fn.

(** The two ways a retried call ends: the first attempt that returns, or
    every attempt failed. *)
Lemma retryWithBackoff_cases :
  let run := retryWithBackoff fn name maxRetries in
  (exists k result,
      (1 <= k <= maxRetries)%nat
      /\ (forall i, (1 <= i < k)%nat -> exists e, value (fn i) = inl e)
      /\ value (fn k) = inr result
      /\ value run = inr result
      /\ invocations (trace run) = seq 1 k
      /\ sleeps (trace run) = map backoff (seq 1 (k - 1)))
  \/ ((forall i, (1 <= i <= maxRetries)%nat -> exists e, value (fn i) = inl e)
      /\ (exists m, value run = inl (ThrownError m)
                     /\ (maxRetries = 0%nat -> m = "Unknown error")
                     /\ (forall error, value (fn maxRetries) = inl error ->
                           (1 <= maxRetries)%nat -> m = message_of error))
      /\ invocations (trace run) = seq 1 maxRetries
      /\ sleeps (trace run) = map backoff (seq 1 (maxRetries - 1))).
Proof.
  intros run. subst run. unfold retryWithBackoff.
  destruct (first_return_or_none maxRetries 1) as [(k & result & Hk & Hfail & Hok)|Hall].
  - left. exists k, result.
    destruct (retry_loop_first_success fn name maxRetries fn_plain maxRetries 1 k
                (ThrownError "Unknown error") result) as (Hv & Hi & Hs);
      try lia; auto.
    replace (S k - 1)%nat with k in Hi by lia.
    repeat split; try lia; auto.
  - right. split; [intros i Hi; apply Hall; lia|].
    destruct maxRetries as [|m] eqn:Hm.
    + split; [|split; reflexivity].
      exists "Unknown error". split; [reflexivity|]. split; [reflexivity|]. intros; lia.
    + destruct (Hall (S m)) as [error Herr]; [lia|].
      destruct (retry_loop_all_fail fn name (S m) fn_plain (S m) 1
                  (ThrownError "Unknown error") error) as (Hv & Hi & Hs & _);
        try lia; auto.
      { intros i Hi. apply Hall. lia. }
      split; [|split; assumption].
      exists (message_of error). split; [exact Hv|]. split; [discriminate|].
      intros error' Herr' _. congruence.
Qed.

End RetryCases.

(** ** Deleting a store *)

Section DeleteFacts.
Import JS Effects Retry DeleteStore.
Variable MAX_RETRIES : nat.
Variable storeId : string.
Variable api : nat -> Thrown + DeleteStoreResponse.

Lemma delete_call_plain : plain (fun attempt : nat => ret (api attempt)).
Proof. intros k. split; reflexivity. Qed.

Lemma deleteStoreById_trace :
  trace (deleteStoreById MAX_RETRIES storeId api) = trace (send_delete MAX_RETRIES api).
Proof.
  unfold deleteStoreById. rewrite trace_bind.
  destruct (value (send_delete MAX_RETRIES api)) as [e|result].
  - apply app_nil_r.
  - destruct (delete_errors result); [apply app_nil_r|].
    destruct (delete_data result) as [[|]|]; apply app_nil_r.
Qed.

Lemma deleteStoreById_value :
  value (deleteStoreById MAX_RETRIES storeId api)
  = match value (send_delete MAX_RETRIES api) with
    | inl error =>
        {| delete_success := false;
           delete_message := "Delete error: " ++ message_of error |}
    | inr result =>
        match delete_errors result with
        | Some errs =>
            {| delete_success := false;
               delete_message := "GraphQL error: " ++ join ", " errs |}
        | None =>
            match delete_data result with
            | None => {| delete_success := false;
                         delete_message := "No delete result in response" |}
            | Some false => {| delete_success := false;
                               delete_message := "Delete mutation failed" |}
            | Some true =>
                {| delete_success := true;
                   delete_message := "Store " ++ storeId ++ " deleted successfully" |}
            end
        end
    end.
Proof.
  unfold deleteStoreById. rewrite value_bind.
  destruct (value (send_delete MAX_RETRIES api)) as [e|result]; [reflexivity|].
  destruct (delete_errors result); [reflexivity|].
  destruct (delete_data result) as [[|]|]; reflexivity.
Qed.

(** X13: deleteStoreById reports success exactly when the first attempt
    that gets any response (within the allowed attempts, all earlier ones
    having failed) gets one with no errors field and deleteStore = true.  A
    response is never retried, whatever it says: the calls are attempts
    1..k up to the first response, and a response with an errors field is a
    failure even when it also carries deleteStore = true.  When no attempt
    gets a response the outcome is a failure with the message "Delete
    error: " followed by the message of the last attempt's error, after
    exactly the allowed number of calls.  The function never makes more
    calls than allowed. *)
Theorem deleteStoreById_outcome :
  let run := deleteStoreById MAX_RETRIES storeId api in
  let first_response k resp :=
    (1 <= k <= MAX_RETRIES)%nat
    /\ (forall i, (1 <= i < k)%nat -> exists e, api i = inl e)
    /\ api k = inr resp in
  (delete_success (value run) = true
   <-> exists k resp, first_response k resp
                      /\ delete_errors resp = None /\ delete_data resp = Some true)
  /\ (forall k resp, first_response k resp ->
        invocations (trace run) = seq 1 k
        /\ sleeps (trace run) = map backoff (seq 1 (k - 1))
        /\ (forall errs, delete_errors resp = Some errs ->
              value run = {| delete_success := false;
                             delete_message := "GraphQL error: " ++ join ", " errs |})
        /\ (delete_errors resp = None -> delete_data resp = Some true ->
              value run = {| delete_success := true;
                             delete_message := "Store " ++ storeId
                                               ++ " deleted successfully" |}))
  /\ ((forall i, (1 <= i <= MAX_RETRIES)%nat -> exists e, api i = inl e) ->
        invocations (trace run) = seq 1 MAX_RETRIES
        /\ forall error, api MAX_RETRIES = inl error -> (1 <= MAX_RETRIES)%nat ->
              value run = {| delete_success := false;
                             delete_message := "Delete error: " ++ message_of error |})
  /\ (List.length (invocations (trace run)) <= MAX_RETRIES)%nat.
Proof.
  intros run first_response. subst run.
  rewrite deleteStoreById_trace, deleteStoreById_value. unfold send_delete.
  pose proof (retryWithBackoff_cases (fun attempt : nat => ret (api attempt))
                "GraphQL delete request" MAX_RETRIES delete_call_plain) as Hcases.
  cbv zeta in Hcases.
  change (fun i => value (ret (api i))) with api in Hcases.
  assert (Huniq : forall k resp k' resp',
             first_response k resp -> first_response k' resp' -> k = k' /\ resp = resp').
  { intros k resp k' resp' (Hk & Hf & Ha) (Hk' & Hf' & Ha').
    assert (k = k').
    { destruct (Nat.lt_trichotomy k k') as [Hlt|[Heq|Hgt]]; [|exact Heq|].
      - destruct (Hf' k) as [e He]; [lia|]. congruence.
      - destruct (Hf k') as [e He]; [lia|]. congruence. }
    subst k'. split; [reflexivity|congruence]. }
  destruct Hcases as [(k & resp & Hk & Hfail & Hok & Hv & Hi & Hs)
                     |(Hall & (m & Hv & _ & Hm) & Hi & Hs)].
  - change (value (ret (api k))) with (api k) in Hok.
    assert (Hfirst : first_response k resp).
    { split; [exact Hk|]. split; [|exact Hok]. intros i Hr. apply (Hfail i Hr). }
    rewrite Hv, Hi, Hs. split; [|split; [|split]].
    + split.
      * intros Hsucc. exists k, resp. split; [exact Hfirst|].
        destruct (delete_errors resp); [discriminate|].
        destruct (delete_data resp) as [[|]|]; try discriminate. now split.
      * intros (k' & resp' & Hfirst' & He & Hd).
        destruct (Huniq _ _ _ _ Hfirst Hfirst') as [<- <-].
        now rewrite He, Hd.
    + intros k' resp' Hfirst'.
      destruct (Huniq _ _ _ _ Hfirst Hfirst') as [<- <-].
      split; [reflexivity|]. split; [reflexivity|]. split.
      * intros errs ->. reflexivity.
      * intros -> ->. reflexivity.
    + intros Hnone. destruct (Hnone k) as [e He]; [lia|]. congruence.
    + rewrite length_seq. lia.
  - rewrite Hv, Hi. split; [|split; [|split]].
    + split; [discriminate|].
      intros (k' & resp' & (Hk' & _ & Ha') & _).
      destruct (Hall k') as [e He]; [lia|].
      change (value (ret (api k'))) with (api k') in He. congruence.
    + intros k' resp' (Hk' & _ & Ha').
      destruct (Hall k') as [e He]; [lia|].
      change (value (ret (api k'))) with (api k') in He. congruence.
    + intros _. split; [reflexivity|]. intros error Herr Hmax.
      now rewrite (Hm error Herr Hmax).
    + rewrite length_seq. lia.
Qed.

(** A response that carries both an errors field and [deleteStore = true],
    after one failed attempt: a failure, and two calls. *)
Example delete_errors_take_precedence :
  let api k :=
    match k with
    | 1%nat => inl (ThrownError "timeout")
    | _ => inr {| delete_data := Some true; delete_errors := Some ["denied"; "again"] |}
    end in
  value (deleteStoreById 3 "s1" api)
  = {| delete_success := false; delete_message := "GraphQL error: denied, again" |}
  /\ invocations (trace (deleteStoreById 3 "s1" api)) = [1; 2]%nat
  /\ sleeps (trace (deleteStoreById 3 "s1" api)) = [1000%Z].
Proof. repeat split. Qed.

End DeleteFacts.

(** ** Detection *)

Lemma option_eq_dec_Z (a b : option Z) : {a = b} + {a <> b}.
Proof. decide equality. apply Z.eq_dec. Qed.

Section DetectFacts.
Import JS Effects Retry ShopifyScraper Detection.
Variable MAX_RETRIES : nat.
Variable response_status : Thrown -> option Z.
Variable error_name : Thrown -> string.
Variable domain : string.
Variable root : nat -> Thrown + ShopifyProductsResponse.

Local Abbreviation has_products_array := (has_products_array root).

Lemma probe_plain : plain (probe root).
Proof. intros k. split; reflexivity. Qed.

Lemma probe_returns (k : nat) :
  (exists r, value (probe root k) = inr r) <-> has_products_array k = true.
Proof.
  unfold probe, has_products_array. change (value (ret ?x)) with x.
  destruct (root k) as [e|response].
  - split; [intros [r H]; discriminate|discriminate].
  - destruct (response_products response).
    + split; [reflexivity|]. intros _. now eexists.
    + split; [intros [r H]; discriminate|discriminate].
Qed.

Lemma probe_fails (k : nat) :
  (exists e, value (probe root k) = inl e) <-> has_products_array k = false.
Proof.
  unfold probe, has_products_array. change (value (ret ?x)) with x.
  destruct (root k) as [e|response].
  - split; [reflexivity|]. intros _. now eexists.
  - destruct (response_products response).
    + split; [intros [r H]; discriminate|discriminate].
    + split; [reflexivity|]. intros _. now eexists.
Qed.

Lemma detectShopifyStore_trace :
  trace (detectShopifyStore MAX_RETRIES response_status error_name domain root)
  = trace (retryWithBackoff (probe root) ("Detection of " ++ domain) MAX_RETRIES).
Proof.
  unfold detectShopifyStore. rewrite trace_bind.
  destruct (value (retryWithBackoff _ _ _)) as [e|r]; [|apply app_nil_r].
  destruct (response_status e) as [[|[p|p|]|]|]; try apply app_nil_r.
  do 8 (destruct p as [p|p|]; try apply app_nil_r).
Qed.

Lemma detectShopifyStore_value :
  let r := value (retryWithBackoff (probe root) ("Detection of " ++ domain) MAX_RETRIES) in
  let out := value (detectShopifyStore MAX_RETRIES response_status error_name domain root) in
  match r with
  | inr _ => out = {| isShopify := true; detection_error := None |}
  | inl e =>
      isShopify out = false
      /\ (response_status e = Some 404%Z ->
          detection_error out = Some ("No products.json endpoint found at " ++ domain))
      /\ (response_status e <> Some 404%Z ->
          detection_error out = Some ("Detection failed: " ++ caught_message error_name e))
  end.
Proof.
  intros r out. subst r out. unfold detectShopifyStore. rewrite value_bind.
  destruct (value (retryWithBackoff _ _ _)) as [e|r]; [|reflexivity].
  destruct (response_status e) as [[|[p|p|]|]|];
    try (split; [reflexivity|split; [discriminate|reflexivity]]).
  do 8 (destruct p as [p|p|];
        try (split; [reflexivity|split; [discriminate|reflexivity]])).
  split; [reflexivity|]. split; [reflexivity|]. intros H. now destruct H.
Qed.

(** X14: detectShopifyStore answers isShopify = true exactly when one of
    the allowed attempts gets an answer that has a products array (an empty
    array counts); an answer without one is treated like a failed request
    and retried.  The calls are attempts 1..k up to the first such answer,
    or all the allowed attempts when there is none.  A positive result
    carries no error; a negative one always carries a non-empty error
    text, which starts with "Detection failed: " unless the caught error
    has status 404, so the caller's fallback text "Not a Shopify store" is
    never used. *)
Theorem detectShopifyStore_outcome :
  let run := detectShopifyStore MAX_RETRIES response_status error_name domain root in
  let out := value run in
  (isShopify out = true
   <-> exists k, (1 <= k <= MAX_RETRIES)%nat /\ has_products_array k = true)
  /\ (forall k, (1 <= k <= MAX_RETRIES)%nat -> has_products_array k = true ->
        (forall i, (1 <= i < k)%nat -> has_products_array i = false) ->
        invocations (trace run) = seq 1 k
        /\ sleeps (trace run) = map backoff (seq 1 (k - 1)))
  /\ (isShopify out = false ->
        invocations (trace run) = seq 1 MAX_RETRIES
        /\ sleeps (trace run) = map backoff (seq 1 (MAX_RETRIES - 1)))
  /\ (isShopify out = true -> detection_error out = None)
  /\ (isShopify out = false ->
        exists text,
          detection_error out = Some text
          /\ text <> EmptyString
          /\ or_default (detection_error out) "Not a Shopify store" = text
          /\ text <> "Not a Shopify store"
          /\ (text = "No products.json endpoint found at " ++ domain
              \/ exists m, text = "Detection failed: " ++ m)).
Proof.
  intros run out. subst run out.
  rewrite detectShopifyStore_trace.
  pose proof detectShopifyStore_value as Hval. cbv zeta in Hval.
  pose proof (retryWithBackoff_cases (probe root) ("Detection of " ++ domain)
                MAX_RETRIES probe_plain) as Hcases.
  cbv zeta in Hcases.
  destruct Hcases as [(k & resp & Hk & Hfail & Hok & Hv & Hi & Hs)
                     |(Hall & (m & Hv & _) & Hi & Hs)].
  - rewrite Hv in Hval. rewrite Hval, Hi, Hs.
    assert (Hk_ok : has_products_array k = true).
    { apply probe_returns. now exists resp. }
    split; [|split; [|split; [|split]]].
    + split; [|reflexivity]. intros _. now exists k.
    + intros k' Hk' Hok' Hfail'.
      assert (k' = k).
      { destruct (Nat.lt_trichotomy k' k) as [Hlt|[Heq|Hgt]]; [|exact Heq|].
        - assert (Hf : has_products_array k' = false)
            by (apply probe_fails, Hfail; lia).
          congruence.
        - rewrite Hfail' in Hk_ok; [discriminate|lia]. }
      subst k'. now split.
    + discriminate.
    + reflexivity.
    + discriminate.
  - rewrite Hv in Hval. destruct Hval as (Hfalse & H404 & Hother). rewrite Hfalse, Hi, Hs.
    split; [|split; [|split; [|split]]].
    + split; [discriminate|]. intros (k & Hk & Hok).
      assert (Hf : has_products_array k = false) by (apply probe_fails, Hall; lia).
      congruence.
    + intros k Hk Hok _.
      assert (Hf : has_products_array k = false) by (apply probe_fails, Hall; lia).
      congruence.
    + now split.
    + discriminate.
    + intros _.
      destruct (option_eq_dec_Z (response_status (ThrownError m)) (Some 404%Z)) as [Hs404|Hs404].
      * rewrite (H404 Hs404). eexists. split; [reflexivity|].
        split; [discriminate|]. split; [reflexivity|]. split; [discriminate|]. now left.
      * rewrite (Hother Hs404). eexists. split; [reflexivity|].
        split; [discriminate|]. split; [reflexivity|]. split; [discriminate|].
        right. now eexists.
Qed.

End DetectFacts.

(** A host that answers without a products array: the answer is retried
    like a failure, and the result is negative. *)
Example detection_retries_answers_without_array :
  Effects.value
    (Detection.detectShopifyStore 3 no_status plain_error_name "shop.com"
       (missing_root "shop.com"))
  = {| Detection.isShopify := false;
       Detection.detection_error :=
         Some "Detection failed: Response missing products array" |}
  /\ Effects.invocations
       (Effects.trace
          (Detection.detectShopifyStore 3 no_status plain_error_name "shop.com"
             (missing_root "shop.com")))
     = [1; 2; 3]%nat
  /\ Effects.sleeps
       (Effects.trace
          (Detection.detectShopifyStore 3 no_status plain_error_name "shop.com"
             (missing_root "shop.com")))
     = [1000; 2000]%Z.
Proof. repeat split. Qed.

(** ** The shop information *)

Section ShopInfoFacts.
Import JS Effects Retry ShopifyDetector.

(** A retried request is sent once for each call of the operation. *)
Lemma retry_loop_requests_repeat {T : Type} (request : Request)
    (answer : nat -> Thrown + T) (name : string) (maxRetries todo : nat) :
  forall (attempt : nat) (lastError : Thrown),
  requests (trace (retry_loop (http_call request answer) name maxRetries
                     todo attempt lastError))
  = repeat request
      (List.length (invocations (trace (retry_loop (http_call request answer) name
                                          maxRetries todo attempt lastError)))).
Proof.
  induction todo as [|todo IH]; intros attempt lastError; [reflexivity|].
  rewrite retry_loop_turn, !trace_bind, !requests_app, !invocations_app, !length_app.
  change (value (http_call request answer attempt)) with (answer attempt).
  destruct (answer attempt) as [error|result]; [|reflexivity].
  rewrite trace_bind, requests_app, invocations_app, length_app, IH.
  unfold on_failure. destruct (attempt <? maxRetries)%nat; reflexivity.
Qed.

Lemma retried_request_count {T : Type} (request : Request)
    (answer : nat -> Thrown + T) (name : string) (maxRetries : nat) :
  exists n, (n <= maxRetries)%nat
    /\ requests (trace (retryWithBackoff (http_call request answer) name maxRetries))
       = repeat request n
    /\ List.length (invocations
                      (trace (retryWithBackoff (http_call request answer) name maxRetries)))
       = n.
Proof.
  eexists. split; [|split; [apply retry_loop_requests_repeat|reflexivity]].
  apply retry_loop_invocations_bound, http_call_plain.
Qed.

Variable MAX_RETRIES : nat.
Variable domain : string.
Variable shop_json : nat -> Thrown + ShopResponse.
Variable storefront : nat -> Thrown + StorefrontResponse.

Lemma getShopBranding_run :
  let run := getShopBranding MAX_RETRIES domain storefront in
  (exists n, (n <= MAX_RETRIES)%nat
     /\ requests (trace run) = repeat (PostStorefront domain) n
     /\ List.length (invocations (trace run)) = n)
  /\ branding_logo_url (value run) <> Some EmptyString
  /\ branding_description (value run) <> Some EmptyString.
Proof.
  intros run. subst run. unfold getShopBranding.
  rewrite trace_bind, value_bind.
  destruct (retried_request_count (PostStorefront domain) storefront
              ("Storefront GraphQL fetch for " ++ domain) MAX_RETRIES)
    as (n & Hn & Hr & Hi).
  assert (Hnull : forall o, or_null o <> Some EmptyString).
  { intros [[|c s]|]; discriminate. }
  destruct (value (retryWithBackoff _ _ _)) as [e|[body|]].
  - split; [|split; discriminate].
    exists n. rewrite app_nil_r. auto.
  - destruct (data_shop body) as [data|].
    + split; [exists n; rewrite app_nil_r; auto|].
      split; apply Hnull.
    + split; [exists n; rewrite app_nil_r; auto|]. split; discriminate.
  - split; [|split; discriminate].
    exists n. rewrite app_nil_r. auto.
Qed.

Lemma getShopInfo_run :
  let run := getShopInfo MAX_RETRIES domain shop_json storefront in
  let info := value run in
  currency info <> EmptyString
  /\ logo_url info <> Some EmptyString
  /\ description info <> Some EmptyString
  /\ exists a b, (a <= MAX_RETRIES)%nat /\ (b <= MAX_RETRIES)%nat
       /\ requests (trace run)
          = (repeat (GetShop domain) a ++ repeat (PostStorefront domain) b)%list
       /\ List.length (invocations (trace run)) = (a + b)%nat.
Proof.
  intros run info. subst run info. unfold getShopInfo.
  rewrite trace_bind, value_bind.
  destruct (retried_request_count (GetShop domain) shop_json
              ("Shop info fetch for " ++ domain) MAX_RETRIES)
    as (a & Ha & Hr & Hi).
  assert (Hnull : forall o, or_null o <> Some EmptyString).
  { intros [[|c s]|]; discriminate. }
  assert (Hstop : exists a b, (a <= MAX_RETRIES)%nat /\ (b <= MAX_RETRIES)%nat
       /\ requests (trace (retryWithBackoff (http_call (GetShop domain) shop_json)
                             ("Shop info fetch for " ++ domain) MAX_RETRIES) ++ [])
          = (repeat (GetShop domain) a ++ repeat (PostStorefront domain) b)%list
       /\ List.length (invocations
                         (trace (retryWithBackoff (http_call (GetShop domain) shop_json)
                                   ("Shop info fetch for " ++ domain) MAX_RETRIES) ++ []))
          = (a + b)%nat).
  { exists a, 0%nat. rewrite !app_nil_r, Nat.add_0_r. repeat split; auto; lia. }
  destruct (value (retryWithBackoff _ _ _)) as [e|[body|]].
  - split; [discriminate|]. split; [discriminate|]. split; [discriminate|]. exact Hstop.
  - destruct (shop body) as [shop|].
    + rewrite trace_bind, value_bind.
      destruct getShopBranding_run as ((b & Hb & Hrb & Hib) & _).
      cbn [currency logo_url description].
      split; [destruct (shop_currency shop) as [[|c s]|]; discriminate|].
      split; [apply Hnull|]. split; [apply Hnull|].
      exists a, b.
      change (trace (ret ?x)) with (@nil Event).
      rewrite app_nil_r, requests_app, invocations_app, length_app, Hr, Hrb, Hi, Hib.
      repeat split; auto.
    + split; [discriminate|]. split; [discriminate|]. split; [discriminate|]. exact Hstop.
  - split; [discriminate|]. split; [discriminate|]. split; [discriminate|]. exact Hstop.
Qed.


(** X15: whatever the two endpoints answer, getShopInfo returns a record
    whose currency is not empty and whose logo and description are null or
    a non-empty text, never the empty string.  Its requests are at most
    MAX_RETRIES requests for /shop.json followed by at most MAX_RETRIES
    requests to the storefront API, in this order and nothing else. *)
Theorem getShopInfo_result_shape :
  let run := getShopInfo MAX_RETRIES domain shop_json storefront in
  let info := value run in
  currency info <> EmptyString
  /\ logo_url info <> Some EmptyString
  /\ description info <> Some EmptyString
  /\ exists a b, (a <= MAX_RETRIES)%nat /\ (b <= MAX_RETRIES)%nat
       /\ requests (trace run)
          = (repeat (GetShop domain) a ++ repeat (PostStorefront domain) b)%list
       /\ List.length (invocations (trace run)) = (a + b)%nat.
Proof. exact getShopInfo_run. Qed.

End ShopInfoFacts.

(** ** The scraper's requests and pauses, page by page *)

Section ScrapeTrace.
Import JS Effects Retry ShopifyScraper.

Lemma requests_flat_map {A : Type} (f : A -> list Event) (l : list A) :
  requests (flat_map f l) = flat_map (fun x => requests (f x)) l.
Proof.
  induction l as [|x l IH]; [reflexivity|].
  cbn [flat_map]. now rewrite requests_app, IH.
Qed.

Lemma sleeps_flat_map {A : Type} (f : A -> list Event) (l : list A) :
  sleeps (flat_map f l) = flat_map (fun x => sleeps (f x)) l.
Proof.
  induction l as [|x l IH]; [reflexivity|].
  cbn [flat_map]. now rewrite sleeps_app, IH.
Qed.

Lemma flat_map_singleton {A B : Type} (f : A -> B) (l : list A) :
  flat_map (fun x => [f x]) l = map f l.
Proof. induction l as [|x l IH]; [reflexivity|]. cbn [flat_map map app]. now rewrite IH. Qed.

Lemma flat_map_ext_in {A B : Type} (f g : A -> list B) (l : list A) :
  (forall x, In x l -> f x = g x) -> flat_map f l = flat_map g l.
Proof.
  induction l as [|x l IH]; intros H; [reflexivity|].
  cbn [flat_map]. rewrite (H x (or_introl eq_refl)), IH; [reflexivity|].
  intros y Hy. apply H. now right.
Qed.

Lemma map_const_repeat {A B : Type} (b : B) (l : list A) :
  map (fun _ => b) l = repeat b (List.length l).
Proof. induction l as [|x l IH]; [reflexivity|]. cbn. now rewrite IH. Qed.

Variable MAX_RETRIES : nat.
Variable RATE_LIMIT_DELAY : Z.
Variable domain : string.
Variable feed : nat -> nat -> Thrown + ShopifyProductsResponse.

Local Abbreviation scrape_pages' := (scrape_pages MAX_RETRIES RATE_LIMIT_DELAY domain feed).
Local Abbreviation fetch_page' := (fetch_page MAX_RETRIES domain feed).
Local Abbreviation page_products' := (page_products MAX_RETRIES domain feed).

Lemma scrape_pages_trace (n : nat) : forall (fuel page : nat) (acc : Acc),
  (forall p, (page <= p < page + n)%nat -> page_products' p <> None) ->
  page_products' (page + n) = None ->
  (n < fuel)%nat ->
  trace (scrape_pages' fuel page acc)
  = (flat_map (fun p => trace (fetch_page' p) ++ [Sleep RATE_LIMIT_DELAY]) (seq page n)
     ++ trace (fetch_page' (page + n)))%list.
Proof.
  induction n as [|n IH]; intros fuel page acc Hgo Hstop Hf;
    (destruct fuel as [|fuel]; [lia|]).
  - rewrite Nat.add_0_r in Hstop.
    destruct (scrape_pages_stop MAX_RETRIES RATE_LIMIT_DELAY domain feed fuel page acc Hstop)
      as [_ ->].
    now rewrite Nat.add_0_r.
  - destruct (page_products' page) as [ps|] eqn:Hp; [|destruct (Hgo page); [lia|exact Hp]].
    destruct (scrape_pages_continue MAX_RETRIES RATE_LIMIT_DELAY domain feed fuel page acc ps Hp)
      as [_ ->].
    replace (page + S n)%nat with (S page + n)%nat in * by lia.
    rewrite (IH fuel (S page)); try lia; auto.
    + cbn [seq flat_map]. now rewrite <- !app_assoc.
    + intros p Hr. apply Hgo. lia.
Qed.

Lemma fetch_page_attempts (page : nat) :
  requests (trace (fetch_page' page))
  = repeat (GetProducts domain page)
      (List.length (invocations (trace (fetch_page' page))))
  /\ (List.length (invocations (trace (fetch_page' page))) <= MAX_RETRIES)%nat
  /\ (page_products' page <> None ->
      (1 <= List.length (invocations (trace (fetch_page' page))))%nat).
Proof.
  split; [apply retry_loop_requests_repeat|].
  split; [apply retry_loop_invocations_bound, http_call_plain|].
  unfold page_products, fetch_page.
  destruct (retryWithBackoff_cases (http_call (GetProducts domain page) (feed page))
              ("Page " ++ string_of_nat page ++ " of " ++ domain) MAX_RETRIES
              (http_call_plain _ _))
    as [(k & result & Hk & _ & _ & _ & -> & _)|(_ & (m & -> & _) & _)].
  - intros _. rewrite length_seq. lia.
  - intros H. now destruct H.
Qed.

Lemma fetch_page_at_once (page : nat) (response : ShopifyProductsResponse) :
  (1 <= MAX_RETRIES)%nat ->
  feed page 1%nat = inr response ->
  requests (trace (fetch_page' page)) = [GetProducts domain page]
  /\ sleeps (trace (fetch_page' page)) = [].
Proof.
  intros Hmax Hfeed. unfold fetch_page, retryWithBackoff.
  destruct MAX_RETRIES as [|m] eqn:Hm; [lia|].
  rewrite retry_loop_requests_repeat.
  destruct (retry_loop_successful_turn (http_call (GetProducts domain page) (feed page))
              ("Page " ++ string_of_nat page ++ " of " ++ domain) (S m)
              (http_call_plain _ _) m 1 (ThrownError "Unknown error") response Hfeed)
    as (_ & -> & ->).
  split; reflexivity.
Qed.

(** X16: let pages 1..n each be fetched with one product or more and let
    page n+1 fail or hold no product.  Then what the scraper does is, page
    by page in ascending order, the retried fetch of the page followed by
    one pause of RATE_LIMIT_DELAY, and last the retried fetch of page n+1
    with no pause after it.  So its requests are those for pages 1..n+1 in
    this order, each page requested as often as the retry helper called
    the fetch: at most MAX_RETRIES times, and at least once for pages
    1..n.  When every page answers at the first attempt there are exactly
    n+1 requests, one for each page, and the pauses are exactly n times
    RATE_LIMIT_DELAY. *)
Theorem scrape_trace_by_page (n fuel : nat) :
  (forall p, (1 <= p <= n)%nat -> page_products' p <> None) ->
  page_products' (S n) = None ->
  (n < fuel)%nat ->
  let run := scrapeShopifyProducts MAX_RETRIES RATE_LIMIT_DELAY domain feed fuel in
  let attempts p := List.length (invocations (trace (fetch_page' p))) in
  trace run
  = (flat_map (fun p => trace (fetch_page' p) ++ [Sleep RATE_LIMIT_DELAY]) (seq 1 n)
     ++ trace (fetch_page' (S n)))%list
  /\ requests (trace run)
     = flat_map (fun p => repeat (GetProducts domain p) (attempts p)) (seq 1 (S n))
  /\ (forall p, (attempts p <= MAX_RETRIES)%nat)
  /\ (forall p, (1 <= p <= n)%nat -> (1 <= attempts p)%nat)
  /\ ((1 <= MAX_RETRIES)%nat ->
      (forall p, (1 <= p <= S n)%nat -> exists response, feed p 1%nat = inr response) ->
      requests (trace run) = map (GetProducts domain) (seq 1 (S n))
      /\ sleeps (trace run) = repeat RATE_LIMIT_DELAY n).
Proof.
  intros Hgo Hstop Hfuel run attempts. subst run attempts.
  assert (Ht : trace (scrapeShopifyProducts MAX_RETRIES RATE_LIMIT_DELAY domain feed fuel)
               = (flat_map (fun p => trace (fetch_page' p) ++ [Sleep RATE_LIMIT_DELAY])
                    (seq 1 n)
                  ++ trace (fetch_page' (S n)))%list).
  { unfold scrapeShopifyProducts. rewrite trace_bind.
    change (trace (ret ?x)) with (@nil Event). rewrite app_nil_r.
    apply (scrape_pages_trace n fuel 1); auto.
    intros p Hp. apply Hgo. lia. }
  rewrite Ht. split; [reflexivity|].
  rewrite requests_app, requests_flat_map, sleeps_app, sleeps_flat_map.
  split; [|split; [|split]].
  - rewrite seq_S, flat_map_app. cbn [flat_map Nat.add]. rewrite app_nil_r.
    f_equal; [|apply fetch_page_attempts].
    apply flat_map_ext. intros p.
    rewrite requests_app. cbn [requests flat_map]. rewrite app_nil_r.
    apply fetch_page_attempts.
  - intros p. apply fetch_page_attempts.
  - intros p Hp. apply fetch_page_attempts, Hgo, Hp.
  - intros Hmax Hfirst. split.
    + rewrite seq_S, map_app. cbn [map Nat.add].
      f_equal.
      * rewrite <- flat_map_singleton. apply flat_map_ext_in. intros p Hin.
        apply in_seq in Hin. destruct (Hfirst p) as [response Hr]; [lia|].
        rewrite requests_app. cbn [requests flat_map]. rewrite app_nil_r.
        apply (fetch_page_at_once p response Hmax Hr).
      * destruct (Hfirst (S n)) as [response Hr]; [lia|].
        apply (fetch_page_at_once (S n) response Hmax Hr).
    + destruct (Hfirst (S n)) as [response Hr]; [lia|].
      rewrite (proj2 (fetch_page_at_once (S n) response Hmax Hr)), app_nil_r.
      replace (repeat RATE_LIMIT_DELAY n)
        with (repeat RATE_LIMIT_DELAY (List.length (seq 1 n))) by now rewrite length_seq.
      rewrite <- map_const_repeat, <- flat_map_singleton.
      apply flat_map_ext_in. intros p Hin.
      apply in_seq in Hin. destruct (Hfirst p) as [response' Hr']; [lia|].
      rewrite sleeps_app, (proj2 (fetch_page_at_once p response' Hmax Hr')).
      reflexivity.
Qed.

End ScrapeTrace.

Lemma scrape_trace_by_page_witness :
  Effects.requests
    (Effects.trace (ShopifyScraper.scrapeShopifyProducts 2 2000 "shop.com" sample_feed 5))
  = flat_map
      (fun p => repeat (Effects.GetProducts "shop.com" p)
                  (List.length
                     (Effects.invocations
                        (Effects.trace (ShopifyScraper.fetch_page 2 "shop.com" sample_feed p)))))
      (seq 1 2).
Proof.
  refine (proj1 (proj2 (scrape_trace_by_page 2 2000 "shop.com" sample_feed 1 5 _ _ _))).
  - intros p Hp. assert (p = 1%nat) as -> by lia. discriminate.
  - reflexivity.
  - lia.
Defined.

(** ** The scrape pipeline *)

Section PipelineFacts.
Import JS Effects Retry Validators DomainNormalizer StoreNames ShopifyScraper DataMapperAll
  ShopifyDetector Detection Pipeline.

Lemma normalizeDomain_valid (input d : string) :
  normalizeDomain input = inr d -> isValidDomain d = true.
Proof.
  unfold normalizeDomain.
  destruct (isValidDomain _) eqn:Hv; cbn [negb]; [|discriminate].
  now intros [= <-].
Qed.

Lemma normalizeDomain_message (input : string) (e : Thrown) :
  normalizeDomain input = inl e ->
  exists candidate, message_of e = "Invalid domain format: " ++ candidate.
Proof.
  unfold normalizeDomain.
  destruct (isValidDomain _); cbn [negb]; [discriminate|].
  intros [= <-]. now eexists.
Qed.

(** A retried operation that sends nothing leaves no request. *)
Lemma retry_loop_no_requests {T : Type} (fn : nat -> Eff (Thrown + T)) (name : string)
    (maxRetries todo : nat) :
  (forall k, requests (trace (fn k)) = []) ->
  forall (attempt : nat) (lastError : Thrown),
  requests (trace (retry_loop fn name maxRetries todo attempt lastError)) = [].
Proof.
  intros Hfn. induction todo as [|todo IH]; intros attempt lastError; [reflexivity|].
  rewrite retry_loop_turn, !trace_bind, !requests_app, Hfn.
  destruct (value (fn attempt)) as [error|result]; [|reflexivity].
  rewrite trace_bind, requests_app, IH.
  unfold on_failure. destruct (attempt <? maxRetries)%nat; reflexivity.
Qed.

Lemma scrape_pages_requests (MAX_RETRIES : nat) (RATE_LIMIT_DELAY : Z) (domain : string)
    (feed : nat -> nat -> Thrown + ShopifyProductsResponse) (fuel : nat) :
  forall (page : nat) (acc : Acc),
  Forall (fun r => exists p, r = GetProducts domain p)
    (requests (trace (scrape_pages MAX_RETRIES RATE_LIMIT_DELAY domain feed fuel page acc))).
Proof.
  induction fuel as [|fuel IH]; intros page acc; [constructor|].
  assert (Hfetch : Forall (fun r => exists p, r = GetProducts domain p)
                     (requests (trace (fetch_page MAX_RETRIES domain feed page)))).
  { eapply Forall_impl; [|apply fetch_page_requests]. intros r <-. now exists page. }
  rewrite scrape_pages_turn, trace_bind, requests_app.
  apply Forall_app. split; [exact Hfetch|].
  destruct (value (fetch_page MAX_RETRIES domain feed page)) as [e|result]; [constructor|].
  destruct (response_products result) as [[|p ps]|]; try constructor.
  rewrite trace_bind, requests_app. apply Forall_app. split; [constructor|apply IH].
Qed.

Variable MAX_RETRIES : nat.
Variable RATE_LIMIT_DELAY : Z.
Variable response_status : Thrown -> option Z.
Variable error_name : Thrown -> string.
Variable root : string -> nat -> Thrown + ShopifyProductsResponse.
Variable feed : string -> nat -> nat -> Thrown + ShopifyProductsResponse.
Variable shop_json : string -> nat -> Thrown + ShopResponse.
Variable storefront : string -> nat -> Thrown + StorefrontResponse.

Local Abbreviation pipeline :=
  (scrapeShopifyStore MAX_RETRIES RATE_LIMIT_DELAY response_status error_name
     root feed shop_json storefront).
Local Abbreviation detect d :=
  (detectShopifyStore MAX_RETRIES response_status error_name d (root d)).
Local Abbreviation scrape d fuel :=
  (scrapeShopifyProducts MAX_RETRIES RATE_LIMIT_DELAY d (feed d) fuel).
Local Abbreviation shop_info d :=
  (getShopInfo MAX_RETRIES d (shop_json d) (storefront d)).

Lemma detect_negative (d : string) :
  isShopify (value (detect d)) = false ->
  exists text,
    detection_error (value (detect d)) = Some text
    /\ text <> EmptyString
    /\ text <> "Not a Shopify store"
    /\ or_default (detection_error (value (detect d))) "Not a Shopify store" = text.
Proof.
  pose proof (detectShopifyStore_value MAX_RETRIES response_status error_name d (root d))
    as Hval.
  cbv zeta in Hval.
  destruct (value (retryWithBackoff _ _ _)) as [e|r].
  - destruct Hval as (_ & H404 & Hother). intros _.
    destruct (option_eq_dec_Z (response_status e) (Some 404%Z)) as [Hs|Hs].
    + rewrite (H404 Hs). eexists. split; [reflexivity|]. repeat split; discriminate.
    + rewrite (Hother Hs). eexists. split; [reflexivity|]. repeat split; discriminate.
  - rewrite Hval. discriminate.
Qed.

Lemma detect_requests (d : string) : requests (trace (detect d)) = [].
Proof.
  rewrite detectShopifyStore_trace. apply retry_loop_no_requests. reflexivity.
Qed.

(** X17: the pipeline reports its two early failures instead of throwing.
    An input the normalizer rejects gives success=false with the
    normalizer's message, which starts with "Invalid domain format: ", and
    nothing is requested, retried or slept.  A normalized host that
    detection turns down gives success=false with detection's own error
    text, which is never empty, so the fallback text "Not a Shopify store"
    never appears; nothing happens after detection: no product page and no
    shop information is requested.  Neither failure carries data. *)
Theorem scrapeShopifyStore_early_failures
    (fuel : nat) (domain : string) (logoUrl description : option string) :
  let run := pipeline fuel domain logoUrl description in
  (forall e, normalizeDomain domain = inl e ->
     value run = Some {| scrape_success := false; scrape_data := None;
                         scrape_error := Some (message_of e) |}
     /\ (exists candidate, message_of e = "Invalid domain format: " ++ candidate)
     /\ trace run = [])
  /\ (forall d, normalizeDomain domain = inr d ->
        isShopify (value (detect d)) = false ->
        exists text,
          detection_error (value (detect d)) = Some text
          /\ text <> EmptyString
          /\ text <> "Not a Shopify store"
          /\ value run = Some {| scrape_success := false; scrape_data := None;
                                 scrape_error := Some text |}
          /\ trace run = trace (detect d)
          /\ requests (trace run) = []).
Proof.
  intros run. subst run. unfold scrapeShopifyStore. split.
  - intros e He. rewrite He. split; [reflexivity|]. split; [|reflexivity].
    now apply (normalizeDomain_message domain).
  - intros d -> Hneg. rewrite value_bind, trace_bind, Hneg. cbn [negb].
    destruct (detect_negative d Hneg) as (text & Herr & Hne & Hnot & Hdef).
    exists text. rewrite Hdef.
    change (trace (ret ?x)) with (@nil Event). rewrite app_nil_r.
    repeat split; auto. apply detect_requests.
Qed.

(** X18: for an input that normalizes to a host d which detection accepts,
    the pipeline runs its stages in this order: detection, then the product
    pages, then the shop information; every request it records goes to the
    host d.  If the pagination ends, the pipeline reports success whatever
    the pages, the mappers and the shop endpoints gave (a feed whose first
    page fails still gives success, with no products).  The data then hold
    the products and variants the two list mappers accepted from the scrape
    result, and a store record built from d: d is a valid host name, both
    URLs are "https://" followed by d, the name and handle are computed
    from d, the currency is the shop information's and is never empty, it
    is the only supported currency, and logo and description are the
    caller's when given and not empty, else the shop information's, and
    never the empty string. *)
Theorem scrapeShopifyStore_success
    (fuel : nat) (domain d : string) (logoUrl description : option string) :
  normalizeDomain domain = inr d ->
  isShopify (value (detect d)) = true ->
  let run := pipeline fuel domain logoUrl description in
  trace run
  = (trace (detect d) ++ trace (scrape d fuel)
     ++ match value (scrape d fuel) with
        | Some _ => trace (shop_info d)
        | None => []
        end)%list
  /\ Forall (fun r => r = GetShop d \/ r = PostStorefront d \/ exists p, r = GetProducts d p)
       (requests (trace run))
  /\ (value (scrape d fuel) = None -> value run = None)
  /\ forall scraped, value (scrape d fuel) = Some scraped ->
       exists data,
         value run = Some {| scrape_success := true; scrape_data := Some data;
                             scrape_error := None |}
         /\ ScrapedStoreData.products data
            = fst (mapAllProducts (ShopifyScraper.products scraped))
         /\ ScrapedStoreData.product_variants data
            = fst (mapAllVariants (ShopifyScraper.variants scraped))
         /\ let store := ScrapedStoreData.store data in
            let info := value (shop_info d) in
            isValidDomain d = true
            /\ ScrapedStoreInput.store_url store = "https://" ++ d
            /\ ScrapedStoreInput.shopify_store_url store = "https://" ++ d
            /\ ScrapedStoreInput.display_name store = formatStoreName d
            /\ ScrapedStoreInput.store_handle store = createStoreHandle d
            /\ ScrapedStoreInput.default_currency store = currency info
            /\ ScrapedStoreInput.default_currency store <> EmptyString
            /\ ScrapedStoreInput.supported_currencies store
               = [ScrapedStoreInput.default_currency store]
            /\ ScrapedStoreInput.logo_url store
               = (if truthy logoUrl then logoUrl else logo_url info)
            /\ ScrapedStoreInput.description store
               = (if truthy description then description
                  else ShopifyDetector.description info)
            /\ ScrapedStoreInput.logo_url store <> Some EmptyString
            /\ ScrapedStoreInput.description store <> Some EmptyString.
Proof.
  intros Hd Hpos run. subst run. unfold scrapeShopifyStore. rewrite Hd.
  rewrite value_bind, trace_bind, Hpos. cbn [negb].
  rewrite value_bind, trace_bind.
  pose proof (getShopInfo_run MAX_RETRIES d (shop_json d) (storefront d)) as Hinfo.
  cbv zeta in Hinfo. destruct Hinfo as (Hcur & Hlogo & Hdesc & (a & b & _ & _ & Hreq & _)).
  assert (Hscrape_req : Forall (fun r => r = GetShop d \/ r = PostStorefront d
                                         \/ exists p, r = GetProducts d p)
                          (requests (trace (scrape d fuel)))).
  { unfold scrapeShopifyProducts. rewrite trace_bind.
    change (trace (ret ?x)) with (@nil Event). rewrite app_nil_r.
    eapply Forall_impl; [|apply scrape_pages_requests]. intros r Hr. auto. }
  assert (Hinfo_req : Forall (fun r => r = GetShop d \/ r = PostStorefront d
                                       \/ exists p, r = GetProducts d p)
                        (requests (trace (shop_info d)))).
  { rewrite Hreq. apply Forall_app. split; apply Forall_forall; intros r Hr;
      apply repeat_spec in Hr; auto. }
  destruct (value (scrape d fuel)) as [scraped|] eqn:Hscr.
  - destruct (mapAllProducts (ShopifyScraper.products scraped))
      as [mappedProducts failedProducts] eqn:Hmp.
    destruct (mapAllVariants (ShopifyScraper.variants scraped))
      as [mappedVariants failedVariants] eqn:Hmv.
    rewrite value_bind, trace_bind.
    change (trace (ret ?x)) with (@nil Event). rewrite app_nil_r.
    split; [reflexivity|]. split; [|split; [discriminate|]].
    + rewrite !requests_app, detect_requests. cbn [app].
      apply Forall_app. split; assumption.
    + intros scraped' [= <-]. eexists. split; [reflexivity|].
      cbn [ScrapedStoreData.products ScrapedStoreData.product_variants
           ScrapedStoreData.store
           ScrapedStoreInput.store_url ScrapedStoreInput.shopify_store_url
           ScrapedStoreInput.display_name ScrapedStoreInput.store_handle
           ScrapedStoreInput.default_currency ScrapedStoreInput.supported_currencies
           ScrapedStoreInput.logo_url ScrapedStoreInput.description].
      rewrite Hmp, Hmv. cbn [fst].
      split; [reflexivity|]. split; [reflexivity|].
      split; [now apply (normalizeDomain_valid domain)|].
      do 5 (split; [reflexivity|]). split; [exact Hcur|]. split; [reflexivity|].
      unfold or_null, or_else.
      split; [|split; [|split]].
      * destruct logoUrl as [[|c s]|]; cbn [truthy]; try reflexivity;
          destruct (logo_url (value (shop_info d))) as [[|c' s']|]; try reflexivity;
          now destruct Hlogo.
      * destruct description as [[|c s]|]; cbn [truthy]; try reflexivity;
          destruct (ShopifyDetector.description (value (shop_info d))) as [[|c' s']|];
          try reflexivity; now destruct Hdesc.
      * destruct logoUrl as [[|c s]|]; cbn [truthy]; try discriminate;
          destruct (logo_url (value (shop_info d))) as [[|c' s']|]; discriminate.
      * destruct description as [[|c s]|]; cbn [truthy]; try discriminate;
          destruct (ShopifyDetector.description (value (shop_info d))) as [[|c' s']|];
          discriminate.
  - change (trace (ret ?x)) with (@nil Event).
    split; [reflexivity|]. split; [|split; [reflexivity|discriminate]].
    rewrite !requests_app, detect_requests. cbn [app]. rewrite app_nil_r. exact Hscrape_req.
Qed.

End PipelineFacts.

Lemma scrapeShopifyStore_success_witness :
  exists data,
    Effects.value
      (Pipeline.scrapeShopifyStore 2 2000 no_status plain_error_name sample_root
         (fun _ => sample_feed) (fun _ => euro_shop_json) (fun _ => branded_storefront)
         5 "https://www.Shop.com/products?page=2" None (Some "Tees"))
    = Some {| Pipeline.scrape_success := true; Pipeline.scrape_data := Some data;
              Pipeline.scrape_error := None |}
    /\ ScrapedStoreInput.store_url (ScrapedStoreData.store data) = "https://shop.com"
    /\ ScrapedStoreInput.description (ScrapedStoreData.store data) = Some "Tees".
Proof.
  destruct (scrapeShopifyStore_success 2 2000 no_status plain_error_name sample_root
              (fun _ => sample_feed) (fun _ => euro_shop_json) (fun _ => branded_storefront)
              5 "https://www.Shop.com/products?page=2" "shop.com" None (Some "Tees")
              eq_refl eq_refl) as (_ & _ & _ & H).
  destruct (H _ eq_refl) as (data & Hv & _ & _ & _ & Hurl & _ & _ & _ & _ & _ & _ & _ & Hdesc & _).
  exists data. split; [exact Hv|]. split; [exact Hurl|exact Hdesc].
Defined.

(** ** The admin token *)

Section AdminTokenFacts.
Import JS AdminToken.

(** X19: validateAdminToken accepts a token exactly when ADMIN_TOKEN is set
    to a non-empty text and the token is that same text.  With ADMIN_TOKEN
    unset or empty nothing is accepted, not even a missing or empty token.
    requireAdminToken returns exactly in these cases and otherwise throws
    the error "Unauthorized: Invalid or missing admin token". *)
Theorem validateAdminToken_accepts (validToken token : option string) :
  (validateAdminToken validToken token = true
   <-> exists s, s <> EmptyString /\ validToken = Some s /\ token = Some s)
  /\ (requireAdminToken validToken token = inr tt
      <-> validateAdminToken validToken token = true)
  /\ (validateAdminToken validToken token = false ->
      requireAdminToken validToken token
      = inl (ThrownError "Unauthorized: Invalid or missing admin token"))
  /\ (truthy validToken = false -> validateAdminToken validToken token = false).
Proof.
  split; [|split; [|split]].
  - unfold validateAdminToken. split.
    + destruct validToken as [[|c v]|]; cbn [truthy negb]; try discriminate.
      destruct token as [[|c' t]|]; cbn [truthy negb]; try discriminate.
      destruct (String c' t =? String c v) eqn:E; cbn [negb]; [|discriminate].
      intros _. apply String.eqb_eq in E. exists (String c v).
      split; [discriminate|]. split; [reflexivity|now rewrite E].
    + intros (s & Hs & -> & ->). destruct s as [|c s]; [now destruct Hs|].
      cbn [truthy negb]. now rewrite String.eqb_refl.
  - unfold requireAdminToken.
    destruct (validateAdminToken validToken token); cbn [negb]; split;
      try reflexivity; discriminate.
  - unfold requireAdminToken. now intros ->.
  - unfold validateAdminToken. now intros ->.
Qed.

End AdminTokenFacts.

(** ** The two revisions of the sync *)

Section SyncRevisions.
Import JS Effects Retry GraphqlClient.

Lemma filter_all {A : Type} (f : A -> bool) (l : list A) :
  (forall x, In x l -> f x = true) -> filter f l = l.
Proof.
  induction l as [|x l IH]; intros H; [reflexivity|].
  cbn [filter]. rewrite (H x (or_introl eq_refl)), IH; [reflexivity|].
  intros y Hy. apply H. now right.
Qed.

Variable MAX_RETRIES : nat.
Variable token : string.
Variable data : ScrapedStoreData.t.
Variable api : nat -> nat -> Thrown + SyncResponse.

Local Abbreviation single :=
  (GraphqlClientSingle.syncScrapedStoreAndProducts MAX_RETRIES token data (api 1%nat)).
Local Abbreviation batched := (syncScrapedStoreAndProducts MAX_RETRIES token data api).
Local Abbreviation send_single :=
  (retryWithBackoff (http_call (GraphqlClientSingle.sync_request token data) (api 1%nat))
     "GraphQL sync request" MAX_RETRIES).

Hypothesis one_batch : (1 <= totalProducts data <= BATCH_SIZE)%nat.
Hypothesis no_orphans :
  forall v, In v (ScrapedStoreData.product_variants data) ->
  exists p, In p (ScrapedStoreData.products data)
            /\ CloreProduct.shopify_id p = CloreProductVariant.shopify_product_id v.

Lemma single_batch_request :
  batch_request token data 0 = GraphqlClientSingle.sync_request token data.
Proof.
  unfold batch_request, GraphqlClientSingle.sync_request.
  assert (Hb : productBatch data 0 = ScrapedStoreData.products data).
  { unfold productBatch, slice. cbn [skipn Nat.add].
    rewrite Nat.sub_0_r. apply firstn_all2. unfold totalProducts in *.
    rewrite Nat.min_r; lia. }
  rewrite Hb. f_equal. unfold variantBatch. apply filter_all.
  intros v Hv. destruct (no_orphans v Hv) as (p & Hp & Heq).
  apply existsb_exists. exists p. split; [exact Hp|]. now apply String.eqb_eq.
Qed.

Lemma single_batch_run :
  let send := send_batch MAX_RETRIES token data api 0 in
  trace batched = trace send
  /\ value batched
     = match value send with
       | inl error => {| outcome_success := false;
                         outcome_message := "Sync error: " ++ message_of error;
                         outcome_result := None |}
       | inr resp => summary (handle_response 1 initial_state resp)
       end.
Proof.
  cbv zeta. unfold syncScrapedStoreAndProducts.
  destruct (totalProducts data) as [|n] eqn:Hn; [lia|].
  cbn [sync_batches]. rewrite Hn.
  replace (0 <? S n)%nat with true by (symmetry; apply Nat.ltb_lt; lia).
  rewrite !trace_bind, !value_bind.
  change (batchNum 0) with 1%nat.
  destruct (value (send_batch MAX_RETRIES token data api 0)) as [error|resp].
  - change (trace (ret ?x)) with (@nil Event). rewrite !app_nil_r. split; reflexivity.
  - assert (Hstop : sync_batches MAX_RETRIES token data api n (0 + BATCH_SIZE)
                      (handle_response 1 initial_state resp)
                    = ret (inr (handle_response 1 initial_state resp))).
    { destruct n as [|n']; [reflexivity|]. cbn [sync_batches]. rewrite Hn.
      replace (0 + BATCH_SIZE <? S (S n'))%nat with false; [reflexivity|].
      symmetry. apply Nat.ltb_ge. lia. }
    rewrite Hstop.
    change (trace (ret ?x)) with (@nil Event). rewrite !app_nil_r. split; reflexivity.
Qed.

(** X20: the two revisions of syncScrapedStoreAndProducts on a scrape
    output that fits one batch (1 to 20 products) and whose variants all
    have their product in it.  Both send the same requests, the same number
    of times, with the same pauses.  When the request fails all attempts
    both report the same "Sync error: ..." message.  Whenever the batched
    revision reports success the single-request revision does too; the
    converse fails in exactly one case: the API answered a successful
    mutation that lists errors, which the single-request revision reports
    as success and the batched one as failure. *)
Theorem sync_revisions_on_one_batch :
  requests (trace single) = requests (trace batched)
  /\ sleeps (trace single) = sleeps (trace batched)
  /\ invocations (trace single) = invocations (trace batched)
  /\ value send_single = value (send_batch MAX_RETRIES token data api 0)
  /\ (forall error, value send_single = inl error ->
        outcome_success (value single) = false
        /\ outcome_success (value batched) = false
        /\ outcome_message (value single) = outcome_message (value batched))
  /\ (outcome_success (value batched) = true -> outcome_success (value single) = true)
  /\ (outcome_success (value single) = true /\ outcome_success (value batched) = false
      <-> exists resp mutation e es,
            value send_single = inr resp
            /\ response_errors resp = None
            /\ response_data resp = Some mutation
            /\ success mutation = true
            /\ errors mutation = Some (e :: es)).
Proof.
  destruct single_batch_run as [Ht Hv]. rewrite Ht, Hv. clear Ht Hv.
  assert (Hsend : value send_single = value (send_batch MAX_RETRIES token data api 0)
                  /\ requests (trace send_single)
                     = requests (trace (send_batch MAX_RETRIES token data api 0))
                  /\ sleeps (trace send_single)
                     = sleeps (trace (send_batch MAX_RETRIES token data api 0))
                  /\ invocations (trace send_single)
                     = invocations (trace (send_batch MAX_RETRIES token data api 0))).
  { unfold send_batch, retryWithBackoff. rewrite single_batch_request.
    apply retry_loop_label_irrelevant. }
  destruct Hsend as (Hval & Hreq & Hsl & Hinv).
  rewrite <- Hval, <- Hreq, <- Hsl, <- Hinv.
  assert (Htrace : trace single = trace send_single).
  { unfold GraphqlClientSingle.syncScrapedStoreAndProducts. rewrite trace_bind.
    destruct (value send_single) as [e|resp]; [apply app_nil_r|].
    destruct (response_errors resp); [apply app_nil_r|].
    destruct (response_data resp) as [m|]; [|apply app_nil_r].
    destruct (success m); apply app_nil_r. }
  rewrite Htrace.
  split; [reflexivity|]. split; [reflexivity|]. split; [reflexivity|].
  split; [reflexivity|].
  unfold GraphqlClientSingle.syncScrapedStoreAndProducts. rewrite value_bind.
  destruct (value send_single) as [e|resp].
  - split; [intros error _; repeat split|]. split; [discriminate|].
    split; [intros [H _]; discriminate|].
    intros (resp & m & e' & es & H & _). discriminate.
  - split; [intros error H; discriminate|].
    unfold handle_response, push_error.
    destruct (response_errors resp) as [errs|] eqn:Hre.
    { split; [discriminate|]. split; [intros [H _]; discriminate|].
      intros (resp' & m & e' & es & [= <-] & H & _). congruence. }
    destruct (response_data resp) as [m|] eqn:Hrd.
    2:{ split; [discriminate|]. split; [intros [H _]; discriminate|].
        intros (resp' & m & e' & es & [= <-] & _ & H & _). congruence. }
    destruct (success m) eqn:Hs; cbn [negb].
    2:{ split; [discriminate|]. split; [intros [H _]; discriminate|].
        intros (resp' & m' & e' & es & [= <-] & _ & H & H' & _). congruence. }
    split; [reflexivity|].
    destruct (errors m) as [[|e' es]|] eqn:He.
    + split; [intros [_ H]; discriminate|].
      intros (resp' & m' & e'' & es' & [= <-] & _ & H & _ & H'). congruence.
    + split; [|intros _; split; reflexivity].
      intros _. exists resp, m, e', es. repeat split; auto.
    + split; [intros [_ H]; discriminate|].
      intros (resp' & m' & e'' & es' & [= <-] & _ & H & _ & H'). congruence.
Qed.

End SyncRevisions.
Lemma sync_revisions_on_one_batch_witness :
  GraphqlClient.outcome_success
    (Effects.value
       (GraphqlClientSingle.syncScrapedStoreAndProducts 3 "token" (sample_data 3)
          (warning_api 1%nat)))
  = true
  /\ GraphqlClient.outcome_success
       (Effects.value
          (GraphqlClient.syncScrapedStoreAndProducts 3 "token" (sample_data 3) warning_api))
     = false.
Proof.
  assert (one_batch : (1 <= GraphqlClient.totalProducts (sample_data 3)
                       <= GraphqlClient.BATCH_SIZE)%nat).
  { vm_compute. lia. }
  assert (no_orphans :
            forall v, In v (ScrapedStoreData.product_variants (sample_data 3)) ->
            exists p, In p (ScrapedStoreData.products (sample_data 3))
                      /\ CloreProduct.shopify_id p
                         = CloreProductVariant.shopify_product_id v).
  { intros v [<-|[]]. exists (clore_product 3). split; [right; right; now left|reflexivity]. }
  destruct (sync_revisions_on_one_batch 3 "token" (sample_data 3) warning_api
              one_batch no_orphans)
    as (_ & _ & _ & _ & _ & _ & [_ H]).
  apply H. eexists _, _, _, _. repeat split.
Defined.

(** ** What a valid domain looks like *)

Section ValidDomainFacts.
Import JS Validators.

Lemma is_tld_not_empty (t : string) : is_tld t = true -> t <> EmptyString.
Proof. intros H ->. discriminate. Qed.

Lemma is_label_not_empty (l : string) : is_label l = true -> l <> EmptyString.
Proof. intros H ->. discriminate. Qed.

(** X21: a domain that isValidDomain accepts has two dot-separated parts
    or more and none of them is empty; it is made of letters, digits,
    hyphens and dots only, starts with a letter or digit and ends with a
    letter.  The check does not depend on the case of the letters: the
    lower-cased domain is accepted too. *)
Theorem isValidDomain_necessary (domain : string) :
  isValidDomain domain = true ->
  (2 <= List.length (split "." domain))%nat
  /\ (forall part, In part (split "." domain) -> part <> EmptyString)
  /\ all_chars host_char domain = true
  /\ (exists c rest, domain = String c rest /\ is_alnum c = true)
  /\ (exists z, last_char domain = Some z /\ is_alpha z = true)
  /\ isValidDomain (toLowerCase domain) = true.
Proof.
  intros Hv. destruct (isValidDomain_shape domain Hv) as (Hchars & Hfirst & Hlast).
  split; [|split; [|split; [exact Hchars|split; [exact Hfirst|split; [exact Hlast|]]]]].
  - unfold isValidDomain in Hv. apply andb_true_iff in Hv as [Hv _].
    apply andb_true_iff in Hv as [Hlen _]. now apply Nat.leb_le in Hlen.
  - unfold isValidDomain in Hv. apply andb_true_iff in Hv as [Hv Htld].
    apply andb_true_iff in Hv as [Hlen Hlabels].
    intros part Hin.
    destruct (split "." domain) as [|p ps] eqn:Hs; [destruct Hin|].
    rewrite (app_removelast_last EmptyString (l := p :: ps)) in Hin by discriminate.
    apply in_app_or in Hin as [Hin|[<-|[]]].
    + apply is_label_not_empty. rewrite forallb_forall in Hlabels. now apply Hlabels.
    + now apply is_tld_not_empty.
  - now rewrite isValidDomain_toLowerCase.
Qed.

Lemma isValidDomain_necessary_witness :
  (2 <= List.length (split "." "My-Shop.co.uk"))%nat
  /\ isValidDomain (toLowerCase "My-Shop.co.uk") = true.
Proof.
  destruct (isValidDomain_necessary "My-Shop.co.uk" eq_refl) as (Hlen & _ & _ & _ & _ & Hlow).
  split; [exact Hlen|exact Hlow].
Defined.

End ValidDomainFacts.
